(** * nv.chart.py: the netdata collector for Nvidia GPU statistics

    A shallow embedding of [Service.check] and [Service._get_data] of
    [nv.chart.py], and the properties of the schema builder and of the
    collector that were checked against it.

    Python dictionaries are finite maps with string keys, [None] and the
    scalars are one type of values, exceptions are an error monad, the
    dictionaries that the ECC loop shares by reference live in a small heap,
    and [self] is a record threaded through [check] and [_get_data].  The
    NVML wrapper, [subprocess], [re] and the builtins [int] and [repr] are
    not part of the plugin: they are the fields of a [World]. *)

From stdpp Require Import gmap strings list fin_maps pretty.

(** ** Values and exceptions *)

Inductive value : Type :=
  | VNone
  | VBool (b : bool)
  | VInt (z : Z)
  | VStr (s : string)
  | VRef (a : nat).

Global Instance value_eq_dec : EqDecision value.
Proof. solve_decision. Defined.

(** [v is None] *)
Definition is_None (v : value) : bool :=
  match v with VNone => true | _ => false end.

(** The truth value of [v] in [if v:]. *)
Definition truthy (v : value) : bool :=
  match v with
  | VNone => false
  | VBool b => b
  | VInt z => negb (Z.eqb z 0)
  | VStr s => negb (String.eqb s "")
  | VRef _ => true
  end.

(** A number or [None]: what a chart line can plot. *)
Definition numeric_or_None (v : value) : bool :=
  match v with VNone | VInt _ => true | _ => false end.

Inductive exn : Type :=
  | KeyError (k : string)
  | IndexError
  | AttributeError
  | ValueError
  | TypeError
  | NVMLError
  | OSError
  | Exception (msg : string).

Inductive Result (A : Type) : Type :=
  | Ok (a : A)
  | Raise (e : exn).
Arguments Ok {A} a.
Arguments Raise {A} e.

Global Instance Result_ret : MRet Result := @Ok.
Global Instance Result_bind : MBind Result := λ A B f r,
  match r with Ok a => f a | Raise e => Raise e end.

Definition is_Ok {A} (r : Result A) : Prop := ∃ a, r = Ok a.
Definition is_Raise {A} (r : Result A) : Prop := ∃ e, r = Raise e.

(** [try: x = r  except Exception: x = None] *)
Definition catch {A} (r : Result A) : option A :=
  match r with Ok a => Some a | Raise _ => None end.

(** [None] for a failed query, the number otherwise. *)
Definition of_option (o : option Z) : value :=
  match o with Some z => VInt z | None => VNone end.

(** [l[i]] on a list. *)
Definition index {A} (l : list A) (i : nat) : Result A :=
  match l !! i with Some a => Ok a | None => Raise IndexError end.

(** [d[k]] on a dictionary. *)
Definition getitem (d : gmap string value) (k : string) : Result value :=
  match d !! k with Some v => Ok v | None => Raise (KeyError k) end.

(** [str(i)] for an index. *)
Definition str (i : nat) : string := pretty i.

(** [for i in l: a = body(i, a)], left at the first exception. *)
Fixpoint for_each {A} (l : list nat) (body : nat → A → Result A) (a : A)
  : Result A :=
  match l with
  | [] => Ok a
  | i :: l => a' ← body i a; for_each l body a'
  end.

(** [range(n)] *)
Definition range (n : nat) : list nat := seq 0 n.

(** ** The world outside the plugin *)

Definition handle := nat.

(** [nvmlDeviceGetMemoryInfo]: [mem.total], [mem.used], [mem.free]. *)
Record MemInfo := { mem_total : Z; mem_used : Z; mem_free : Z }.
(** [nvmlDeviceGetUtilizationRates]: [util.gpu], [util.memory]. *)
Record Utilization := { util_gpu : Z; util_memory : Z }.
(** [nvmlUnitGetFanSpeedInfo]: [fan.speed], [fan.state]. *)
Record FanInfo := { fan_speed : Z; fan_state : Z }.
(** [nvmlUnitGetPsuInfo]: the state is whatever the wrapper hands out (it
    declares a character buffer), the other three are numbers. *)
Record PsuInfo :=
  { psu_current : Z; psu_power : Z; psu_state : value; psu_voltage : Z }.

Record World := {
  (* pynvml *)
  nvmlInit : Result unit;
  nvmlShutdown : Result unit;
  nvmlSystemGetDriverVersion : Result string;
  nvmlUnitGetCount : Result nat;
  nvmlDeviceGetCount : Result nat;
  nvmlDeviceGetHandleByIndex : nat → Result handle;
  nvmlDeviceGetName : handle → Result string;
  nvmlDeviceGetBrand : handle → Result nat;
  nvmlDeviceGetMemoryInfo : handle → Result MemInfo;
  (* handle, memError, eccCounter, memoryLocation *)
  nvmlDeviceGetMemoryErrorCounter : handle → nat → nat → nat → Result Z;
  nvmlDeviceGetTemperature : handle → Result Z;
  nvmlDeviceGetFanSpeed : handle → Result Z;
  nvmlDeviceGetPowerUsage : handle → Result Z;
  nvmlDeviceGetUtilizationRates : handle → Result Utilization;
  (* handle, 0 for NVML_PCIE_UTIL_TX_BYTES and 1 for NVML_PCIE_UTIL_RX_BYTES *)
  nvmlDeviceGetPcieThroughput : handle → nat → Result Z;
  nvmlUnitGetHandleByIndex : nat → Result handle;
  nvmlUnitGetFanSpeedInfo : handle → Result FanInfo;
  nvmlUnitGetPsuInfo : handle → Result PsuInfo;
  nvmlUnitGetTemperature : handle → nat → Result Z;
  (* subprocess: [Popen([...]).communicate()], as (output, error) *)
  Popen_communicate : Result (string * string);
  (* builtins and re *)
  repr_str : string → string;               (* repr(str(output)) *)
  findall : string → string → list (list string);
  int : string → Result Z;
}.

(** ** [self] *)

(** A chart's ['options'] list: name, title, units, family, context, type. *)
Record Options := {
  opt_name : value;
  opt_title : string;
  opt_units : string;
  opt_family : string;
  opt_context : string;
  opt_type : string;
}.

(** A chart definition: ['options'] and ['lines']; a line is a Python list. *)
Record Chart := { options : Options; lines : list (list value) }.

Record Service := {
  configuration : gmap string value;
  legacy : value;
  nvMemFactor : Z;
  unitCount : nat;
  deviceCount : nat;
  order : list string;                  (* the module's ORDER, by reference *)
  definitions : gmap string Chart;      (* the module's CHARTS, by reference *)
}.

Definition set_legacy (v : value) (self : Service) : Service :=
  {| configuration := configuration self; legacy := v;
     nvMemFactor := nvMemFactor self; unitCount := unitCount self;
     deviceCount := deviceCount self; order := order self;
     definitions := definitions self |}.

Definition set_nvMemFactor (z : Z) (self : Service) : Service :=
  {| configuration := configuration self; legacy := legacy self;
     nvMemFactor := z; unitCount := unitCount self;
     deviceCount := deviceCount self; order := order self;
     definitions := definitions self |}.

Definition set_counts (u d : nat) (self : Service) : Service :=
  {| configuration := configuration self; legacy := legacy self;
     nvMemFactor := nvMemFactor self; unitCount := u;
     deviceCount := d; order := order self;
     definitions := definitions self |}.

Definition set_order (o : list string) (self : Service) : Service :=
  {| configuration := configuration self; legacy := legacy self;
     nvMemFactor := nvMemFactor self; unitCount := unitCount self;
     deviceCount := deviceCount self; order := o;
     definitions := definitions self |}.

Definition set_definitions (d : gmap string Chart) (self : Service) : Service :=
  {| configuration := configuration self; legacy := legacy self;
     nvMemFactor := nvMemFactor self; unitCount := unitCount self;
     deviceCount := deviceCount self; order := order self;
     definitions := d |}.

(** ** The ECC matrix (lines 273-288)

    [_memError], [_eccCounter] and [eccErrors] are created once, before the
    loops, and stored into one another by reference. *)

Definition heap := list (gmap string value).

(** [{}]: a fresh dictionary and its address. *)
Definition new_dict (hp : heap) : nat * heap := (length hp, hp ++ [∅]).

(** [a[k] = v] *)
Definition setitem (a : nat) (k : string) (v : value) (hp : heap) : heap :=
  alter (<[k := v]>) a hp.

(** [v[k]] for a reference [v] to a dictionary. *)
Definition subscript (hp : heap) (v : value) (k : string) : Result value :=
  match v with
  | VRef a =>
      match hp !! a with
      | Some d => getitem d k
      | None => Raise TypeError
      end
  | _ => Raise TypeError
  end.

Definition eccCounterType : list string := ["VOLATILE_ECC"; "AGGREGATE_ECC"].
Definition memErrorType : list string :=
  ["ERROR_TYPE_CORRECTED"; "ERROR_TYPE_UNCORRECTED"].
Definition memoryLocationType : list string :=
  ["L1_CACHE"; "L2_CACHE"; "DEVICE_MEMORY"; "REGISTER_FILE"; "TEXTURE_MEMORY"].

(** The body of the [try]: the heap it leaves and the reference [eccErrors]. *)
Definition ecc_matrix (w : World) (h : handle) : Result (heap * value) :=
  let '(_memError, hp) := new_dict [] in
  let '(_eccCounter, hp) := new_dict hp in
  let '(eccErrors, hp) := new_dict hp in
  hp ← for_each (range 5) (λ memoryLocation hp,
    hp ← for_each (range 2) (λ eccCounter hp,
      hp ← for_each (range 2) (λ memError hp,
        v ← nvmlDeviceGetMemoryErrorCounter w h memError eccCounter memoryLocation;
        k ← index memErrorType memError;
        Ok (setitem _memError k (VInt v) hp)) hp;
      k ← index eccCounterType eccCounter;
      Ok (setitem _eccCounter k (VRef _memError) hp)) hp;
    k ← index memoryLocationType memoryLocation;
    Ok (setitem eccErrors k (VRef _eccCounter) hp)) hp;
  Ok (hp, VRef eccErrors).

(** [eccErrors[loc][counter][err]] *)
Definition ecc_entry (e : heap * value) (loc counter err : string) : Result value :=
  let '(hp, eccErrors) := e in
  c ← subscript hp eccErrors loc;
  m ← subscript hp c counter;
  subscript hp m err.

(** The twenty keys of lines 368-387, in order, without the device index, and
    the three subscripts each one reads. *)
Definition ecc_slots : list (string * (string * string * string)) :=
  [ ("device_ecc_errors_L1_CACHE_VOLATILE_CORRECTED_", ("L1_CACHE", "VOLATILE_ECC", "ERROR_TYPE_CORRECTED"));
    ("device_ecc_errors_L1_CACHE_VOLATILE_UNCORRECTED_", ("L1_CACHE", "VOLATILE_ECC", "ERROR_TYPE_UNCORRECTED"));
    ("device_ecc_errors_L1_CACHE_AGGREGATE_CORRECTED_", ("L1_CACHE", "AGGREGATE_ECC", "ERROR_TYPE_CORRECTED"));
    ("device_ecc_errors_L1_CACHE_AGGREGATE_UNCORRECTED_", ("L1_CACHE", "AGGREGATE_ECC", "ERROR_TYPE_UNCORRECTED"));
    ("device_ecc_errors_L2_CACHE_VOLATILE_CORRECTED_", ("L2_CACHE", "VOLATILE_ECC", "ERROR_TYPE_CORRECTED"));
    ("device_ecc_errors_L2_CACHE_VOLATILE_UNCORRECTED_", ("L2_CACHE", "VOLATILE_ECC", "ERROR_TYPE_UNCORRECTED"));
    ("device_ecc_errors_L2_CACHE_AGGREGATE_CORRECTED_", ("L2_CACHE", "AGGREGATE_ECC", "ERROR_TYPE_CORRECTED"));
    ("device_ecc_errors_L2_CACHE_AGGREGATE_UNCORRECTED_", ("L2_CACHE", "AGGREGATE_ECC", "ERROR_TYPE_UNCORRECTED"));
    ("device_ecc_errors_DEVICE_MEMORY_VOLATILE_CORRECTED_", ("DEVICE_MEMORY", "VOLATILE_ECC", "ERROR_TYPE_CORRECTED"));
    ("device_ecc_errors_DEVICE_MEMORY_VOLATILE_UNCORRECTED_", ("DEVICE_MEMORY", "VOLATILE_ECC", "ERROR_TYPE_UNCORRECTED"));
    ("device_ecc_errors_DEVICE_MEMORY_AGGREGATE_CORRECTED_", ("DEVICE_MEMORY", "AGGREGATE_ECC", "ERROR_TYPE_CORRECTED"));
    ("device_ecc_errors_DEVICE_MEMORY_AGGREGATE_UNCORRECTED_", ("DEVICE_MEMORY", "AGGREGATE_ECC", "ERROR_TYPE_UNCORRECTED"));
    ("device_ecc_errors_REGISTER_FILE_VOLATILE_CORRECTED_", ("REGISTER_FILE", "VOLATILE_ECC", "ERROR_TYPE_CORRECTED"));
    ("device_ecc_errors_REGISTER_FILE_VOLATILE_UNCORRECTED_", ("REGISTER_FILE", "VOLATILE_ECC", "ERROR_TYPE_UNCORRECTED"));
    ("device_ecc_errors_REGISTER_FILE_AGGREGATE_CORRECTED_", ("REGISTER_FILE", "AGGREGATE_ECC", "ERROR_TYPE_CORRECTED"));
    ("device_ecc_errors_REGISTER_FILE_AGGREGATE_UNCORRECTED_", ("REGISTER_FILE", "AGGREGATE_ECC", "ERROR_TYPE_UNCORRECTED"));
    ("device_ecc_errors_TEXTURE_MEMORY_VOLATILE_CORRECTED_", ("TEXTURE_MEMORY", "VOLATILE_ECC", "ERROR_TYPE_CORRECTED"));
    ("device_ecc_errors_TEXTURE_MEMORY_VOLATILE_UNCORRECTED_", ("TEXTURE_MEMORY", "VOLATILE_ECC", "ERROR_TYPE_UNCORRECTED"));
    ("device_ecc_errors_TEXTURE_MEMORY_AGGREGATE_CORRECTED_", ("TEXTURE_MEMORY", "AGGREGATE_ECC", "ERROR_TYPE_CORRECTED"));
    ("device_ecc_errors_TEXTURE_MEMORY_AGGREGATE_UNCORRECTED_", ("TEXTURE_MEMORY", "AGGREGATE_ECC", "ERROR_TYPE_UNCORRECTED")) ].

(** Lines 368-387: one assignment after the other. *)
Fixpoint pack_ecc (e : heap * value) (gpuIdx : string)
    (slots : list (string * (string * string * string)))
    (data : gmap string value) : Result (gmap string value) :=
  match slots with
  | [] => Ok data
  | (key, (loc, counter, err)) :: slots =>
      v ← ecc_entry e loc counter err;
      pack_ecc e gpuIdx slots (<[key +:+ gpuIdx := v]> data)
  end.

(** ** [_get_data]: one device (lines 258-389) *)

Definition brands : list string :=
  ["Unknown"; "Quadro"; "Tesla"; "NVS"; "Grid"; "GeForce"; "Titan"].

(** [mem.total] and the like: [mem] is [None] after a failed query. *)
Definition getattr {A B} (o : option A) (f : A → B) : Result B :=
  match o with Some a => Ok (f a) | None => Raise AttributeError end.

Definition device_pass (w : World) (i : nat) (data : gmap string value)
  : Result (gmap string value) :=
  let gpuIdx := str i in
  handle ← nvmlDeviceGetHandleByIndex w i;
  name ← nvmlDeviceGetName w handle;
  brand ← nvmlDeviceGetBrand w handle;
  (* Get data *)
  let mem := catch (nvmlDeviceGetMemoryInfo w handle) in
  let eccErrors := catch (ecc_matrix w handle) in
  let temp := catch (nvmlDeviceGetTemperature w handle) in
  let fanspeed := catch (nvmlDeviceGetFanSpeed w handle) in
  let power := catch (nvmlDeviceGetPowerUsage w handle) in
  let util := catch (nvmlDeviceGetUtilizationRates w handle) in
  let gpu_util := util_gpu <$> util in
  let mem_util := util_memory <$> util in
  let pcie := catch (tx ← nvmlDeviceGetPcieThroughput w handle 0;
                     rx ← nvmlDeviceGetPcieThroughput w handle 1;
                     Ok (tx, rx)) in
  let pcie_tx := fst <$> pcie in
  let pcie_rx := snd <$> pcie in
  (* Packing data *)
  let data := <["device_name_" +:+ gpuIdx := VStr name]> data in
  _ ← index brands brand;
  let data := <["device_temp_" +:+ gpuIdx := of_option temp]> data in
  total ← getattr mem mem_total;
  let data := <["device_mem_total_" +:+ gpuIdx := VInt total]> data in
  used ← getattr mem mem_used;
  let data := <["device_mem_used_" +:+ gpuIdx := VInt used]> data in
  free ← getattr mem mem_free;
  let data := <["device_mem_free_" +:+ gpuIdx := VInt free]> data in
  let data := <["device_util_gpu_" +:+ gpuIdx := of_option gpu_util]> data in
  let data := <["device_util_mem_" +:+ gpuIdx := of_option mem_util]> data in
  let data := <["device_util_pcie_tx_" +:+ gpuIdx := of_option pcie_tx]> data in
  let data := <["device_util_pcie_rx_" +:+ gpuIdx := of_option pcie_rx]> data in
  let data := <["device_fanspeed_" +:+ gpuIdx := of_option fanspeed]> data in
  let data := <["device_power_" +:+ gpuIdx := of_option power]> data in
  match eccErrors with
  | Some e => pack_ecc e gpuIdx ecc_slots data
  | None =>
      Ok (<["device_ecc_errors_L1_CACHE_VOLATILE_CORRECTED_" +:+ gpuIdx := VNone]> data)
  end.

(** ** [_get_data]: one unit (lines 394-454) *)

Definition unit_pass (w : World) (i : nat) (data : gmap string value)
  : Result (gmap string value) :=
  let gpuIdx := str i in
  handle ← nvmlUnitGetHandleByIndex w i;
  let fan := catch (nvmlUnitGetFanSpeedInfo w handle) in
  let psu := catch (nvmlUnitGetPsuInfo w handle) in
  let temps := catch (temp_intake ← nvmlUnitGetTemperature w handle 0;
                      temp_exhaust ← nvmlUnitGetTemperature w handle 1;
                      temp_board ← nvmlUnitGetTemperature w handle 2;
                      Ok (temp_intake, temp_exhaust, temp_board)) in
  let data := <["unit_fan_speed_" +:+ gpuIdx := of_option (fan_speed <$> fan)]> data in
  let data := <["unit_fan_state_" +:+ gpuIdx := of_option (fan_state <$> fan)]> data in
  let data := <["unit_psu_current_" +:+ gpuIdx := of_option (psu_current <$> psu)]> data in
  let data := <["unit_psu_power_" +:+ gpuIdx := of_option (psu_power <$> psu)]> data in
  let data := <["unit_psu_state_" +:+ gpuIdx := default VNone (psu_state <$> psu)]> data in
  let data := <["unit_psu_voltage_" +:+ gpuIdx := of_option (psu_voltage <$> psu)]> data in
  let data := <["unit_temp_intake_" +:+ gpuIdx := of_option ((λ t, t.1.1) <$> temps)]> data in
  let data := <["unit_temp_exhaust_" +:+ gpuIdx := of_option ((λ t, t.1.2) <$> temps)]> data in
  let data := <["unit_temp_board_" +:+ gpuIdx := of_option ((λ t, t.2) <$> temps)]> data in
  Ok data.

(** Lines 254-454: the pass over the library. *)
Definition primary (w : World) (self : Service) : Result (gmap string value) :=
  data ← for_each (range (deviceCount self)) (device_pass w) ∅;
  for_each (range (unitCount self)) (unit_pass w) data.

(** ** [_get_data]: legacy mode (lines 457-509) *)

(** The [try] of lines 458-474. *)
Definition legacy_fetch (w : World) : Result string :=
  '(output, error) ← Popen_communicate w;
  let output := repr_str w output in
  if String.length output <? 800
  then Raise (Exception ("Error in fetching data from nvidia-settings " +:+ output))
  else Ok output.

(** One of the four blocks of the loop: [findall(pattern, output)[i][group]]
    is read before the [try] that guards [int]. *)
Definition legacy_field (w : World) (output : string) (i : nat)
    (key pattern : string) (group : nat) (data : gmap string value)
  : Result (gmap string value) :=
  v ← getitem data key;
  if is_None v then
    m ← index (findall w pattern output) i;
    s ← index m group;
    match int w s with
    | Ok z => Ok (<[key := VInt z]> data)
    | Raise _ => Ok data
    end
  else Ok data.

Definition legacy_pass (w : World) (output : string) (i : nat)
    (data : gmap string value) : Result (gmap string value) :=
  let gpuIdx := str i in
  data ← legacy_field w output i ("device_temp_" +:+ gpuIdx)
            "GPUCoreTemp.*?(gpu:\d*).*?\s(\d*)" 1 data;
  data ← legacy_field w output i ("device_mem_used_" +:+ gpuIdx)
            "UsedDedicatedGPUMemory.*?(gpu:\d*).*?\s(\d*)" 1 data;
  data ← legacy_field w output i ("device_util_gpu_" +:+ gpuIdx)
            "(gpu:\d*).*?graphics=(\d*),.*?memory=(\d*)" 1 data;
  legacy_field w output i ("device_util_mem_" +:+ gpuIdx)
            "(gpu:\d*).*?graphics=(\d*),.*?memory=(\d*)" 2 data.

(** ** [_get_data] *)

Definition _get_data (w : World) (self : Service)
  : Service * Result (gmap string value) :=
  match primary w self with
  | Raise e => (self, Raise e)
  | Ok data =>
      if truthy (legacy self) then
        match legacy_fetch w with
        | Raise e => (set_legacy (VBool false) self, Ok data)
        | Ok output =>
            (self, for_each (range (deviceCount self)) (legacy_pass w output) data)
        end
      else (self, Ok data)
  end.

(** ** [check]: a state and exception monad over [self] *)

Definition M (A : Type) : Type := Service → Service * Result A.

Global Instance M_ret : MRet M := λ A a self, (self, Ok a).
Global Instance M_bind : MBind M := λ A B f m self,
  match m self with
  | (self', Ok a) => f a self'
  | (self', Raise e) => (self', Raise e)
  end.

Definition lift {A} (r : Result A) : M A := λ self, (self, r).

Fixpoint for_eachM (l : list nat) (body : nat → M unit) : M unit :=
  match l with
  | [] => mret tt
  | i :: l => _ ← body i; for_eachM l body
  end.

(** [self.definitions[chart]['lines'].append(line)] *)
Definition append_line (chart : string) (line : list value) : M unit := λ self,
  match definitions self !! chart with
  | Some c =>
      (set_definitions
         (<[chart := {| options := options c; lines := lines c ++ [line] |}]>
            (definitions self)) self, Ok tt)
  | None => (self, Raise (KeyError chart))
  end.

(** [self.definitions[chart] = c] *)
Definition set_chart (chart : string) (c : Chart) : M unit := λ self,
  (set_definitions (<[chart := c]> (definitions self)) self, Ok tt).

(** [self.order.append(chart)] *)
Definition order_append (chart : string) : M unit := λ self,
  (set_order (order self ++ [chart]) self, Ok tt).

(** [if data[key] is not None: body] *)
Definition if_present (data : gmap string value) (key : string) (body : M unit)
  : M unit :=
  v ← lift (getitem data key);
  if is_None v then mret tt else body.

(** The module's ORDER and CHARTS as the file sets them. *)
Definition ORDER : list string :=
  ["utilization"; "memoryutilization"; "memory"; "pcie"; "temperature"; "fan";
   "power"; "ecc_errors"].

Definition chart0 (title units family context type : string) : Chart :=
  {| options := {| opt_name := VNone; opt_title := title; opt_units := units;
                   opt_family := family; opt_context := context;
                   opt_type := type |};
     lines := [] |}.

Definition CHARTS : gmap string Chart :=
  <["memory" := chart0 "Memory" "MB" "Memory" "nv.memory" "line"]> (
  <["utilization" := chart0 "Utilization" "%" "Utilization" "nv.utilization" "line"]> (
  <["memoryutilization" := chart0 "Memory Utilization" "%" "Memory Utilization" "nv.memoryutilization" "line"]> (
  <["ecc_errors" := chart0 "ECC errors" "counts" "ECC" "nv.ecc" "line"]> (
  <["temperature" := chart0 "GPU temperature" "C" "Temperature" "nv.temperature" "line"]> (
  <["fan" := chart0 "Fan speed" "%" "Fans" "nv.fan" "line"]> (
  <["pcie" := chart0 "PCI Express Bandwidth Utilization" "KiB/s" "PCIe Utilization" "nv.pcie" "area"]> (
  <["power" := chart0 "Power Consumption" "Watt" "Power" "nv.power" "line"]> ∅))))))).

(** [Service.__init__]: [self.order] and [self.definitions] are the module's
    lists and dictionaries themselves, not copies; the other attributes are
    set by [check]. *)
Definition __init__ (conf : gmap string value) (order0 : list string)
    (charts0 : gmap string Chart) : Service :=
  {| configuration := conf; legacy := VBool false; nvMemFactor := 1;
     unitCount := 0; deviceCount := 0; order := order0;
     definitions := charts0 |}.

(** [str(v)] of a value held by the snapshot (a dictionary is never one). *)
Definition str_value (v : value) : string :=
  match v with
  | VNone => "None"
  | VBool true => "True"
  | VBool false => "False"
  | VInt z => pretty z
  | VStr s => s
  | VRef _ => "{...}"
  end.

(** [int(v)] of a configuration value. *)
Definition int_value (w : World) (v : value) : Result Z :=
  match v with
  | VInt z => Ok z
  | VBool b => Ok (if b then 1 else 0)%Z
  | VStr s => int w s
  | _ => Raise TypeError
  end.

(** Lines 167-172: the names of the cards, for the titles. *)
Definition card_names (data : gmap string value) (n : nat) : Result string :=
  for_each (range n) (λ i name,
    v ← getitem data ("device_name_" +:+ str i);
    Ok (if decide (i = 0)
        then name +:+ str_value v +:+ " [" +:+ str i +:+ "]"
        else name +:+ " | " +:+ str_value v +:+ " [" +:+ str i +:+ "]")) "".

(** Lines 174-175: every chart's title gets the names appended. *)
Definition retitle (name : string) (c : Chart) : Chart :=
  {| options := {| opt_name := opt_name (options c);
                   opt_title := opt_title (options c) +:+ " for " +:+ name;
                   opt_units := opt_units (options c);
                   opt_family := opt_family (options c);
                   opt_context := opt_context (options c);
                   opt_type := opt_type (options c) |};
     lines := lines c |}.

Definition retitle_all (name : string) : M unit := λ self,
  (set_definitions (retitle name <$> definitions self) self, Ok tt).

(** A line [[key + gpuIdx, label.format(i), 'absolute'] + scale]. *)
Definition line (key : string) (label_l label_r : string) (i : nat)
    (scale : list value) : list value :=
  [VStr (key +:+ str i); VStr (label_l +:+ str i +:+ label_r); VStr "absolute"]
  ++ scale.

(** The twenty ECC lines of lines 197-216: key and label, in order. *)
Definition ecc_lines : list (string * string) :=
  [ ("device_ecc_errors_L1_CACHE_VOLATILE_CORRECTED_", "L1 Cache Volatile Corrected [");
    ("device_ecc_errors_L1_CACHE_VOLATILE_UNCORRECTED_", "L1 Cache Volatile Uncorrected [");
    ("device_ecc_errors_L1_CACHE_AGGREGATE_CORRECTED_", "L1 Cache Aggregate Corrected [");
    ("device_ecc_errors_L1_CACHE_AGGREGATE_UNCORRECTED_", "L1 Cache Aggregate Uncorrected [");
    ("device_ecc_errors_L2_CACHE_VOLATILE_CORRECTED_", "L2 Cache Volatile Corrected [");
    ("device_ecc_errors_L2_CACHE_VOLATILE_UNCORRECTED_", "L2 Cache Volatile Uncorrected [");
    ("device_ecc_errors_L2_CACHE_AGGREGATE_CORRECTED_", "L2 Cache Aggregate Corrected [");
    ("device_ecc_errors_L2_CACHE_AGGREGATE_UNCORRECTED_", "L2 Cache Aggregate Uncorrected [");
    ("device_ecc_errors_DEVICE_MEMORY_VOLATILE_CORRECTED_", "Device Memory Volatile Corrected [");
    ("device_ecc_errors_DEVICE_MEMORY_VOLATILE_UNCORRECTED_", "Device Memory Volatile Uncorrected [");
    ("device_ecc_errors_DEVICE_MEMORY_AGGREGATE_CORRECTED_", "Device Memory Aggregate Corrected [");
    ("device_ecc_errors_DEVICE_MEMORY_AGGREGATE_UNCORRECTED_", "Device Memory Aggregate Uncorrected [");
    ("device_ecc_errors_REGISTER_FILE_VOLATILE_CORRECTED_", "Register File Volatile Corrected [");
    ("device_ecc_errors_REGISTER_FILE_VOLATILE_UNCORRECTED_", "Register File Volatile Uncorrected [");
    ("device_ecc_errors_REGISTER_FILE_AGGREGATE_CORRECTED_", "Register File Aggregate Corrected [");
    ("device_ecc_errors_REGISTER_FILE_AGGREGATE_UNCORRECTED_", "Register File Aggregate Uncorrected [");
    ("device_ecc_errors_TEXTURE_MEMORY_VOLATILE_CORRECTED_", "Texture Memory Volatile Corrected [");
    ("device_ecc_errors_TEXTURE_MEMORY_VOLATILE_UNCORRECTED_", "Texture Memory Volatile Uncorrected [");
    ("device_ecc_errors_TEXTURE_MEMORY_AGGREGATE_CORRECTED_", "Texture Memory Aggregate Corrected [");
    ("device_ecc_errors_TEXTURE_MEMORY_AGGREGATE_UNCORRECTED_", "Texture Memory Aggregate Uncorrected [") ].

Fixpoint append_lines (chart : string) (ls : list (list value)) : M unit :=
  match ls with
  | [] => mret tt
  | l :: ls => _ ← append_line chart l; append_lines chart ls
  end.

(** Lines 178-228: the lines of device [i]. *)
Definition check_device (data : gmap string value) (i : nat) : M unit :=
  let gpuIdx := str i in
  _ ← if_present data ("device_mem_used_" +:+ str i)
        (append_line "memory"
           (line "device_mem_used_" "GPU:" "" i [VInt 1; VInt (1024 ^ 2)]));
  _ ← if_present data ("device_util_gpu_" +:+ gpuIdx)
        (_ ← append_line "utilization" (line "device_util_gpu_" "GPU:" "" i []);
         append_line "memoryutilization" (line "device_util_mem_" "GPU:" "" i []));
  _ ← if_present data ("device_util_pcie_tx_" +:+ gpuIdx)
        (_ ← append_line "pcie"
               (line "device_util_pcie_tx_" "tx [" "]" i [VInt 1; VInt 1]);
         append_line "pcie"
               (line "device_util_pcie_rx_" "rx [" "]" i [VInt 1; VInt (-1)]));
  _ ← if_present data ("device_ecc_errors_L1_CACHE_VOLATILE_CORRECTED_" +:+ gpuIdx)
        (append_lines "ecc_errors"
           ((λ kl, line kl.1 kl.2 "]" i []) <$> ecc_lines));
  _ ← if_present data ("device_temp_" +:+ gpuIdx)
        (append_line "temperature" (line "device_temp_" "GPU:" "" i []));
  _ ← if_present data ("device_fanspeed_" +:+ gpuIdx)
        (append_line "fan" (line "device_fanspeed_" "GPU:" "" i []));
  if_present data ("device_power_" +:+ gpuIdx)
        (append_line "power" (line "device_power_" "GPU:" "" i [VInt 1; VInt 1000])).

Definition unit_fan (i : nat) : Chart :=
  {| options := {| opt_name := VNone; opt_title := "Unit fan";
                   opt_units := "rpm"; opt_family := "Unit Fans";
                   opt_context := "nv.unit"; opt_type := "line" |};
     lines := [line "unit_fan_speed_" "Unit" "" i []] |}.

Definition unit_psu (i : nat) : Chart :=
  {| options := {| opt_name := VNone; opt_title := "Unit PSU";
                   opt_units := "mixed"; opt_family := "Unit PSU";
                   opt_context := "nv.unit"; opt_type := "line" |};
     lines := [line "unit_psu_current_" "current (A) (unit " ")" i [];
               line "unit_psu_power_" "power (W) (unit " ")" i [];
               line "unit_psu_voltage_" "voltage (V) (unit " ")" i []] |}.

(** Lines 235-250: the lines and charts of unit [i]. *)
Definition check_unit (data : gmap string value) (i : nat) : M unit :=
  let gpuIdx := str i in
  _ ← if_present data ("unit_temp_intake_" +:+ gpuIdx)
        (_ ← append_line "temperature"
               (line "unit_temp_intake_" "intake (unit " ")" i []);
         _ ← append_line "temperature"
               (line "unit_temp_exhaust_" "exhaust (unit " ")" i []);
         append_line "temperature"
               (line "unit_temp_board_" "board (unit " ")" i []));
  _ ← if_present data ("unit_fan_speed_" +:+ gpuIdx)
        (set_chart "unit_fan" (unit_fan i));
  if_present data ("unit_psu_current_" +:+ gpuIdx)
        (set_chart "unit_psu" (unit_psu i)).

(** Lines 167-251: the schema from the snapshot [data]. *)
Definition build_schema (data : gmap string value) : M bool := λ self,
  (name ← lift (card_names data (deviceCount self));
   _ ← retitle_all name;
   _ ← for_eachM (range (deviceCount self)) (check_device data);
   _ ← (if negb (unitCount self =? 0)
        then (_ ← order_append "unit_fan";
              _ ← order_append "unit_psu";
              for_eachM (range (unitCount self)) (check_unit data))
        else mret tt);
   mret true) self.

Definition set_unitCount (u : nat) (self : Service) : Service :=
  set_counts u (deviceCount self) self.
Definition set_deviceCount (d : nat) (self : Service) : Service :=
  set_counts (unitCount self) d self.

(** Lines 124-166 of [check]: the configuration, the library handshake, the
    counts and the snapshot; [None] stands for [return False]. *)
Definition check_probe (w : World) : M (option (gmap string value)) := λ self,
  (* legacy mode *)
  let self :=
    set_legacy (match configuration self !! "legacy" with
                | Some v => if decide (v = VStr "") then VBool false else v
                | None => VBool false
                end) self in
  (* nvMemFactor *)
  let self :=
    set_nvMemFactor (match configuration self !! "nvMemFactor" with
                     | Some v => default 1%Z (catch (int_value w v))
                     | None => 1%Z
                     end) self in
  (* Initialize NVML *)
  match (_ ← nvmlInit w; nvmlSystemGetDriverVersion w) with
  | Raise _ => (self, _ ← nvmlShutdown w; Ok None)
  | Ok _ =>
      (* Get number of graphic cards *)
      match nvmlUnitGetCount w with
      | Raise _ => (self, _ ← nvmlShutdown w; Ok None)
      | Ok u =>
          let self := set_unitCount u self in
          match nvmlDeviceGetCount w with
          | Raise _ => (self, _ ← nvmlShutdown w; Ok None)
          | Ok d =>
              let self := set_deviceCount d self in
              match _get_data w self with
              | (self, Raise e) => (self, Raise e)
              | (self, Ok data) => (self, Ok (Some data))
              end
          end
      end
  end.

(** [check] (lines 123-251). *)
Definition check (w : World) : M bool :=
  probe ← check_probe w;
  match probe with
  | None => mret false
  | Some data => build_schema data
  end.

(** The schema that the framework reads after [check]: the chart order and
    the chart definitions. *)
Definition Schema (self : Service) : list string * gmap string Chart :=
  (order self, definitions self).

(** * Auxiliary definitions *)

Definition device_slots : list string :=
  ["device_name_"; "device_temp_"; "device_mem_total_"; "device_mem_used_";
   "device_mem_free_"; "device_util_gpu_"; "device_util_mem_";
   "device_util_pcie_tx_"; "device_util_pcie_rx_"; "device_fanspeed_";
   "device_power_"].

Definition unit_slots : list string :=
  ["unit_fan_speed_"; "unit_fan_state_"; "unit_psu_current_"; "unit_psu_power_";
   "unit_psu_state_"; "unit_psu_voltage_"; "unit_temp_intake_";
   "unit_temp_exhaust_"; "unit_temp_board_"].

Definition legacy_slots : list string :=
  ["device_temp_"; "device_mem_used_"; "device_util_gpu_"; "device_util_mem_"].

Definition ecc_first : string := "device_ecc_errors_L1_CACHE_VOLATILE_CORRECTED_".

Definition slot_keys (slots : list string) (i : nat) : gset string :=
  list_to_set ((λ p, p +:+ str i) <$> slots).

Definition ecc_ok (w : World) (i : nat) : bool :=
  match nvmlDeviceGetHandleByIndex w i with
  | Ok h => match ecc_matrix w h with Ok _ => true | Raise _ => false end
  | Raise _ => false
  end.

Definition device_keys (w : World) (i : nat) : gset string :=
  slot_keys device_slots i ∪
  (if ecc_ok w i then slot_keys ecc_slots.*1 i else {[ecc_first +:+ str i]}).

Definition snapshot_keys (w : World) (self : Service) : gset string :=
  ⋃ (device_keys w <$> range (deviceCount self)) ∪
  ⋃ (slot_keys unit_slots <$> range (unitCount self)).

(** Two prefixes that differ at a position both of them have. *)
Fixpoint differ (p q : string) : bool :=
  match p, q with
  | String a p, String b q => if Ascii.eqb a b then differ p q else true
  | _, _ => false
  end.

Definition all_slots : list string := device_slots ++ ecc_slots.*1 ++ unit_slots.

(** What the loops leave behind: one [_memError], stored under both counter
    types of the one [_eccCounter], stored under all five locations. *)
Definition ecc_final (vc vu : Z) : heap * value :=
  ([ <["ERROR_TYPE_UNCORRECTED" := VInt vu]> (<["ERROR_TYPE_CORRECTED" := VInt vc]> ∅);
     <["AGGREGATE_ECC" := VRef 0]> (<["VOLATILE_ECC" := VRef 0]> ∅);
     <["TEXTURE_MEMORY" := VRef 1]> (<["REGISTER_FILE" := VRef 1]>
       (<["DEVICE_MEMORY" := VRef 1]> (<["L2_CACHE" := VRef 1]>
         (<["L1_CACHE" := VRef 1]> ∅)))) ], VRef 2).

(** The value that the entry for error class [err] holds in the end. *)
Definition ecc_value (vc vu : Z) (err : string) : value :=
  VInt (if String.eqb err "ERROR_TYPE_CORRECTED" then vc else vu).

(** [pack_ecc] on the final heap: twenty insertions. *)
Definition pack_final (vc vu : Z) (gpuIdx : string)
    (slots : list (string * (string * string * string)))
    (data : gmap string value) : gmap string value :=
  foldl (λ d s, <[s.1 +:+ gpuIdx := ecc_value vc vu s.2.2]> d) data slots.

(** The eleven assignments of lines 332-364, for a device whose memory query
    returned [mem]. *)
Definition device_base (w : World) (h : handle) (i : nat) (name : string)
    (mem : MemInfo) (data : gmap string value) : gmap string value :=
  let util := catch (nvmlDeviceGetUtilizationRates w h) in
  let pcie := catch (tx ← nvmlDeviceGetPcieThroughput w h 0;
                     rx ← nvmlDeviceGetPcieThroughput w h 1;
                     Ok (tx, rx)) in
  <["device_power_" +:+ str i := of_option (catch (nvmlDeviceGetPowerUsage w h))]> (
  <["device_fanspeed_" +:+ str i := of_option (catch (nvmlDeviceGetFanSpeed w h))]> (
  <["device_util_pcie_rx_" +:+ str i := of_option (snd <$> pcie)]> (
  <["device_util_pcie_tx_" +:+ str i := of_option (fst <$> pcie)]> (
  <["device_util_mem_" +:+ str i := of_option (util_memory <$> util)]> (
  <["device_util_gpu_" +:+ str i := of_option (util_gpu <$> util)]> (
  <["device_mem_free_" +:+ str i := VInt (mem_free mem)]> (
  <["device_mem_used_" +:+ str i := VInt (mem_used mem)]> (
  <["device_mem_total_" +:+ str i := VInt (mem_total mem)]> (
  <["device_temp_" +:+ str i := of_option (catch (nvmlDeviceGetTemperature w h))]> (
  <["device_name_" +:+ str i := VStr name]> data)))))))))).

(** ** Machines to run the plugin on *)

(** [int] on the strings that a group of digits can capture: a decimal
    number, and [ValueError] on the empty string. *)
Fixpoint digits (s : string) (acc : Z) : option Z :=
  match s with
  | EmptyString => Some acc
  | String c s =>
      let n := Ascii.nat_of_ascii c in
      if (48 <=? n) && (n <=? 57)
      then digits s (10 * acc + Z.of_nat (n - 48))
      else None
  end.

Definition int_digits (s : string) : Result Z :=
  match s with
  | EmptyString => Raise ValueError
  | _ => match digits s 0 with Some z => Ok z | None => Raise ValueError end
  end.

(** [n] times the letter x. *)
Fixpoint xs (n : nat) : string :=
  match n with 0 => EmptyString | S n => "x" +:+ xs n end.

(** A machine with [nd] cards named Tesla K80 and [nu] units; the arguments
    are the answers that differ between the machines below. *)
Definition machine (nu nd : nat) (mem : Result MemInfo)
    (ecc : nat → nat → nat → Result Z) (temp : Result Z)
    (fan : Result FanInfo) (psu : Result PsuInfo)
    (popen : Result (string * string))
    (matches : list (list string)) : World :=
  {| nvmlInit := Ok tt;
     nvmlShutdown := Ok tt;
     nvmlSystemGetDriverVersion := Ok "390.25";
     nvmlUnitGetCount := Ok nu;
     nvmlDeviceGetCount := Ok nd;
     nvmlDeviceGetHandleByIndex := λ i, Ok i;
     nvmlDeviceGetName := λ _, Ok "Tesla K80";
     nvmlDeviceGetBrand := λ _, Ok 2;
     nvmlDeviceGetMemoryInfo := λ _, mem;
     nvmlDeviceGetMemoryErrorCounter := λ _, ecc;
     nvmlDeviceGetTemperature := λ _, temp;
     nvmlDeviceGetFanSpeed := λ _, Ok 30%Z;
     nvmlDeviceGetPowerUsage := λ _, Ok 90000%Z;
     nvmlDeviceGetUtilizationRates := λ _,
       Ok {| util_gpu := 11; util_memory := 22 |};
     nvmlDeviceGetPcieThroughput := λ _ c, Ok (Z.of_nat c + 5)%Z;
     nvmlUnitGetHandleByIndex := λ i, Ok i;
     nvmlUnitGetFanSpeedInfo := λ _, fan;
     nvmlUnitGetPsuInfo := λ _, psu;
     nvmlUnitGetTemperature := λ _ _, Raise NVMLError;
     Popen_communicate := popen;
     repr_str := λ s, s;
     findall := λ _ _, matches;
     int := int_digits |}.

Definition mem_ok : MemInfo :=
  {| mem_total := 12000; mem_used := 4000; mem_free := 8000 |}.

(** A counter that tells its three arguments apart. *)
Definition ecc_distinct (memError eccCounter memoryLocation : nat) : Result Z :=
  Ok (Z.of_nat (memoryLocation * 4 + eccCounter * 2 + memError)).

Definition psu_ok : PsuInfo :=
  {| psu_current := 3; psu_power := 36; psu_state := VStr "Normal";
     psu_voltage := 12 |}.

(** One card, every query answers, no [nvidia-settings]. *)
Definition machine_ok : World :=
  machine 0 1 (Ok mem_ok) ecc_distinct (Ok 50%Z) (Raise NVMLError)
    (Raise NVMLError) (Raise OSError) [].

(** The same card without memory information. *)
Definition machine_no_mem : World :=
  machine 0 1 (Raise NVMLError) ecc_distinct (Ok 50%Z) (Raise NVMLError)
    (Raise NVMLError) (Raise OSError) [].

(** The same card without ECC counters. *)
Definition machine_no_ecc : World :=
  machine 0 1 (Ok mem_ok) (λ _ _ _, Raise NVMLError) (Ok 50%Z)
    (Raise NVMLError) (Raise NVMLError) (Raise OSError) [].

(** A card without temperature, and an [nvidia-settings] whose report is
    long enough and has none of the patterns. *)
Definition machine_no_match : World :=
  machine 0 1 (Ok mem_ok) ecc_distinct (Raise NVMLError) (Raise NVMLError)
    (Raise NVMLError) (Ok (xs 800, EmptyString)) [].

(** A card without temperature, and an [nvidia-settings] whose report is
    too short. *)
Definition machine_short : World :=
  machine 0 1 (Ok mem_ok) ecc_distinct (Raise NVMLError) (Raise NVMLError)
    (Raise NVMLError) (Ok (xs 20, EmptyString)) [].

(** A card without temperature, and an [nvidia-settings] that reports one
    card with an empty temperature and 77 and 88 elsewhere. *)
Definition machine_legacy : World :=
  machine 0 1 (Ok mem_ok) ecc_distinct (Raise NVMLError) (Raise NVMLError)
    (Raise NVMLError) (Ok (xs 800, EmptyString)) [["gpu:0"; "77"; "88"]].

(** [repr(str(output))] under Python 3, where [output] is a bytes object
    of printable characters without quotes and backslashes: the text between
    [b'] and ['], in double quotes, five characters more than were
    captured. *)
Definition repr_of_bytes (s : string) : string :=
  String (Ascii.ascii_of_nat 34)
    ("b'" +:+ s +:+ "'" +:+ String (Ascii.ascii_of_nat 34) EmptyString).

(** The machine [w] under an interpreter whose [repr(str(output))] is
    [f]. *)
Definition with_repr (f : string → string) (w : World) : World :=
  {| nvmlInit := nvmlInit w;
     nvmlShutdown := nvmlShutdown w;
     nvmlSystemGetDriverVersion := nvmlSystemGetDriverVersion w;
     nvmlUnitGetCount := nvmlUnitGetCount w;
     nvmlDeviceGetCount := nvmlDeviceGetCount w;
     nvmlDeviceGetHandleByIndex := nvmlDeviceGetHandleByIndex w;
     nvmlDeviceGetName := nvmlDeviceGetName w;
     nvmlDeviceGetBrand := nvmlDeviceGetBrand w;
     nvmlDeviceGetMemoryInfo := nvmlDeviceGetMemoryInfo w;
     nvmlDeviceGetMemoryErrorCounter := nvmlDeviceGetMemoryErrorCounter w;
     nvmlDeviceGetTemperature := nvmlDeviceGetTemperature w;
     nvmlDeviceGetFanSpeed := nvmlDeviceGetFanSpeed w;
     nvmlDeviceGetPowerUsage := nvmlDeviceGetPowerUsage w;
     nvmlDeviceGetUtilizationRates := nvmlDeviceGetUtilizationRates w;
     nvmlDeviceGetPcieThroughput := nvmlDeviceGetPcieThroughput w;
     nvmlUnitGetHandleByIndex := nvmlUnitGetHandleByIndex w;
     nvmlUnitGetFanSpeedInfo := nvmlUnitGetFanSpeedInfo w;
     nvmlUnitGetPsuInfo := nvmlUnitGetPsuInfo w;
     nvmlUnitGetTemperature := nvmlUnitGetTemperature w;
     Popen_communicate := Popen_communicate w;
     repr_str := f;
     findall := findall w;
     int := int w |}.

(** A card without temperature under Python 3, and an [nvidia-settings]
    that prints 795 characters and reports 77 and 88 for the card. *)
Definition machine_py3 : World :=
  with_repr repr_of_bytes
    (machine 0 1 (Ok mem_ok) ecc_distinct (Raise NVMLError) (Raise NVMLError)
       (Raise NVMLError) (Ok (xs 795, EmptyString)) [["gpu:0"; "77"; "88"]]).

(** One card and two units that report fan and power supply. *)
Definition machine_units : World :=
  machine 2 1 (Ok mem_ok) ecc_distinct (Ok 50%Z)
    (Ok {| fan_speed := 2400; fan_state := 0 |}) (Ok psu_ok) (Raise OSError) [].

(** [self] after [__init__] on the module as loaded, and once the counts of
    a machine with one card are known. *)
Definition fresh (conf : gmap string value) : Service :=
  __init__ conf ORDER CHARTS.

Definition one_card (legacy_mode : bool) : Service :=
  set_legacy (VBool legacy_mode) (set_counts 0 1 (fresh ∅)).

(** The entry under [k] of the snapshot that a call of [_get_data] returned:
    [Ok None] when the call returned a snapshot without the key. *)
Definition entry (r : Service * Result (gmap string value)) (k : string)
  : Result (option value) :=
  data ← r.2; Ok (data !! k).

(** Whether a call returned. *)
Definition returned {A} (r : Result A) : bool :=
  match r with Ok _ => true | Raise _ => false end.

(** The snapshot that a call returned, empty if it raised. *)
Definition snapshot_of (r : Service * Result (gmap string value))
  : gmap string value :=
  default ∅ (catch r.2).

(** A reference to a dictionary: the one nested structure among the
    values. *)
Definition nested (v : value) : bool :=
  match v with VRef _ => true | _ => false end.

(** What a snapshot may hold under a key: a number or [None]; the name of a
    card, a string, under its [device_name_] key; and under the
    [unit_psu_state_] key of a unit the [state] of the answer that the
    library gave to the power supply query of that unit, as it is (line
    410). *)
Definition snapshot_value (w : World) (self : Service) (k : string)
    (v : value) : Prop :=
  numeric_or_None v = true ∨
  (∃ i s, i < deviceCount self ∧ k = "device_name_" +:+ str i ∧ v = VStr s) ∨
  (∃ i h psu, i < unitCount self ∧ k = "unit_psu_state_" +:+ str i ∧
              nvmlUnitGetHandleByIndex w i = Ok h ∧
              nvmlUnitGetPsuInfo w h = Ok psu ∧ v = psu_state psu).

(** ** The legacy pass *)

(** [data'] is [data] except that entries under keys of [K] that were [None]
    may hold a number. *)
Definition fills (K : string → Prop) (data data' : gmap string value) : Prop :=
  ∀ k, data' !! k = data !! k ∨
       (K k ∧ data !! k = Some VNone ∧ ∃ z, data' !! k = Some (VInt z)).

(** The keys of the four fields that legacy mode recovers, for any card. *)
Definition legacy_key (n : nat) (k : string) : Prop :=
  ∃ i, i < n ∧ k ∈ slot_keys legacy_slots i.

(** The state after the collection cycles on the machines [ws], in order. *)
Definition cycles (ws : list World) (self : Service) : Service :=
  foldl (λ s w, (_get_data w s).1) self ws.

(** A snapshot of one card whose temperature is known and whose three other
    recoverable fields are not, and what the legacy loop makes of it on
    [machine_legacy]. *)
Definition snapshot_partial : gmap string value :=
  <["device_temp_0" := VInt 50]> (<["device_mem_used_0" := VNone]> (
  <["device_util_gpu_0" := VNone]> (<["device_util_mem_0" := VNone]> ∅))).

Definition snapshot_filled : gmap string value :=
  <["device_temp_0" := VInt 50]> (<["device_mem_used_0" := VInt 77]> (
  <["device_util_gpu_0" := VInt 77]> (<["device_util_mem_0" := VInt 88]> ∅))).

(** ** The schema that [check] builds *)

(** [data[k] is not None], for a key that is there. *)
Definition present (data : gmap string value) (k : string) : bool :=
  match data !! k with Some v => negb (is_None v) | None => false end.

(** A chart with the lines [ls] appended. *)
Definition add_lines (ls : list (list value)) (c : Chart) : Chart :=
  {| options := options c; lines := lines c ++ ls |}.

(** The two charts that [check] assigns, where it appends to the others. *)
Definition unit_chart (c : string) : Prop := c = "unit_fan" ∨ c = "unit_psu".

(** The lines [ls] for the chart [chart], none for another chart [c]. *)
Definition one (chart : string) (ls : list (list value)) (c : string)
  : list (list value) :=
  if decide (c = chart) then ls else [].

(** The lines [f c] where [data[k]] is not [None]. *)
Definition guarded (data : gmap string value) (k : string)
    (f : string → list (list value)) (c : string) : list (list value) :=
  if present data k then f c else [].

(** The twenty ECC lines of device [i]. *)
Definition ecc_group (i : nat) : list (list value) :=
  (λ kl, line kl.1 kl.2 "]" i []) <$> ecc_lines.

(** The lines that device [i] contributes to the chart [c] (lines 178-228). *)
Definition device_lines (data : gmap string value) (i : nat) (c : string)
  : list (list value) :=
  guarded data ("device_mem_used_" +:+ str i)
    (one "memory" [line "device_mem_used_" "GPU:" "" i [VInt 1; VInt (1024 ^ 2)]]) c ++
  guarded data ("device_util_gpu_" +:+ str i)
    (λ c, one "utilization" [line "device_util_gpu_" "GPU:" "" i []] c ++
          one "memoryutilization" [line "device_util_mem_" "GPU:" "" i []] c) c ++
  guarded data ("device_util_pcie_tx_" +:+ str i)
    (λ c, one "pcie" [line "device_util_pcie_tx_" "tx [" "]" i [VInt 1; VInt 1]] c ++
          one "pcie" [line "device_util_pcie_rx_" "rx [" "]" i [VInt 1; VInt (-1)]] c) c ++
  guarded data (ecc_first +:+ str i) (one "ecc_errors" (ecc_group i)) c ++
  guarded data ("device_temp_" +:+ str i)
    (one "temperature" [line "device_temp_" "GPU:" "" i []]) c ++
  guarded data ("device_fanspeed_" +:+ str i)
    (one "fan" [line "device_fanspeed_" "GPU:" "" i []]) c ++
  guarded data ("device_power_" +:+ str i)
    (one "power" [line "device_power_" "GPU:" "" i [VInt 1; VInt 1000]]) c.

(** The lines that unit [i] contributes to the chart [c] (lines 236-239). *)
Definition unit_lines (data : gmap string value) (i : nat) (c : string)
  : list (list value) :=
  guarded data ("unit_temp_intake_" +:+ str i)
    (one "temperature"
       [line "unit_temp_intake_" "intake (unit " ")" i [];
        line "unit_temp_exhaust_" "exhaust (unit " ")" i [];
        line "unit_temp_board_" "board (unit " ")" i []]) c.

(** The lines that a run of [check] appends to the chart [c]: those of the
    devices in order, then those of the units in order. *)
Definition schema_lines (data : gmap string value) (nd nu : nat) (c : string)
  : list (list value) :=
  concat ((λ i, device_lines data i c) <$> range nd) ++
  concat ((λ i, unit_lines data i c) <$> range nu).

(** What a run of [check] appends to the chart order. *)
Definition unit_order (nu : nat) : list string :=
  if nu =? 0 then [] else ["unit_fan"; "unit_psu"].

(** The highest unit below [n] whose entry under [key] is not [None]. *)
Fixpoint last_reporting (data : gmap string value) (key : string) (n : nat)
  : option nat :=
  match n with
  | 0 => None
  | S n =>
      if present data (key +:+ str n) then Some n
      else last_reporting data key n
  end.

(** What a monadic step of the schema builder does to [self]: it changes
    the chart definitions only, keeps the charts that are there, appends the
    lines [f c] to every chart [c] outside [U], the charts that it may
    assign, and on a [self] with at least the same charts it runs through
    as well. *)
Definition appends (U : string → Prop) (m : M unit)
    (f : string → list (list value)) : Prop :=
  ∀ s s', m s = (s', Ok tt) →
    s' = set_definitions (definitions s') s ∧
    dom (definitions s) ⊆ dom (definitions s') ∧
    (∀ c, ¬ U c →
       definitions s' !! c = add_lines (f c) <$> definitions s !! c) ∧
    (∀ t, dom (definitions s) ⊆ dom (definitions t) →
       ∃ t', m t = (t', Ok tt) ∧
             dom (definitions s') ⊆ dom (definitions t')).

(** [t] with the chart order and the chart definitions of [s]: a service
    that shares the module's [ORDER] and [CHARTS] as [s] has them. *)
Definition with_schema (s t : Service) : Service :=
  set_definitions (definitions s) (set_order (order s) t).

(** A chart after a run of [check] that found the names [name] and the
    lines [ls] for it. *)
Definition chart_after (name : string) (ls : list (list value)) (c : Chart)
  : Chart :=
  add_lines ls (retitle name c).

(** The chart under a unit chart's name after the loop over [n] units: the
    chart [mk j] of the last unit [j] that reports under [key], and the
    chart [before] where no unit does. *)
Definition unit_chart_after (data : gmap string value) (key : string)
    (mk : nat → Chart) (n : nat) (before : option Chart) : option Chart :=
  match last_reporting data key n with
  | Some j => Some (mk j)
  | None => before
  end.

(** No chart: the device loop assigns none. *)
Definition no_chart (c : string) : Prop := False.

(** [self] after a run of [check] on the machine [w]. *)
Definition checked (w : World) (self : Service) : Service := (check w self).1.

(** The state in which [check] calls [_get_data]. *)
Definition probed (w : World) (u d : nat) (self : Service) : Service :=
  set_deviceCount d (set_unitCount u (
    set_nvMemFactor (match configuration self !! "nvMemFactor" with
                     | Some v => default 1%Z (catch (int_value w v))
                     | None => 1%Z
                     end) (
    set_legacy (match configuration self !! "legacy" with
                | Some v => if decide (v = VStr "") then VBool false else v
                | None => VBool false
                end) self))).

(** A second service in the same process: [__init__] hands it the module's
    [ORDER] and [CHARTS], which are the objects that [s] holds. *)
Definition second_service (conf : gmap string value) (s : Service) : Service :=
  __init__ conf (order s) (definitions s).

(** Two runs of [check] on a machine with one card and two units: that of a
    first service, and that of a second one. *)
Definition first_run : Service := checked machine_units (fresh ∅).
Definition second_run : Service :=
  checked machine_units (second_service ∅ first_run).

(** ** What the collector needs and what it stores *)

(** The twenty counter queries of the ECC loops, in the order of the
    calls. *)
Definition ecc_queries (w : World) (h : handle) : list (Result Z) :=
  memoryLocation ← range 5; eccCounter ← range 2; memError ← range 2;
  [nvmlDeviceGetMemoryErrorCounter w h memError eccCounter memoryLocation].

(** The queries of device [i] that no [try] guards answer, the brand is one
    of the seven that the plugin knows, and the memory query, whose answer
    is read without a test, answers too. *)
Definition device_answers (w : World) (i : nat) : bool :=
  match nvmlDeviceGetHandleByIndex w i with
  | Ok h =>
      returned (nvmlDeviceGetName w h) &&
      match nvmlDeviceGetBrand w h with
      | Ok brand => brand <? length brands
      | Raise _ => false
      end &&
      returned (nvmlDeviceGetMemoryInfo w h)
  | Raise _ => false
  end.

(** The three temperatures of a unit, as the [try] of lines 419-427 leaves
    them: all three, or none when one query fails. *)
Definition unit_temperatures (w : World) (h : handle) : option (Z * Z * Z) :=
  catch (temp_intake ← nvmlUnitGetTemperature w h 0;
         temp_exhaust ← nvmlUnitGetTemperature w h 1;
         temp_board ← nvmlUnitGetTemperature w h 2;
         Ok (temp_intake, temp_exhaust, temp_board)).

(** The two PCIe throughputs of a device, as the [try] of lines 322-328
    leaves them: both, or none when one query fails. *)
Definition pcie_throughput (w : World) (h : handle) : option (Z * Z) :=
  catch (tx ← nvmlDeviceGetPcieThroughput w h 0;
         rx ← nvmlDeviceGetPcieThroughput w h 1;
         Ok (tx, rx)).

(** An entry that legacy mode can recover: it holds what the library gave,
    and a number instead where the library gave nothing and legacy mode is
    on ([o] is the entry, [v] what the library gave). *)
Definition recovered (legacy_mode : bool) (v : value) (o : option value)
  : Prop :=
  o = Some v ∨ (legacy_mode = true ∧ v = VNone ∧ ∃ z, o = Some (VInt z)).

(** ** Legacy mode *)

(** The report of [nvidia-settings] cannot be had: the call raises, or
    [repr(str(output))] of what it printed, not the output itself, has
    fewer than 800 characters (lines 458-479). *)
Definition fetch_fails (w : World) : bool :=
  match Popen_communicate w with
  | Ok (output, _) => String.length (repr_str w output) <? 800
  | Raise _ => true
  end.

(** The four fields of the legacy loop (lines 482-509): the key without the
    device index, the pattern and the group that is read. *)
Definition legacy_patterns : list (string * (string * nat)) :=
  [ ("device_temp_", ("GPUCoreTemp.*?(gpu:\d*).*?\s(\d*)", 1));
    ("device_mem_used_", ("UsedDedicatedGPUMemory.*?(gpu:\d*).*?\s(\d*)", 1));
    ("device_util_gpu_", ("(gpu:\d*).*?graphics=(\d*),.*?memory=(\d*)", 1));
    ("device_util_mem_", ("(gpu:\d*).*?graphics=(\d*),.*?memory=(\d*)", 2)) ].

(** [findall(pattern, output)[i][group]], where there is one. *)
Definition capture (w : World) (output : string) (i : nat) (pattern : string)
    (group : nat) : option string :=
  findall w pattern output !! i ≫= λ m, m !! group.

(** What the [try] around [int] leaves in an entry that was [None]: the
    number, or [None] again when the text is not one. *)
Definition recovered_from (w : World) (s : string) : value :=
  match int w s with Ok z => VInt z | Raise _ => VNone end.

(** ** [check] *)

(** The handshake of lines 145-163: the library is initialised and tells
    its driver version, the number of units and the number of devices;
    [None] when one of the four calls raises. *)
Definition handshake (w : World) : option (nat * nat) :=
  catch (_ ← nvmlInit w; _ ← nvmlSystemGetDriverVersion w;
         u ← nvmlUnitGetCount w; d ← nvmlDeviceGetCount w; Ok (u, d)).

(** A step of the schema builder that runs through on every [self] that
    has the charts [C], and leaves them there. *)
Definition runs (C : gset string) (m : M unit) : Prop :=
  ∀ s, C ⊆ dom (definitions s) →
       ∃ s', m s = (s', Ok tt) ∧ C ⊆ dom (definitions s').

(** A machine without the library: nothing can be initialised, and
    [nvmlShutdown] raises as well. *)
Definition machine_down : World :=
  {| nvmlInit := Raise NVMLError;
     nvmlShutdown := Raise NVMLError;
     nvmlSystemGetDriverVersion := Raise NVMLError;
     nvmlUnitGetCount := Raise NVMLError;
     nvmlDeviceGetCount := Raise NVMLError;
     nvmlDeviceGetHandleByIndex := λ _, Raise NVMLError;
     nvmlDeviceGetName := λ _, Raise NVMLError;
     nvmlDeviceGetBrand := λ _, Raise NVMLError;
     nvmlDeviceGetMemoryInfo := λ _, Raise NVMLError;
     nvmlDeviceGetMemoryErrorCounter := λ _ _ _ _, Raise NVMLError;
     nvmlDeviceGetTemperature := λ _, Raise NVMLError;
     nvmlDeviceGetFanSpeed := λ _, Raise NVMLError;
     nvmlDeviceGetPowerUsage := λ _, Raise NVMLError;
     nvmlDeviceGetUtilizationRates := λ _, Raise NVMLError;
     nvmlDeviceGetPcieThroughput := λ _ _, Raise NVMLError;
     nvmlUnitGetHandleByIndex := λ _, Raise NVMLError;
     nvmlUnitGetFanSpeedInfo := λ _, Raise NVMLError;
     nvmlUnitGetPsuInfo := λ _, Raise NVMLError;
     nvmlUnitGetTemperature := λ _ _, Raise NVMLError;
     Popen_communicate := Raise OSError;
     repr_str := λ s, s;
     findall := λ _ _, [];
     int := int_digits |}.

(** The key of a chart line: its first element. *)
Definition line_key (l : list value) : option string :=
  match l with VStr k :: _ => Some k | _ => None end.

(** What the title shows for card [i]: its name and its index in square
    brackets (lines 170 and 172). *)
Definition card_label (data : gmap string value) (i : nat) : string :=
  str_value (default VNone (data !! ("device_name_" +:+ str i)))
  +:+ " [" +:+ str i +:+ "]".

(** A machine on which the library runs and finds neither cards nor
    units. *)
Definition machine_empty : World :=
  machine 0 0 (Raise NVMLError) (λ _ _ _, Raise NVMLError) (Raise NVMLError)
    (Raise NVMLError) (Raise NVMLError) (Raise OSError) [].

(** ** What the plugin reads of [self] *)

(** Two services with the same attributes but [configuration] and
    [nvMemFactor]. *)
Definition same_view (s t : Service) : Prop :=
  legacy s = legacy t ∧ unitCount s = unitCount t ∧
  deviceCount s = deviceCount t ∧ order s = order t ∧
  definitions s = definitions t.

(** A step that does the same on two such services. *)
Definition blind {A} (m : M A) : Prop :=
  ∀ s t, same_view s t → (m s).2 = (m t).2 ∧ same_view (m s).1 (m t).1.

(** One card and two units that report neither fan nor power supply. *)
Definition machine_silent_units : World :=
  machine 2 1 (Ok mem_ok) ecc_distinct (Ok 50%Z) (Raise NVMLError)
    (Raise NVMLError) (Raise OSError) [].

(** ** The keys of a snapshot *)

Lemma differ_app p q s t : differ p q = true → p +:+ s ≠ q +:+ t.
Proof.
  revert q. induction p as [|a p IH]; intros [|b q]; simpl; try discriminate.
  destruct (Ascii.eqb_spec a b) as [->|Hab].
  - intros Hd [= Heq]. by eapply IH.
  - by intros _ [= ? ?].
Qed.

Lemma all_slots_differ :
  forallb (λ p, forallb (λ q, String.eqb p q || differ p q) all_slots) all_slots = true.
Proof. vm_compute. reflexivity. Qed.

Lemma str_inj i j : str i = str j → i = j.
Proof. apply (inj pretty). Qed.

Lemma string_app_inv_head (p s t : string) : p +:+ s = p +:+ t → s = t.
Proof. induction p; simpl; [done|]. intros [= H]. auto. Qed.

Lemma key_eq p q i j :
  p ∈ all_slots → q ∈ all_slots → p +:+ str i = q +:+ str j → p = q ∧ i = j.
Proof.
  intros Hp Hq Heq.
  pose proof all_slots_differ as H.
  rewrite forallb_forall in H. apply list_elem_of_In in Hp, Hq.
  specialize (H p Hp). rewrite forallb_forall in H. specialize (H q Hq).
  apply orb_true_iff in H as [H|H].
  - apply String.eqb_eq in H as ->. split; [done|].
    by apply str_inj, (string_app_inv_head q).
  - by apply differ_app with (s := str i) (t := str j) in H.
Qed.

Lemma elem_of_slot_keys k slots i :
  k ∈ slot_keys slots i ↔ ∃ p, p ∈ slots ∧ k = p +:+ str i.
Proof.
  unfold slot_keys. rewrite elem_of_list_to_set, list_elem_of_fmap. naive_solver.
Qed.

(** ** The error monad and the loops *)

Lemma bind_Ok {A B} (r : Result A) (f : A → Result B) b :
  (r ≫= f) = Ok b → ∃ a, r = Ok a ∧ f a = Ok b.
Proof. destruct r; simpl; [eauto|discriminate]. Qed.

Lemma for_each_app {A} l1 l2 (body : nat → A → Result A) a :
  for_each (l1 ++ l2) body a = for_each l1 body a ≫= for_each l2 body.
Proof.
  revert a. induction l1 as [|i l1 IH]; intros a; simpl; [done|].
  destruct (body i a); simpl; auto.
Qed.

Lemma range_S n : range (S n) = range n ++ [n].
Proof. unfold range. by rewrite seq_S. Qed.

Lemma elem_of_range i n : i ∈ range n ↔ i < n.
Proof. unfold range. rewrite elem_of_seq. lia. Qed.

(** A relation that every pass of the body respects holds across the loop. *)
Lemma for_each_rel {A} (R : A → A → Prop) l (body : nat → A → Result A) :
  (∀ a, R a a) → (∀ a b c, R a b → R b c → R a c) →
  (∀ i a a', i ∈ l → body i a = Ok a' → R a a') →
  ∀ a a', for_each l body a = Ok a' → R a a'.
Proof.
  intros Hrefl Htrans. induction l as [|i l IH]; intros Hbody a a' H; simpl in H.
  - injection H as <-. apply Hrefl.
  - apply bind_Ok in H as (a1 & H1 & H2).
    eapply Htrans; [eapply Hbody; [left|done]|].
    eapply IH; [|done]. intros. eapply Hbody; [by right|done].
Qed.

(** An exception in the body at one index is an exception of the loop. *)
Lemma for_each_raise {A} l (body : nat → A → Result A) i :
  i ∈ l → (∀ a, is_Raise (body i a)) → ∀ a, is_Raise (for_each l body a).
Proof.
  intros Hi Hraise. induction l as [|j l IH]; intros a; [by apply elem_of_nil in Hi|].
  simpl. destruct (decide (j = i)) as [->|Hne].
  - destruct (Hraise a) as [e ->]. by exists e.
  - destruct (body j a) as [a'|e]; simpl; [|by exists e].
    apply IH. apply elem_of_cons in Hi as [->|]; done.
Qed.


(** ** The ECC matrix *)

Lemma Ok_inj {A} (a b : A) : Ok a = Ok b → a = b.
Proof. by intros [= ->]. Qed.

Lemma ecc_matrix_Ok w h e :
  ecc_matrix w h = Ok e →
  ∃ vc vu, nvmlDeviceGetMemoryErrorCounter w h 0 1 4 = Ok vc ∧
           nvmlDeviceGetMemoryErrorCounter w h 1 1 4 = Ok vu ∧
           e = ecc_final vc vu.
Proof.
  unfold ecc_matrix. intros H.
  cbn -[setitem] in H.
  repeat (match type of H with
          | context [nvmlDeviceGetMemoryErrorCounter ?w ?h ?a ?b ?c] =>
              destruct (nvmlDeviceGetMemoryErrorCounter w h a b c) eqn:?;
              cbn -[setitem] in H; [|discriminate H]
          end).
  apply Ok_inj in H. subst e. eexists _, _. split; [reflexivity|].
  split; [reflexivity|]. vm_compute. reflexivity.
Qed.

Lemma ecc_entry_final vc vu :
  Forall (λ s, ecc_entry (ecc_final vc vu) s.2.1.1 s.2.1.2 s.2.2
               = Ok (ecc_value vc vu s.2.2)) ecc_slots.
Proof. repeat (constructor; [vm_compute; reflexivity|]). constructor. Qed.

Lemma pack_ecc_final vc vu g slots data :
  Forall (λ s, ecc_entry (ecc_final vc vu) s.2.1.1 s.2.1.2 s.2.2
               = Ok (ecc_value vc vu s.2.2)) slots →
  pack_ecc (ecc_final vc vu) g slots data = Ok (pack_final vc vu g slots data).
Proof.
  intros H. revert data. induction H as [|[key [[loc counter] err]] slots Hs _ IH];
    intros data; [done|].
  cbn [pack_ecc]. cbn [fst snd] in Hs. rewrite Hs. cbn [mbind Result_bind].
  rewrite IH. reflexivity.
Qed.

Lemma pack_final_dom vc vu g slots data :
  dom (pack_final vc vu g slots data)
  = dom data ∪ list_to_set ((λ p, p +:+ g) <$> slots.*1).
Proof.
  revert data. induction slots as [|s slots IH]; intros data; simpl.
  - set_solver.
  - unfold pack_final in *. rewrite IH, dom_insert_L. set_solver.
Qed.

Lemma pack_final_frame vc vu g slots data k :
  k ∉ (λ p, p +:+ g) <$> slots.*1 →
  pack_final vc vu g slots data !! k = data !! k.
Proof.
  revert data. induction slots as [|s slots IH]; intros data Hk; [done|].
  simpl in *. apply not_elem_of_cons in Hk as [Hne Hk].
  unfold pack_final in *. rewrite IH by done. by rewrite lookup_insert_ne.
Qed.

Lemma pack_final_Forall (P : string → value → Prop) vc vu g slots data :
  (∀ p err, P (p +:+ g) (ecc_value vc vu err)) →
  map_Forall P data → map_Forall P (pack_final vc vu g slots data).
Proof.
  intros HP. revert data. induction slots as [|s slots IH]; intros data Hd; [done|].
  apply IH. by apply map_Forall_insert_2.
Qed.

(** ** One device *)

(** What a pass over device [i] that returns has done. *)
Lemma device_pass_Ok w i data data' :
  device_pass w i data = Ok data' →
  ∃ h name mem,
    nvmlDeviceGetHandleByIndex w i = Ok h ∧
    nvmlDeviceGetName w h = Ok name ∧
    nvmlDeviceGetMemoryInfo w h = Ok mem ∧
    match ecc_matrix w h with
    | Ok _ =>
        ∃ vc vu, nvmlDeviceGetMemoryErrorCounter w h 0 1 4 = Ok vc ∧
                 nvmlDeviceGetMemoryErrorCounter w h 1 1 4 = Ok vu ∧
                 data' = pack_final vc vu (str i) ecc_slots
                           (device_base w h i name mem data)
    | Raise _ =>
        data' = <[ecc_first +:+ str i := VNone]> (device_base w h i name mem data)
    end.
Proof.
  unfold device_pass. intros H.
  apply bind_Ok in H as (h & Hh & H).
  apply bind_Ok in H as (name & Hname & H).
  apply bind_Ok in H as (brand & Hbrand & H).
  apply bind_Ok in H as (? & _ & H).
  destruct (nvmlDeviceGetMemoryInfo w h) as [mem|] eqn:Hmem; [|discriminate H].
  cbn [catch getattr mbind Result_bind] in H.
  exists h, name, mem. split; [exact Hh|]. split; [exact Hname|].
  split; [exact Hmem|]. unfold device_base, ecc_first.
  destruct (ecc_matrix w h) as [e|] eqn:Hecc; cbn [catch] in H.
  - apply ecc_matrix_Ok in Hecc as (vc & vu & Hc & Hu & ->).
    exists vc, vu. split; [exact Hc|]. split; [exact Hu|].
    rewrite (pack_ecc_final vc vu (str i) ecc_slots _ (ecc_entry_final vc vu)) in H.
    apply Ok_inj in H; subst data'. reflexivity.
  - apply Ok_inj in H; subst data'. reflexivity.
Qed.

Lemma device_base_dom w h i name mem data :
  dom (device_base w h i name mem data) = dom data ∪ slot_keys device_slots i.
Proof.
  unfold device_base, slot_keys, device_slots. rewrite !dom_insert_L.
  simpl. set_solver.
Qed.

Lemma device_base_frame w h i name mem data k :
  k ∉ slot_keys device_slots i →
  device_base w h i name mem data !! k = data !! k.
Proof.
  unfold device_base, slot_keys, device_slots. simpl. intros Hk.
  rewrite !not_elem_of_union, !not_elem_of_singleton in Hk.
  rewrite !lookup_insert_ne by naive_solver. done.
Qed.


(** ** The collector on the example machines *)

(** C1, on a card whose memory query fails while every other query answers:
    the failure is caught ([mem = None], line 270), and [mem.total] on line
    339 then raises out of [_get_data]; no snapshot is returned. *)
Theorem memory_failure_aborts_collection :
  nvmlDeviceGetMemoryInfo machine_no_mem 0 = Raise NVMLError ∧
  nvmlDeviceGetTemperature machine_no_mem 0 = Ok 50%Z ∧
  _get_data machine_no_mem (one_card false)
  = (one_card false, Raise AttributeError).
Proof. vm_compute. auto. Qed.

(** C3, on a card whose counter answers [4 * location + 2 * counter + error]:
    the entry of (L1 cache, volatile, corrected) holds 18, the counter of
    (texture memory, aggregate, corrected), where the library returned 0. *)
Theorem ecc_entries_are_the_last_counters :
  nvmlDeviceGetMemoryErrorCounter machine_ok 0 0 0 0 = Ok 0%Z ∧
  nvmlDeviceGetMemoryErrorCounter machine_ok 0 0 1 4 = Ok 18%Z ∧
  entry (_get_data machine_ok (one_card false))
    "device_ecc_errors_L1_CACHE_VOLATILE_CORRECTED_0" = Ok (Some (VInt 18)) ∧
  entry (_get_data machine_ok (one_card false))
    "device_ecc_errors_L1_CACHE_VOLATILE_UNCORRECTED_0" = Ok (Some (VInt 19)) ∧
  entry (_get_data machine_ok (one_card false))
    "device_ecc_errors_DEVICE_MEMORY_AGGREGATE_CORRECTED_0" = Ok (Some (VInt 18)).
Proof. vm_compute. auto. Qed.

(** C8, on a card without temperature, in legacy mode, with a report that is
    long enough and matches no pattern: [findall(...)[0]] raises outside the
    [try] of line 484, and [_get_data] raises instead of returning. *)
Theorem missing_pattern_aborts_collection :
  findall machine_no_match "GPUCoreTemp.*?(gpu:\d*).*?\s(\d*)" (xs 800) = [] ∧
  _get_data machine_no_match (one_card true)
  = (one_card true, Raise IndexError).
Proof. vm_compute. auto. Qed.

(** C2 fails as stated: on a card whose ECC query fails, the snapshot has the
    first ECC key and lacks the second. *)
Lemma ecc_failure_leaves_keys_out :
  entry (_get_data machine_no_ecc (one_card false))
    "device_ecc_errors_L1_CACHE_VOLATILE_CORRECTED_0" = Ok (Some VNone) ∧
  entry (_get_data machine_no_ecc (one_card false))
    "device_ecc_errors_L1_CACHE_VOLATILE_UNCORRECTED_0" = Ok None.
Proof. vm_compute. auto. Qed.

(** C9 fails as stated: the snapshot holds the name of the card, a string. *)
Lemma snapshot_holds_a_string :
  entry (_get_data machine_ok (one_card false)) "device_name_0"
  = Ok (Some (VStr "Tesla K80")) ∧
  numeric_or_None (VStr "Tesla K80") = false.
Proof. vm_compute. auto. Qed.

(** C7 fails as stated: a captured output of 795 characters, fewer than
    800, whose [repr(str(output))] has 800, leaves legacy mode on, and the
    snapshot holds the temperature of the report where the library gave
    none. *)
Lemma short_capture_keeps_legacy :
  Popen_communicate machine_py3 = Ok (xs 795, EmptyString) ∧
  String.length (xs 795) = 795 ∧
  String.length (repr_str machine_py3 (xs 795)) = 800 ∧
  nvmlDeviceGetTemperature machine_py3 0 = Raise NVMLError ∧
  legacy (_get_data machine_py3 (one_card true)).1 = VBool true ∧
  entry (_get_data machine_py3 (one_card true)) "device_temp_0"
  = Ok (Some (VInt 77)).
Proof. vm_compute. repeat split. Qed.

(** ** The keys that each pass writes *)

Lemma device_pass_dom w i data data' :
  device_pass w i data = Ok data' → dom data' = dom data ∪ device_keys w i.
Proof.
  intros H. apply device_pass_Ok in H as (h & name & mem & Hh & _ & _ & H).
  unfold device_keys, ecc_ok. rewrite Hh.
  destruct (ecc_matrix w h).
  - destruct H as (vc & vu & _ & _ & ->).
    rewrite pack_final_dom, device_base_dom. unfold slot_keys.
    by rewrite (assoc_L (∪)).
  - subst data'. rewrite dom_insert_L, device_base_dom.
    generalize (slot_keys device_slots i). set_solver.
Qed.

Lemma device_pass_frame w i data data' k :
  device_pass w i data = Ok data' → k ∉ device_keys w i →
  data' !! k = data !! k.
Proof.
  intros H. apply device_pass_Ok in H as (h & name & mem & Hh & _ & _ & H).
  unfold device_keys, ecc_ok. rewrite Hh.
  destruct (ecc_matrix w h); intros Hk; apply not_elem_of_union in Hk as [Hk1 Hk2].
  - destruct H as (vc & vu & _ & _ & ->).
    rewrite pack_final_frame.
    + by apply device_base_frame.
    + intros Hin. apply Hk2. unfold slot_keys. by apply elem_of_list_to_set.
  - subst data'. rewrite lookup_insert_ne.
    + by apply device_base_frame.
    + intros <-. apply Hk2. by apply elem_of_singleton.
Qed.

(** The nine assignments of lines 430-454. *)
Lemma unit_pass_Ok w i data data' :
  unit_pass w i data = Ok data' →
  ∃ h v1 v2 v3 v4 v5 v6 v7 v8 v9,
    nvmlUnitGetHandleByIndex w i = Ok h ∧
    data' = <["unit_temp_board_" +:+ str i := v9]> (
            <["unit_temp_exhaust_" +:+ str i := v8]> (
            <["unit_temp_intake_" +:+ str i := v7]> (
            <["unit_psu_voltage_" +:+ str i := v6]> (
            <["unit_psu_state_" +:+ str i := v5]> (
            <["unit_psu_power_" +:+ str i := v4]> (
            <["unit_psu_current_" +:+ str i := v3]> (
            <["unit_fan_state_" +:+ str i := v2]> (
            <["unit_fan_speed_" +:+ str i := v1]> data)))))))) ∧
    Forall (λ v, numeric_or_None v = true) [v1; v2; v3; v4; v6; v7; v8; v9].
Proof.
  unfold unit_pass. intros H. apply bind_Ok in H as (h & Hh & H).
  apply Ok_inj in H. subst data'.
  exists h. do 9 eexists. split; [exact Hh|]. split; [reflexivity|].
  repeat (constructor; [by match goal with
                            | |- numeric_or_None (of_option ?o) = true =>
                                destruct o
                            end|]).
  constructor.
Qed.

Lemma unit_pass_dom w i data data' :
  unit_pass w i data = Ok data' → dom data' = dom data ∪ slot_keys unit_slots i.
Proof.
  intros H. apply unit_pass_Ok in H
    as (h & v1 & v2 & v3 & v4 & v5 & v6 & v7 & v8 & v9 & _ & -> & _).
  unfold slot_keys, unit_slots. rewrite !dom_insert_L. simpl. set_solver.
Qed.

Lemma unit_pass_frame w i data data' k :
  unit_pass w i data = Ok data' → k ∉ slot_keys unit_slots i →
  data' !! k = data !! k.
Proof.
  intros H. apply unit_pass_Ok in H
    as (h & v1 & v2 & v3 & v4 & v5 & v6 & v7 & v8 & v9 & _ & -> & _).
  unfold slot_keys, unit_slots. simpl. intros Hk.
  rewrite !not_elem_of_union, !not_elem_of_singleton in Hk.
  rewrite !lookup_insert_ne by naive_solver. done.
Qed.

(** ** The legacy pass *)

Lemma fills_refl K data : fills K data data.
Proof. intros k. by left. Qed.

Lemma fills_trans K d1 d2 d3 : fills K d1 d2 → fills K d2 d3 → fills K d1 d3.
Proof.
  intros H12 H23 k. destruct (H12 k) as [E12|(HK & HN & z & Hz)];
    destruct (H23 k) as [E23|(HK' & HN' & z' & Hz')].
  - left. congruence.
  - right. split; [done|]. split; [congruence|]. eauto.
  - right. split; [done|]. split; [done|]. exists z. congruence.
  - congruence.
Qed.

Lemma fills_mono (K K' : string → Prop) d d' :
  (∀ k, K k → K' k) → fills K d d' → fills K' d d'.
Proof. intros HK H k. destruct (H k) as [|(? & ? & ?)]; [by left|right; auto]. Qed.

Lemma fills_dom K d d' : fills K d d' → dom d' = dom d.
Proof.
  intros H. apply set_eq. intros k. rewrite !elem_of_dom.
  destruct (H k) as [->|(_ & -> & z & ->)]; [done|]. split; eauto.
Qed.

Lemma fills_frame K d d' k : fills K d d' → ¬ K k → d' !! k = d !! k.
Proof. intros H HK. destruct (H k) as [|(? & _)]; done. Qed.

Lemma fills_present K d d' k v :
  fills K d d' → d !! k = Some v → v ≠ VNone → d' !! k = Some v.
Proof. intros H Hk Hv. destruct (H k) as [->|(_ & ? & _)]; congruence. Qed.

(** One field: nothing happens, or a [None] entry gets a number. *)
Lemma legacy_field_Ok w output i key pattern group data data' :
  legacy_field w output i key pattern group data = Ok data' →
  data' = data ∨
  (data !! key = Some VNone ∧ ∃ z, data' = <[key := VInt z]> data).
Proof.
  unfold legacy_field, getitem. intros H.
  destruct (data !! key) as [v|] eqn:Hv; [|discriminate H].
  cbn [mbind Result_bind] in H.
  destruct v; cbn [is_None] in H; try (apply Ok_inj in H; by left).
  apply bind_Ok in H as (m & _ & H). apply bind_Ok in H as (s & _ & H).
  destruct (int w s) as [z|]; apply Ok_inj in H; [|by left].
  right. split; [done|]. by exists z.
Qed.

Lemma legacy_field_fills w output i key pattern group data data' :
  legacy_field w output i key pattern group data = Ok data' →
  fills (λ k, k = key) data data'.
Proof.
  intros H. apply legacy_field_Ok in H as [->|(HN & z & ->)].
  - apply fills_refl.
  - intros k. destruct (decide (k = key)) as [->|Hne].
    + right. split; [done|]. split; [done|]. exists z. apply lookup_insert_eq.
    + left. by apply lookup_insert_ne.
Qed.

Lemma legacy_pass_fills w output i data data' :
  legacy_pass w output i data = Ok data' →
  fills (λ k, k ∈ slot_keys legacy_slots i) data data'.
Proof.
  unfold legacy_pass. intros H.
  apply bind_Ok in H as (d1 & H1 & H). apply bind_Ok in H as (d2 & H2 & H).
  apply bind_Ok in H as (d3 & H3 & H4).
  apply legacy_field_fills in H1, H2, H3, H4.
  eapply fills_trans; [|eapply fills_trans; [|eapply fills_trans]];
    (eapply fills_mono; [|eassumption]); intros k ->;
    unfold slot_keys, legacy_slots; simpl; set_solver.
Qed.

Lemma legacy_loop_fills w output n data data' :
  for_each (range n) (legacy_pass w output) data = Ok data' →
  fills (legacy_key n) data data'.
Proof.
  apply (for_each_rel (fills (legacy_key n))).
  - apply fills_refl.
  - apply fills_trans.
  - intros i a a' Hi H. apply legacy_pass_fills in H.
    eapply fills_mono; [|exact H]. intros k Hk. exists i.
    by apply elem_of_range in Hi.
Qed.

(** ** [_get_data] as a whole *)

Lemma _get_data_Ok w self self' data :
  _get_data w self = (self', Ok data) →
  ∃ data0, primary w self = Ok data0 ∧
           fills (legacy_key (deviceCount self)) data0 data.
Proof.
  unfold _get_data. intros H.
  destruct (primary w self) as [data0|]; [|discriminate H].
  exists data0. split; [done|].
  destruct (truthy (legacy self)).
  - destruct (legacy_fetch w).
    + injection H as _ H. by apply legacy_loop_fills in H.
    + injection H as _ <-. apply fills_refl.
  - injection H as _ <-. apply fills_refl.
Qed.

Lemma _get_data_legacy_off w self :
  truthy (legacy self) = false → _get_data w self = (self, primary w self).
Proof. unfold _get_data. intros ->. by destruct (primary w self). Qed.

Lemma _get_data_legacy_off' w self :
  truthy (legacy self) = false →
  truthy (legacy (_get_data w self).1) = false.
Proof. intros H. by rewrite _get_data_legacy_off. Qed.

Lemma cycles_legacy_off ws self :
  legacy self = VBool false → legacy (cycles ws self) = VBool false.
Proof.
  revert self. induction ws as [|w ws IH]; intros self H; [done|].
  simpl. apply IH. rewrite _get_data_legacy_off; [done|]. by rewrite H.
Qed.

(** ** Which key belongs to which card *)

Lemma all_slots_NoDup : NoDup all_slots.
Proof. apply (bool_decide_unpack (NoDup all_slots)). vm_compute. reflexivity. Qed.

Lemma key_in_slot_keys p i slots j :
  p ∈ all_slots → slots ⊆ all_slots →
  p +:+ str i ∈ slot_keys slots j → p ∈ slots ∧ i = j.
Proof.
  intros Hp Hsub Hin. apply elem_of_slot_keys in Hin as (q & Hq & Heq).
  apply key_eq in Heq as [-> ->]; auto.
Qed.

Lemma device_slots_all : device_slots ⊆ all_slots.
Proof. intros p Hp. unfold all_slots. rewrite !elem_of_app. auto. Qed.
Lemma ecc_slots_all : ecc_slots.*1 ⊆ all_slots.
Proof. intros p Hp. unfold all_slots. rewrite !elem_of_app. auto. Qed.
Lemma unit_slots_all : unit_slots ⊆ all_slots.
Proof. intros p Hp. unfold all_slots. rewrite !elem_of_app. auto. Qed.
Lemma legacy_slots_device : legacy_slots ⊆ device_slots.
Proof.
  intros p Hp. unfold legacy_slots in Hp. unfold device_slots.
  repeat (apply elem_of_cons in Hp as [->|Hp]; [by repeat constructor|]).
  by apply elem_of_nil in Hp.
Qed.
Lemma ecc_first_ecc : ecc_first ∈ ecc_slots.*1.
Proof. unfold ecc_first. simpl. constructor. Qed.

Lemma device_not_ecc p : p ∈ device_slots → p ∈ ecc_slots.*1 → False.
Proof.
  intros Hd He. pose proof all_slots_NoDup as H. unfold all_slots in H.
  apply NoDup_app in H as (_ & H & _). apply (H p Hd).
  apply elem_of_app. by left.
Qed.

Lemma device_not_unit p : p ∈ device_slots → p ∈ unit_slots → False.
Proof.
  intros Hd He. pose proof all_slots_NoDup as H. unfold all_slots in H.
  apply NoDup_app in H as (_ & H & _). apply (H p Hd).
  apply elem_of_app. by right.
Qed.

Lemma ecc_not_unit p : p ∈ ecc_slots.*1 → p ∈ unit_slots → False.
Proof.
  intros Hd He. pose proof all_slots_NoDup as H. unfold all_slots in H.
  apply NoDup_app in H as (_ & _ & H). apply NoDup_app in H as (_ & H & _).
  by apply (H p Hd).
Qed.

(** The keys of a card as one list of slots. *)
Lemma device_keys_slots w j :
  device_keys w j
  = slot_keys (device_slots ++ if ecc_ok w j then ecc_slots.*1 else [ecc_first]) j.
Proof.
  unfold device_keys, slot_keys. rewrite fmap_app, list_to_set_app_L.
  destruct (ecc_ok w j); [reflexivity|]. f_equal. simpl.
  by rewrite (right_id_L ∅ (∪)).
Qed.

Lemma key_in_device_keys w p i j :
  p ∈ all_slots → p +:+ str i ∈ device_keys w j →
  i = j ∧ (p ∈ device_slots ∨
           (if ecc_ok w j then p ∈ ecc_slots.*1 else p = ecc_first)).
Proof.
  intros Hp. rewrite device_keys_slots. intros Hin.
  apply key_in_slot_keys in Hin as [Hin ->]; [|done|].
  - split; [done|]. apply elem_of_app in Hin as [|Hin]; [by left|right].
    destruct (ecc_ok w j); [done|]. by apply list_elem_of_singleton in Hin.
  - intros q Hq. apply elem_of_app in Hq as [Hq|Hq].
    + by apply device_slots_all.
    + apply ecc_slots_all. destruct (ecc_ok w j); [done|].
      apply list_elem_of_singleton in Hq as ->. apply ecc_first_ecc.
Qed.

(** ** The keys of a snapshot *)

Lemma for_each_dom (K : nat → gset string) l
    (body : nat → gmap string value → Result (gmap string value)) :
  (∀ i a a', body i a = Ok a' → dom a' = dom a ∪ K i) →
  ∀ a a', for_each l body a = Ok a' → dom a' = dom a ∪ ⋃ (K <$> l).
Proof.
  intros Hbody. induction l as [|i l IH]; intros a a' H; simpl in *.
  - apply Ok_inj in H as ->. set_solver.
  - apply bind_Ok in H as (a1 & H1 & H2). apply Hbody in H1. apply IH in H2.
    rewrite H2, H1. set_solver.
Qed.

(** What one pass of the body establishes and the others keep holds in the
    end. *)
Lemma for_each_establish {A} (P : A → Prop) l (body : nat → A → Result A) i :
  i ∈ l →
  (∀ a a', body i a = Ok a' → P a') →
  (∀ j a a', j ≠ i → P a → body j a = Ok a' → P a') →
  ∀ a a', for_each l body a = Ok a' → P a'.
Proof.
  intros Hi Hest Hkeep. induction l as [|j l IH]; intros a a' H;
    [by apply elem_of_nil in Hi|].
  simpl in H. apply bind_Ok in H as (a1 & H1 & H2).
  destruct (decide (i ∈ l)) as [Hil|Hil]; [by eapply IH|].
  apply elem_of_cons in Hi as [->|]; [|done]. apply Hest in H1.
  assert (HR : P a1 → P a'); [|by apply HR].
  revert H2. apply (for_each_rel (λ a b, P a → P b)); [auto|auto|].
  intros k b b' Hk Hb Hb'. eapply Hkeep; [|done..]. by intros ->.
Qed.

Lemma for_each_inv {A} (P : A → Prop) l (body : nat → A → Result A) :
  (∀ i a a', i ∈ l → P a → body i a = Ok a' → P a') →
  ∀ a a', P a → for_each l body a = Ok a' → P a'.
Proof.
  intros Hbody a a' Ha H. revert Ha.
  revert H. apply (for_each_rel (λ a b, P a → P b)); [auto|auto|].
  intros k b b' Hk Hb Hb'. by eapply Hbody.
Qed.

Lemma primary_Ok w self data :
  primary w self = Ok data →
  ∃ data1, for_each (range (deviceCount self)) (device_pass w) ∅ = Ok data1 ∧
           for_each (range (unitCount self)) (unit_pass w) data1 = Ok data.
Proof. unfold primary. intros H. by apply bind_Ok in H. Qed.

Lemma primary_dom w self data :
  primary w self = Ok data → dom data = snapshot_keys w self.
Proof.
  intros H. apply primary_Ok in H as (data1 & H1 & H2).
  apply (for_each_dom (device_keys w)) in H1; [|apply device_pass_dom].
  apply (for_each_dom (slot_keys unit_slots)) in H2; [|apply unit_pass_dom].
  rewrite H2, H1, dom_empty_L. unfold snapshot_keys. set_solver.
Qed.

Lemma elem_of_snapshot_keys w self k :
  k ∈ snapshot_keys w self ↔
  (∃ i, i < deviceCount self ∧ k ∈ device_keys w i) ∨
  (∃ i, i < unitCount self ∧ k ∈ slot_keys unit_slots i).
Proof.
  unfold snapshot_keys. rewrite elem_of_union, !elem_of_union_list.
  split; (intros [(X & HX & Hk)|(X & HX & Hk)]; [left|right]).
  - apply list_elem_of_fmap in HX as (i & -> & Hi). exists i.
    by apply elem_of_range in Hi.
  - apply list_elem_of_fmap in HX as (i & -> & Hi). exists i.
    by apply elem_of_range in Hi.
  - exists (device_keys w X). split; [|tauto]. apply list_elem_of_fmap.
    exists X. split; [done|]. apply elem_of_range. tauto.
  - exists (slot_keys unit_slots X). split; [|tauto]. apply list_elem_of_fmap.
    exists X. split; [done|]. apply elem_of_range. tauto.
Qed.

(** ** The entries of a snapshot *)

Lemma primary_first_ecc_None w self data i :
  primary w self = Ok data → i < deviceCount self → ecc_ok w i = false →
  data !! (ecc_first +:+ str i) = Some VNone.
Proof.
  intros H Hi Hecc. apply primary_Ok in H as (data1 & H1 & H2).
  assert (data1 !! (ecc_first +:+ str i) = Some VNone) as Hd1.
  { eapply (for_each_establish (λ d, d !! _ = Some VNone) _ _ i);
      [| | |exact H1].
    - by apply elem_of_range.
    - intros a a' Ha. apply device_pass_Ok in Ha as (h & ? & ? & Hh & _ & _ & Ha).
      unfold ecc_ok in Hecc. rewrite Hh in Hecc.
      destruct (ecc_matrix w h); [discriminate|]. subst a'.
      apply lookup_insert_eq.
    - intros j a a' Hj Ha Hpass. erewrite device_pass_frame; [done..|].
      intros Hin. apply key_in_device_keys in Hin as [? _]; [done|].
      apply ecc_slots_all, ecc_first_ecc. }
  eapply (for_each_inv (λ d, d !! _ = Some VNone)); [|exact Hd1|exact H2].
  intros j a a' _ Ha Hpass. erewrite unit_pass_frame; [done..|].
  intros Hin. apply key_in_slot_keys in Hin as [Hin _].
  - eapply ecc_not_unit; [apply ecc_first_ecc|done].
  - apply ecc_slots_all, ecc_first_ecc.
  - apply unit_slots_all.
Qed.

Lemma legacy_key_device n p i :
  p ∈ all_slots → legacy_key n (p +:+ str i) → p ∈ device_slots.
Proof.
  intros Hp (j & _ & Hin). apply key_in_slot_keys in Hin as [Hin _]; [|done|].
  - by apply legacy_slots_device.
  - intros q Hq. by apply device_slots_all, legacy_slots_device.
Qed.

(** C2, amended: a snapshot that [_get_data] returns has exactly the keys of
    the eleven device slots per card, of the nine unit slots per unit, and
    of the ECC slots as the ECC query of the card went: all twenty where it
    succeeded, and where it failed the first one only, holding [None], the
    other nineteen being absent from the mapping. *)
Theorem snapshot_has_the_declared_keys w self self' data :
  _get_data w self = (self', Ok data) →
  dom data = snapshot_keys w self ∧
  (∀ i p, i < deviceCount self → p ∈ device_slots →
     is_Some (data !! (p +:+ str i))) ∧
  (∀ i p, i < unitCount self → p ∈ unit_slots →
     is_Some (data !! (p +:+ str i))) ∧
  (∀ i p, i < deviceCount self → p ∈ ecc_slots.*1 →
     if ecc_ok w i then is_Some (data !! (p +:+ str i))
     else data !! (p +:+ str i)
          = if decide (p = ecc_first) then Some VNone else None).
Proof.
  intros H. apply _get_data_Ok in H as (data0 & Hprim & Hfill).
  assert (dom data = snapshot_keys w self) as Hdom.
  { erewrite fills_dom; [|done]. by apply primary_dom. }
  split; [done|]. split; [|split].
  - intros i p Hi Hp. apply elem_of_dom. rewrite Hdom.
    apply elem_of_snapshot_keys. left. exists i. split; [done|].
    unfold device_keys. apply elem_of_union_l, elem_of_slot_keys. eauto.
  - intros i p Hi Hp. apply elem_of_dom. rewrite Hdom.
    apply elem_of_snapshot_keys. right. exists i. split; [done|].
    apply elem_of_slot_keys. eauto.
  - intros i p Hi Hp. destruct (ecc_ok w i) eqn:Hecc.
    + apply elem_of_dom. rewrite Hdom.
      apply elem_of_snapshot_keys. left. exists i. split; [done|].
      unfold device_keys. rewrite Hecc.
      apply elem_of_union_r, elem_of_slot_keys. eauto.
    + destruct (decide (p = ecc_first)) as [->|Hne].
      * erewrite fills_frame; [by eapply primary_first_ecc_None|done|].
        intros HK. apply legacy_key_device in HK.
        -- eapply device_not_ecc; [done|apply ecc_first_ecc].
        -- apply ecc_slots_all, ecc_first_ecc.
      * apply not_elem_of_dom. rewrite Hdom. intros Hin.
        apply elem_of_snapshot_keys in Hin as [(j & _ & Hin)|(j & _ & Hin)].
        -- apply key_in_device_keys in Hin as [<- [Hin|Hin]];
             [| |by apply ecc_slots_all].
           ++ by eapply device_not_ecc.
           ++ by rewrite Hecc in Hin.
        -- apply key_in_slot_keys in Hin as [Hin _];
             [|by apply ecc_slots_all|apply unit_slots_all].
           by eapply ecc_not_unit.
Qed.

Lemma numeric_of_option o : numeric_or_None (of_option o) = true.
Proof. by destruct o. Qed.

Lemma device_pass_values w self i data data' :
  i < deviceCount self → device_pass w i data = Ok data' →
  map_Forall (snapshot_value w self) data →
  map_Forall (snapshot_value w self) data'.
Proof.
  intros Hi H Hd. apply device_pass_Ok in H as (h & name & mem & _ & _ & _ & H).
  assert (map_Forall (snapshot_value w self)
            (device_base w h i name mem data)) as Hbase.
  { unfold device_base.
    repeat (apply map_Forall_insert_2;
            [first [left; apply numeric_of_option | by left | idtac]|]); [|done].
    right; left. eauto. }
  destruct (ecc_matrix w h).
  - destruct H as (vc & vu & _ & _ & ->). apply pack_final_Forall; [|done].
    intros p err. by left.
  - subst data'. apply map_Forall_insert_2; [by left|done].
Qed.

Lemma unit_pass_values w self i data data' :
  i < unitCount self → unit_pass w i data = Ok data' →
  map_Forall (snapshot_value w self) data →
  map_Forall (snapshot_value w self) data'.
Proof.
  intros Hi H Hd. unfold unit_pass in H.
  destruct (nvmlUnitGetHandleByIndex w i) as [h|] eqn:Hh; [|done].
  cbn [mbind Result_bind] in H. cbv zeta in H. apply Ok_inj in H. subst data'.
  repeat (apply map_Forall_insert_2;
          [first [left; apply numeric_of_option | idtac]|]); [|done].
  destruct (nvmlUnitGetPsuInfo w h) as [psu|] eqn:Hp; simpl; [|by left].
  right; right. by exists i, h, psu.
Qed.

Lemma snapshot_value_nested w self k v :
  (∀ h psu, nvmlUnitGetPsuInfo w h = Ok psu →
            nested (psu_state psu) = false) →
  snapshot_value w self k v → nested v = false.
Proof.
  intros Hpsu [Hv|[(i & s & _ & _ & ->)|(i & h & psu & _ & _ & _ & Hp & ->)]].
  - by destruct v.
  - done.
  - by eapply Hpsu.
Qed.

(** C9, amended: in a snapshot that [_get_data] returns every value is a
    number or [None], except the name of each card under [device_name_i], a
    string, and the state of each power supply under [unit_psu_state_i],
    which is [None] or the [state] of the library's answer for that unit,
    handed on as it is.  No value is a nested structure, provided the
    library hands out none as the state of a power supply. *)
Theorem snapshot_values_are_scalars w self self' data :
  _get_data w self = (self', Ok data) →
  (∀ k v, data !! k = Some v → snapshot_value w self k v) ∧
  ((∀ h psu, nvmlUnitGetPsuInfo w h = Ok psu →
             nested (psu_state psu) = false) →
   ∀ k v, data !! k = Some v → nested v = false).
Proof.
  intros H. apply _get_data_Ok in H as (data0 & Hprim & Hfill).
  apply primary_Ok in Hprim as (data1 & H1 & H2).
  assert (map_Forall (snapshot_value w self) data1) as Hd1.
  { eapply (for_each_inv (map_Forall (snapshot_value w self)));
      [|apply map_Forall_empty|exact H1].
    intros i a a' Hi Ha Hpass. apply elem_of_range in Hi.
    by eapply device_pass_values. }
  assert (map_Forall (snapshot_value w self) data0) as Hd0.
  { eapply (for_each_inv (map_Forall (snapshot_value w self)));
      [|exact Hd1|exact H2].
    intros i a a' Hi Ha Hpass. apply elem_of_range in Hi.
    by eapply unit_pass_values. }
  assert (∀ k v, data !! k = Some v → snapshot_value w self k v) as Hall.
  { intros k v Hk. destruct (Hfill k) as [E|(_ & _ & z & E)].
    - apply (Hd0 k). congruence.
    - left. rewrite Hk in E. by injection E as ->. }
  split; [done|]. intros Hpsu k v Hk.
  eapply snapshot_value_nested; [done|]. by eapply Hall.
Qed.

(** ** Witnesses for the snapshot theorems *)

Lemma _get_data_returned w self :
  returned (_get_data w self).2 = true →
  _get_data w self
  = ((_get_data w self).1, Ok (snapshot_of (_get_data w self))).
Proof. unfold snapshot_of. by destruct (_get_data w self) as [s [d|e]]. Qed.

Lemma snapshot_has_the_declared_keys_witness :
  dom (snapshot_of (_get_data machine_no_ecc (one_card false)))
  = snapshot_keys machine_no_ecc (one_card false).
Proof.
  refine (proj1 (snapshot_has_the_declared_keys machine_no_ecc (one_card false)
                   _ _ (_get_data_returned _ _ _))).
  vm_compute. reflexivity.
Defined.

Lemma snapshot_values_are_scalars_witness :
  snapshot_value machine_units (set_counts 2 1 (fresh ∅))
    "unit_psu_state_1" (VStr "Normal") ∧
  nested (VStr "Normal") = false.
Proof.
  assert (returned (_get_data machine_units (set_counts 2 1 (fresh ∅))).2
          = true) as Hret by (vm_compute; reflexivity).
  assert (snapshot_of (_get_data machine_units (set_counts 2 1 (fresh ∅)))
            !! "unit_psu_state_1" = Some (VStr "Normal")) as Hk
    by (vm_compute; reflexivity).
  destruct (snapshot_values_are_scalars machine_units
              (set_counts 2 1 (fresh ∅)) _ _ (_get_data_returned _ _ Hret))
    as [Hvalue Hnested].
  split; [exact (Hvalue _ _ Hk)|].
  refine (Hnested _ _ _ Hk). by intros h psu [= <-].
Defined.

(** ** Legacy mode *)

(** C6: the legacy loop, run on any snapshot, leaves every entry that holds
    a value as it is, whatever the report and [int] produce; the entries it
    changes held [None] and are among the four recoverable fields. *)
Theorem legacy_keeps_present_entries w output n
    (data data' : gmap string value) :
  for_each (range n) (legacy_pass w output) data = Ok data' →
  (∀ k v, data !! k = Some v → v ≠ VNone → data' !! k = Some v) ∧
  (∀ k, data' !! k ≠ data !! k → data !! k = Some VNone ∧ legacy_key n k).
Proof.
  intros H. apply legacy_loop_fills in H. split.
  - intros k v. by apply (fills_present _ _ _ _ _ H).
  - intros k Hk. destruct (H k) as [|(? & ? & _)]; done.
Qed.

Lemma legacy_keeps_present_entries_witness :
  for_each (range 1) (legacy_pass machine_legacy (xs 800)) snapshot_partial
  = Ok snapshot_filled ∧
  snapshot_filled !! "device_temp_0" = Some (VInt 50).
Proof.
  assert (for_each (range 1) (legacy_pass machine_legacy (xs 800))
            snapshot_partial = Ok snapshot_filled)
    as H by (vm_compute; reflexivity).
  split; [exact H|].
  apply (proj1 (legacy_keeps_present_entries _ _ _ _ _ H));
    [vm_compute; reflexivity|discriminate].
Defined.

(** The same through [_get_data]: what the pass over the library found is in
    the snapshot that is returned. *)
Lemma _get_data_keeps_primary w self self' data0 data :
  primary w self = Ok data0 → _get_data w self = (self', Ok data) →
  ∀ k v, data0 !! k = Some v → v ≠ VNone → data !! k = Some v.
Proof.
  intros H0 H. apply _get_data_Ok in H as (data0' & H0' & Hfill).
  rewrite H0 in H0'. apply Ok_inj in H0' as <-.
  intros k v. by apply (fills_present _ _ _ _ _ Hfill).
Qed.

(** C7, amended: the threshold of line 472 is on [repr(str(output))], not
    on the output that was captured.  In legacy mode, once the pass over
    the library has returned, a report whose [repr(str(output))] is
    shorter than 800 makes [_get_data] set [self.legacy] to [False] and
    return the values of the library alone; in every later cycle, on
    whatever machines, legacy mode is still [False] and the snapshot is the
    pass over the library. *)
Theorem short_output_disables_legacy w self data0 output error :
  truthy (legacy self) = true →
  primary w self = Ok data0 →
  Popen_communicate w = Ok (output, error) →
  String.length (repr_str w output) < 800 →
  _get_data w self = (set_legacy (VBool false) self, Ok data0) ∧
  ∀ ws w',
    let later := cycles ws (set_legacy (VBool false) self) in
    legacy later = VBool false ∧
    _get_data w' later = (later, primary w' later).
Proof.
  intros Hleg Hprim Hpopen Hlen. split.
  - unfold _get_data, legacy_fetch. rewrite Hprim, Hleg, Hpopen.
    cbn [mbind Result_bind].
    apply Nat.ltb_lt in Hlen. by rewrite Hlen.
  - intros ws w' later.
    assert (legacy later = VBool false) as Hoff
      by (by apply cycles_legacy_off).
    split; [done|]. apply _get_data_legacy_off. by rewrite Hoff.
Qed.

Lemma primary_returned w self :
  returned (primary w self) = true →
  primary w self = Ok (default ∅ (catch (primary w self))).
Proof. by destruct (primary w self). Qed.

Lemma short_output_disables_legacy_witness :
  _get_data machine_short (one_card true)
  = (set_legacy (VBool false) (one_card true),
     Ok (default ∅ (catch (primary machine_short (one_card true))))).
Proof.
  refine (proj1 (short_output_disables_legacy machine_short (one_card true)
                   _ (xs 20) EmptyString _ (primary_returned _ _ _) _ _)).
  - reflexivity.
  - vm_compute. reflexivity.
  - reflexivity.
  - apply Nat.ltb_lt. vm_compute. reflexivity.
Defined.

(** ** The two defects, on every machine *)

(** A card without memory information stops the collection, whatever the
    other queries answer (line 339). *)
Lemma memory_failure_raises w self i :
  i < deviceCount self →
  (∀ h, nvmlDeviceGetHandleByIndex w i = Ok h →
        is_Raise (nvmlDeviceGetMemoryInfo w h)) →
  is_Raise (_get_data w self).2.
Proof.
  intros Hi Hmem.
  assert (is_Raise (primary w self)) as [e He].
  { unfold primary.
    destruct (for_each_raise (range (deviceCount self)) (device_pass w) i)
      with (a := (∅ : gmap string value)) as [e He].
    - by apply elem_of_range.
    - intros a. destruct (device_pass w i a) as [a'|e] eqn:E; [|by exists e].
      apply device_pass_Ok in E as (h & _ & mem & Hh & _ & Hm & _).
      destruct (Hmem h Hh) as [e He]. congruence.
    - rewrite He. by exists e. }
  unfold _get_data. rewrite He. by exists e.
Qed.


(** ** The monad of [check] *)

Lemma bindM_Ok {A B} (m : M A) (f : A → M B) s s' b :
  (m ≫= f) s = (s', Ok b) → ∃ s1 a, m s = (s1, Ok a) ∧ f a s1 = (s', Ok b).
Proof.
  unfold mbind, M_bind. destruct (m s) as [s1 [a|e]]; [eauto|discriminate].
Qed.

Lemma bindM_run {A B} (m : M A) (f : A → M B) s s1 a :
  m s = (s1, Ok a) → (m ≫= f) s = f a s1.
Proof. unfold mbind, M_bind. by intros ->. Qed.

Lemma only_definitions_refl s : s = set_definitions (definitions s) s.
Proof. by destruct s. Qed.

Lemma only_definitions_trans s s1 s' :
  s1 = set_definitions (definitions s1) s →
  s' = set_definitions (definitions s') s1 →
  s' = set_definitions (definitions s') s.
Proof. intros E1 E2. rewrite E2, E1. reflexivity. Qed.

Lemma add_lines_nil c : add_lines [] c = c.
Proof. destruct c. unfold add_lines. simpl. by rewrite app_nil_r. Qed.

Lemma add_lines_app l1 l2 c :
  add_lines l2 (add_lines l1 c) = add_lines (l1 ++ l2) c.
Proof. unfold add_lines. simpl. by rewrite (assoc_L (++)). Qed.

Lemma fmap_add_lines_nil (o : option Chart) : add_lines [] <$> o = o.
Proof. destruct o; simpl; [by rewrite add_lines_nil|done]. Qed.

(** ** The steps of the schema builder *)

Lemma appends_ext U m f g :
  appends U m f → (∀ c, f c = g c) → appends U m g.
Proof.
  intros H E s s' Hm. destruct (H _ _ Hm) as (H1 & H2 & H3 & H4).
  split; [done|]. split; [done|]. split; [|done].
  intros c Hc. rewrite <- E. by apply H3.
Qed.

Lemma appends_ret U : appends U (mret tt) (λ _, []).
Proof.
  intros s s' H. unfold mret, M_ret in H. simplify_eq.
  split; [apply only_definitions_refl|]. split; [done|]. split.
  - intros c _. by rewrite fmap_add_lines_nil.
  - intros t Ht. by exists t.
Qed.

Lemma appends_bind U m1 m2 f1 f2 :
  appends U m1 f1 → appends U m2 f2 →
  appends U (m1 ≫= λ _, m2) (λ c, f1 c ++ f2 c).
Proof.
  intros H1 H2 s s' H. apply bindM_Ok in H as (s1 & [] & Hm1 & Hm2).
  destruct (H1 _ _ Hm1) as (E1 & D1 & L1 & T1).
  destruct (H2 _ _ Hm2) as (E2 & D2 & L2 & T2).
  split; [by eapply only_definitions_trans|]. split; [by etrans|]. split.
  - intros c Hc. rewrite L2, L1 by done.
    destruct (definitions s !! c); simpl; [|done]. by rewrite add_lines_app.
  - intros t Ht. destruct (T1 t Ht) as (t1 & Ht1 & Dt1).
    destruct (T2 t1 Dt1) as (t' & Ht' & Dt'). exists t'. split; [|done].
    by rewrite (bindM_run _ _ _ _ _ Ht1).
Qed.

Lemma appends_append_line U chart l :
  appends U (append_line chart l) (one chart [l]).
Proof.
  intros s s' H. unfold append_line in H.
  destruct (definitions s !! chart) as [ch|] eqn:Hch; [|discriminate].
  simplify_eq. simpl. split; [done|]. split; [|split].
  - rewrite dom_insert_L. set_solver.
  - intros c _. unfold one. destruct (decide (c = chart)) as [->|Hne].
    + by rewrite lookup_insert_eq, Hch.
    + rewrite lookup_insert_ne by done. by rewrite fmap_add_lines_nil.
  - intros t Ht. unfold append_line.
    assert (is_Some (definitions t !! chart)) as [ch' Hch'].
    { apply elem_of_dom, Ht, elem_of_dom. eauto. }
    rewrite Hch'. eexists. split; [done|]. simpl. rewrite !dom_insert_L.
    set_solver.
Qed.

Lemma appends_append_lines U chart ls :
  appends U (append_lines chart ls) (one chart ls).
Proof.
  induction ls as [|l ls IH]; simpl.
  - eapply appends_ext; [apply appends_ret|]. intros c. unfold one.
    by destruct (decide _).
  - eapply appends_ext; [apply appends_bind; [apply appends_append_line|apply IH]|].
    intros c. unfold one. by destruct (decide _).
Qed.

Lemma appends_set_chart (U : string → Prop) chart ch :
  U chart → appends U (set_chart chart ch) (λ _, []).
Proof.
  intros HU s s' H. unfold set_chart in H. simplify_eq. simpl.
  split; [done|]. split; [|split].
  - rewrite dom_insert_L. set_solver.
  - intros c Hc. rewrite lookup_insert_ne by (by intros ->).
    by rewrite fmap_add_lines_nil.
  - intros t Ht. eexists. split; [done|]. simpl. rewrite !dom_insert_L.
    set_solver.
Qed.

Lemma if_present_eq data k body t v :
  data !! k = Some v →
  if_present data k body t = if is_None v then (t, Ok tt) else body t.
Proof.
  intros H. unfold if_present, lift, getitem, mbind, M_bind. rewrite H.
  by destruct (is_None v).
Qed.

Lemma if_present_Ok data k body s s' :
  if_present data k body s = (s', Ok tt) → is_Some (data !! k).
Proof.
  unfold if_present, lift, getitem, mbind, M_bind.
  destruct (data !! k); [eauto|discriminate].
Qed.

Lemma appends_if_present U data k body f :
  appends U body f → appends U (if_present data k body) (guarded data k f).
Proof.
  intros Hb s s' H. destruct (if_present_Ok _ _ _ _ _ H) as [v Hk].
  rewrite (if_present_eq _ _ _ _ _ Hk) in H.
  assert (guarded data k f = if is_None v then λ _, [] else f) as ->.
  { unfold guarded, present. rewrite Hk. by destruct (is_None v). }
  destruct (is_None v) eqn:Hv.
  - destruct (appends_ret U _ _ H) as (H1 & H2 & H3 & _).
    split; [done|]. split; [done|]. split; [done|].
    intros t Ht. rewrite (if_present_eq _ _ _ _ _ Hk), Hv. exists t.
    split; [done|]. by simplify_eq.
  - destruct (Hb _ _ H) as (H1 & H2 & H3 & H4).
    split; [done|]. split; [done|]. split; [done|].
    intros t Ht. rewrite (if_present_eq _ _ _ _ _ Hk), Hv. by apply H4.
Qed.

Lemma appends_for_eachM U l body f :
  (∀ i, appends U (body i) (f i)) →
  appends U (for_eachM l body) (λ c, concat ((λ i, f i c) <$> l)).
Proof.
  intros H. induction l as [|i l IH]; simpl.
  - apply appends_ret.
  - apply (appends_bind U _ _ _ _ (H i) IH).
Qed.

Lemma appends_check_device U data i :
  appends U (check_device data i) (device_lines data i).
Proof.
  unfold check_device, device_lines. cbv zeta.
  repeat first [ apply appends_if_present | apply appends_append_line
               | apply appends_append_lines
               | apply (appends_bind U) ].
Qed.

Lemma appends_check_unit data i :
  appends unit_chart (check_unit data i) (unit_lines data i).
Proof.
  unfold check_unit. cbv zeta. eapply appends_ext.
  - repeat first [ apply appends_if_present | apply appends_append_line
                 | apply appends_set_chart; [by left]
                 | apply appends_set_chart; [by right]
                 | apply (appends_bind unit_chart) ].
  - intros c. unfold unit_lines, guarded, one.
    repeat destruct (present _ _); destruct (decide (c = "temperature"));
      reflexivity.
Qed.

(** ** The unit charts *)

Lemma if_present_set_chart data k chart ch s s' c :
  if_present data k (set_chart chart ch) s = (s', Ok tt) →
  definitions s' !! c
  = if present data k && bool_decide (c = chart) then Some ch
    else definitions s !! c.
Proof.
  intros H. destruct (if_present_Ok _ _ _ _ _ H) as [v Hk].
  rewrite (if_present_eq _ _ _ _ _ Hk) in H. unfold present. rewrite Hk.
  destruct (is_None v); simpl; [by simplify_eq|].
  unfold set_chart in H. simplify_eq. simpl.
  case_bool_decide; subst; [apply lookup_insert_eq|by apply lookup_insert_ne].
Qed.

Lemma device_lines_unit data i c : unit_chart c → device_lines data i c = [].
Proof.
  intros [-> | ->]; unfold device_lines, guarded;
    repeat destruct (present _ _); reflexivity.
Qed.

Lemma unit_lines_unit data i c : unit_chart c → unit_lines data i c = [].
Proof.
  intros [-> | ->]; unfold unit_lines, guarded;
    destruct (present _ _); reflexivity.
Qed.

Lemma concat_fmap_nil {A B} (f : A → list B) l :
  (∀ i, f i = []) → concat (f <$> l) = [].
Proof. intros H. induction l; csimpl; [done|]. by rewrite H, IHl. Qed.

Lemma check_unit_charts data i s s' :
  check_unit data i s = (s', Ok tt) →
  definitions s' !! "unit_fan"
  = (if present data ("unit_fan_speed_" +:+ str i) then Some (unit_fan i)
     else definitions s !! "unit_fan") ∧
  definitions s' !! "unit_psu"
  = (if present data ("unit_psu_current_" +:+ str i) then Some (unit_psu i)
     else definitions s !! "unit_psu").
Proof.
  unfold check_unit. cbv zeta. intros H.
  apply bindM_Ok in H as (s1 & [] & H1 & H).
  apply bindM_Ok in H as (s2 & [] & H2 & H3).
  assert (∀ c, definitions s1 !! c = definitions s !! c ∨ c = "temperature")
    as Hs1.
  { intros c. destruct (decide (c = "temperature")) as [|Hne]; [by right|left].
    match type of H1 with
    | ?m _ = _ =>
        assert (∃ f, appends no_chart m f ∧ f c = []) as (f & Ha & Hf)
    end.
    { eexists. split.
      - apply appends_if_present.
        repeat first [ apply appends_append_line
                     | apply (appends_bind no_chart) ].
      - unfold guarded, one. destruct (present _ _); [|done].
        by destruct (decide (c = "temperature")). }
    destruct (Ha _ _ H1) as (_ & _ & L & _).
    rewrite (L c), Hf by (by intros []). apply fmap_add_lines_nil. }
  split.
  - rewrite (if_present_set_chart _ _ _ _ _ _ "unit_fan" H3).
    rewrite (if_present_set_chart _ _ _ _ _ _ "unit_fan" H2).
    rewrite andb_false_r. destruct (Hs1 "unit_fan") as [->|]; [|done].
    by rewrite andb_true_r.
  - rewrite (if_present_set_chart _ _ _ _ _ _ "unit_psu" H3).
    rewrite (if_present_set_chart _ _ _ _ _ _ "unit_psu" H2).
    rewrite andb_false_r, andb_true_r.
    destruct (Hs1 "unit_psu") as [->|]; done.
Qed.

Lemma for_eachM_snoc l i body s s' :
  for_eachM (l ++ [i]) body s = (s', Ok tt) →
  ∃ s1, for_eachM l body s = (s1, Ok tt) ∧ body i s1 = (s', Ok tt).
Proof.
  revert s. induction l as [|j l IH]; intros s H; simpl in H.
  - apply bindM_Ok in H as (s1 & [] & Hb & Hr).
    unfold mret, M_ret in Hr. simplify_eq. by exists s.
  - apply bindM_Ok in H as (s0 & [] & Hb & Hr).
    apply IH in Hr as (s1 & Hl & Hi). exists s1. split; [|done].
    simpl. by rewrite (bindM_run _ _ _ _ _ Hb).
Qed.

Lemma unit_loop_charts data n s s' :
  for_eachM (range n) (check_unit data) s = (s', Ok tt) →
  definitions s' !! "unit_fan"
  = unit_chart_after data "unit_fan_speed_" unit_fan n
      (definitions s !! "unit_fan") ∧
  definitions s' !! "unit_psu"
  = unit_chart_after data "unit_psu_current_" unit_psu n
      (definitions s !! "unit_psu").
Proof.
  unfold unit_chart_after. revert s'. induction n as [|n IH]; intros s' H.
  - change ((s, Ok tt) = (s', Ok tt)) in H. by simplify_eq.
  - rewrite range_S in H. apply for_eachM_snoc in H as (s1 & Hl & Hn).
    apply IH in Hl as [IHf IHp]. apply check_unit_charts in Hn as [-> ->].
    simpl. split; destruct (present _ _); done.
Qed.

(** ** The schema builder as a whole *)

Lemma unit_branch_Ok data n s s' :
  (if negb (n =? 0)
   then (_ ← order_append "unit_fan"; _ ← order_append "unit_psu";
         for_eachM (range n) (check_unit data))
   else mret tt) s = (s', Ok tt) →
  for_eachM (range n) (check_unit data)
    (set_order (order s ++ unit_order n) s) = (s', Ok tt).
Proof.
  unfold unit_order. destruct n as [|n]; simpl; intros H.
  - unfold mret, M_ret in *. simplify_eq. rewrite app_nil_r. by destruct s'.
  - apply bindM_Ok in H as (s1 & [] & H1 & H).
    apply bindM_Ok in H as (s2 & [] & H2 & H).
    unfold order_append in H1, H2. simplify_eq. simpl in H.
    by rewrite <- (assoc_L (++)) in H.
Qed.

Lemma unit_branch_run data n s s' :
  for_eachM (range n) (check_unit data)
    (set_order (order s ++ unit_order n) s) = (s', Ok tt) →
  (if negb (n =? 0)
   then (_ ← order_append "unit_fan"; _ ← order_append "unit_psu";
         for_eachM (range n) (check_unit data))
   else mret tt) s = (s', Ok tt).
Proof.
  unfold unit_order. destruct n as [|n]; simpl; intros H.
  - change ((set_order (order s ++ []) s, Ok tt) = (s', Ok tt)) in H.
    unfold mret, M_ret. simplify_eq. rewrite app_nil_r. by destruct s.
  - unfold mbind, M_bind, order_append. simpl.
    by rewrite <- (assoc_L (++)).
Qed.

(** What a run of the schema builder that returns has done. *)
Lemma build_schema_Ok data s s' b :
  build_schema data s = (s', Ok b) →
  b = true ∧
  ∃ name,
    card_names data (deviceCount s) = Ok name ∧
    s' = set_definitions (definitions s')
           (set_order (order s ++ unit_order (unitCount s)) s) ∧
    dom (definitions s) ⊆ dom (definitions s') ∧
    (∀ c, ¬ unit_chart c →
       definitions s' !! c
       = chart_after name (schema_lines data (deviceCount s) (unitCount s) c)
           <$> definitions s !! c) ∧
    definitions s' !! "unit_fan"
    = unit_chart_after data "unit_fan_speed_" unit_fan (unitCount s)
        (retitle name <$> definitions s !! "unit_fan") ∧
    definitions s' !! "unit_psu"
    = unit_chart_after data "unit_psu_current_" unit_psu (unitCount s)
        (retitle name <$> definitions s !! "unit_psu") ∧
    (∀ t, deviceCount t = deviceCount s → unitCount t = unitCount s →
          dom (definitions s) ⊆ dom (definitions t) →
          returned (build_schema data t).2 = true).
Proof.
  unfold build_schema. intros H.
  apply bindM_Ok in H as (s0 & name & Hname & H).
  unfold lift in Hname. injection Hname as <- Hname.
  apply bindM_Ok in H as (s1 & [] & Hre & H).
  unfold retitle_all in Hre. injection Hre as <-.
  apply bindM_Ok in H as (s2 & [] & Hdev & H).
  apply bindM_Ok in H as (s3 & [] & Hunit & H).
  unfold mret, M_ret in H. injection H as <- <-.
  split; [done|]. exists name. split; [done|].
  destruct (appends_for_eachM no_chart _ _ _ (appends_check_device _ data)
              _ _ Hdev) as (E2 & D2 & L2 & T2).
  assert (unitCount s2 = unitCount s) as Hnu by (by rewrite E2).
  assert (order s2 = order s) as Hord by (by rewrite E2).
  assert (deviceCount s2 = deviceCount s) as Hnd by (by rewrite E2).
  apply unit_branch_Ok in Hunit. rewrite Hord in Hunit.
  destruct (appends_for_eachM unit_chart _ _ _ (appends_check_unit data)
              _ _ Hunit) as (E3 & D3 & L3 & T3).
  apply unit_loop_charts in Hunit as [Hfan Hpsu].
  simpl in D2, D3, L3, Hfan, Hpsu, L2. rewrite dom_fmap_L in D2.
  assert (∀ c, unit_chart c →
               definitions s2 !! c = retitle name <$> definitions s !! c)
    as Hframe.
  { intros c Hc. rewrite L2 by (by intros []). rewrite lookup_fmap.
    rewrite concat_fmap_nil by (intros i; by apply device_lines_unit).
    apply fmap_add_lines_nil. }
  split; [|split; [|split; [|split; [|split]]]].
  - rewrite E3 at 1. rewrite E2. reflexivity.
  - by etrans.
  - intros c Hc. rewrite L3 by done. rewrite L2 by (by intros []).
    rewrite lookup_fmap. destruct (definitions s !! c) as [ch|]; simpl; [|done].
    unfold chart_after, schema_lines. by rewrite add_lines_app.
  - rewrite Hfan. f_equal. apply Hframe. by left.
  - rewrite Hpsu. f_equal. apply Hframe. by right.
  - intros t Hd Hu Ht. rewrite Hd, Hu.
    unfold mbind at 1, M_bind at 1, lift. rewrite Hname.
    unfold mbind at 1, M_bind at 1, retitle_all.
    destruct (T2 (set_definitions (retitle name <$> definitions t) t))
      as (t2 & Ht2 & Dt2).
    { simpl. rewrite !dom_fmap_L. done. }
    rewrite (bindM_run _ _ _ _ _ Ht2).
    destruct (appends_for_eachM no_chart _ _ _ (appends_check_device _ data)
                _ _ Ht2) as (Et2 & _ & _ & _).
    destruct (T3 (set_order (order t2 ++ unit_order (unitCount s)) t2))
      as (t3 & Ht3 & _); [done|].
    apply unit_branch_run in Ht3. by rewrite (bindM_run _ _ _ _ _ Ht3).
Qed.

(** ** [check] *)

Lemma check_true w self :
  (check w self).2 = Ok true →
  ∃ s1 data, check_probe w self = (s1, Ok (Some data)) ∧
             build_schema data s1 = (checked w self, Ok true).
Proof.
  unfold checked, check, mbind, M_bind.
  destruct (check_probe w self) as [s1 [[data|]|e]]; simpl; intros H;
    [|discriminate..].
  exists s1, data. split; [done|].
  destruct (build_schema data s1) as [s' r]. simpl in *. by subst.
Qed.

(** Nothing but [self.legacy] changes in [_get_data]. *)
Lemma _get_data_state w s :
  (_get_data w s).1 = s ∨ (_get_data w s).1 = set_legacy (VBool false) s.
Proof.
  unfold _get_data. destruct (primary w s); [|by left].
  destruct (truthy (legacy s)); [|by left].
  destruct (legacy_fetch w); [by left|by right].
Qed.

Lemma _get_data_with_schema w s t :
  _get_data w (with_schema t s)
  = (with_schema t (_get_data w s).1, (_get_data w s).2).
Proof.
  unfold _get_data, primary, with_schema. simpl.
  destruct (for_each (range (deviceCount s)) (device_pass w) ∅ ≫= _);
    [|done].
  destruct (truthy (legacy s)); [|done]. by destruct (legacy_fetch w).
Qed.

Lemma check_probe_Some w self s1 data :
  check_probe w self = (s1, Ok (Some data)) →
  ∃ u d, returned (_ ← nvmlInit w; nvmlSystemGetDriverVersion w) = true ∧
         nvmlUnitGetCount w = Ok u ∧ nvmlDeviceGetCount w = Ok d ∧
         _get_data w (probed w u d self) = (s1, Ok data).
Proof.
  unfold check_probe, probed. intros H.
  destruct (nvmlInit w ≫= _); [|by destruct (nvmlShutdown w)].
  destruct (nvmlUnitGetCount w) as [u|]; [|by destruct (nvmlShutdown w)].
  destruct (nvmlDeviceGetCount w) as [d|]; [|by destruct (nvmlShutdown w)].
  exists u, d. split; [done|]. split; [done|]. split; [done|]. simpl in *.
  destruct (_get_data w _) as [s' [data'|e]]; by simplify_eq.
Qed.

Lemma check_probe_run w self u d s1 data :
  returned (_ ← nvmlInit w; nvmlSystemGetDriverVersion w) = true →
  nvmlUnitGetCount w = Ok u → nvmlDeviceGetCount w = Ok d →
  _get_data w (probed w u d self) = (s1, Ok data) →
  check_probe w self = (s1, Ok (Some data)).
Proof.
  unfold check_probe, probed. intros Hinit -> -> H.
  destruct (nvmlInit w ≫= _); [|discriminate]. simpl in *. by rewrite H.
Qed.

(** ** A run of [check] that returns [True] *)

Lemma probed_with_schema w u d self t :
  configuration t = configuration self →
  probed w u d t = with_schema t (probed w u d self).
Proof.
  intros H. unfold probed, with_schema, set_deviceCount, set_unitCount,
    set_counts, set_nvMemFactor, set_legacy, set_definitions, set_order.
  simpl. by rewrite H.
Qed.

(** The snapshot and the counts of a run that returns [True], and the state
    in which the schema builder starts. *)
Lemma check_run w self :
  (check w self).2 = Ok true →
  ∃ data nd nu s1,
    check_probe w self = (s1, Ok (Some data)) ∧
    nvmlDeviceGetCount w = Ok nd ∧ nvmlUnitGetCount w = Ok nu ∧
    deviceCount s1 = nd ∧ unitCount s1 = nu ∧
    order s1 = order self ∧ definitions s1 = definitions self ∧
    build_schema data s1 = (checked w self, Ok true) ∧
    ∀ t, configuration t = configuration self →
         check_probe w t = (with_schema t s1, Ok (Some data)).
Proof.
  intros H. apply check_true in H as (s1 & data & Hprobe & Hbuild).
  pose proof Hprobe as Hp.
  apply check_probe_Some in Hp as (nu & nd & Hinit & Hu & Hd & Hget).
  exists data, nd, nu, s1. split; [done|]. split; [done|]. split; [done|].
  assert (s1 = (_get_data w (probed w nu nd self)).1) as Hs1
    by (by rewrite Hget).
  assert (deviceCount s1 = nd ∧ unitCount s1 = nu ∧ order s1 = order self ∧
          definitions s1 = definitions self) as (? & ? & ? & ?).
  { rewrite Hs1.
    by destruct (_get_data_state w (probed w nu nd self)) as [-> | ->]. }
  do 5 (split; [done|]).
  intros t Ht. apply (check_probe_run _ _ nu nd); [done..|].
  rewrite (probed_with_schema _ _ _ self) by done.
  by rewrite _get_data_with_schema, Hget.
Qed.

Lemma not_unit_chart c :
  bool_decide (c = "unit_fan") || bool_decide (c = "unit_psu") = false →
  ¬ unit_chart c.
Proof.
  intros H [-> | ->]; by vm_compute in H.
Qed.

Lemma device_lines_ecc data i :
  device_lines data i "ecc_errors"
  = if present data (ecc_first +:+ str i) then ecc_group i else [].
Proof.
  unfold device_lines, guarded. repeat destruct (present _ _); reflexivity.
Qed.

Lemma unit_lines_ecc data i : unit_lines data i "ecc_errors" = [].
Proof. unfold unit_lines, guarded. by destruct (present _ _). Qed.

Lemma length_append (a b : string) :
  String.length (a +:+ b) = String.length a + String.length b.
Proof. induction a; simpl; [done|]. by rewrite IHa. Qed.

(** A run of [check] never leaves a chart as it found it. *)
Lemma chart_after_ne name ls c : chart_after name ls c ≠ c.
Proof.
  intros H.
  apply (f_equal (λ c, String.length (opt_title (options c)))) in H.
  simpl in H. rewrite length_append in H. simpl in H. lia.
Qed.

(** ** The schema claims *)

(** C4: when [check] returns [True], having found the snapshot [data] and
    [nd] cards, the lines of the ECC chart are those it held before followed,
    for each card in order, by the twenty ECC lines of the card where the
    card's first ECC entry is not [None], and by no line of the card where
    it is; the twenty lines carry the twenty ECC keys of the card. *)
Theorem ecc_lines_are_all_or_nothing w self :
  (check w self).2 = Ok true →
  ∃ data nd,
    (check_probe w self).2 = Ok (Some data) ∧
    nvmlDeviceGetCount w = Ok nd ∧
    lines <$> definitions (checked w self) !! "ecc_errors"
    = (λ c, lines c ++
            concat ((λ i, if present data (ecc_first +:+ str i)
                          then ecc_group i else []) <$> range nd))
        <$> definitions self !! "ecc_errors" ∧
    ∀ i, length (ecc_group i) = 20 ∧
         (λ l, l !! 0) <$> ecc_group i
         = (λ p, Some (VStr (p +:+ str i))) <$> ecc_slots.*1.
Proof.
  intros H.
  apply check_run in H
    as (data & nd & nu & s1 & Hprobe & Hd & Hu & Hnd & Hnu & Hord & Hdef
        & Hbuild & _).
  exists data, nd. split; [by rewrite Hprobe|]. split; [done|]. split.
  - apply build_schema_Ok in Hbuild
      as (_ & name & _ & _ & _ & L & _).
    rewrite (L "ecc_errors") by (by apply not_unit_chart).
    rewrite Hdef, Hnd. destruct (definitions self !! "ecc_errors"); [|done].
    simpl. do 2 f_equal. unfold schema_lines.
    rewrite (concat_fmap_nil (λ i, unit_lines data i "ecc_errors"))
      by apply unit_lines_ecc.
    rewrite app_nil_r. f_equal. apply list_fmap_ext. intros _ i _.
    apply device_lines_ecc.
  - intros i. split; reflexivity.
Qed.

Lemma ecc_lines_are_all_or_nothing_witness :
  ∃ data nd,
    (check_probe machine_ok (fresh ∅)).2 = Ok (Some data) ∧
    nvmlDeviceGetCount machine_ok = Ok nd ∧
    lines <$> definitions (checked machine_ok (fresh ∅)) !! "ecc_errors"
    = (λ c, lines c ++
            concat ((λ i, if present data (ecc_first +:+ str i)
                          then ecc_group i else []) <$> range nd))
        <$> definitions (fresh ∅) !! "ecc_errors" ∧
    ∀ i, length (ecc_group i) = 20 ∧
         (λ l, l !! 0) <$> ecc_group i
         = (λ p, Some (VStr (p +:+ str i))) <$> ecc_slots.*1.
Proof.
  apply (ecc_lines_are_all_or_nothing machine_ok (fresh ∅)).
  vm_compute. reflexivity.
Defined.

(** C5 fails as stated: on a machine with one card and two units, a second
    service, which shares the module's [ORDER] and [CHARTS] as the first run
    of [check] left them, ends with the unit charts listed twice, the card
    named twice in the title and the line of the card twice in the fan
    chart. *)
Lemma second_check_changes_the_schema :
  (check machine_units (fresh ∅)).2 = Ok true ∧
  (check machine_units (second_service ∅ first_run)).2 = Ok true ∧
  (Schema first_run).1 = ORDER ++ ["unit_fan"; "unit_psu"] ∧
  (Schema second_run).1
  = ORDER ++ ["unit_fan"; "unit_psu"; "unit_fan"; "unit_psu"] ∧
  (Schema first_run).2 !! "fan"
  = Some (add_lines [line "device_fanspeed_" "GPU:" "" 0 []]
            (chart0 "Fan speed for Tesla K80 [0]" "%" "Fans" "nv.fan" "line")) ∧
  (Schema second_run).2 !! "fan"
  = Some (add_lines [line "device_fanspeed_" "GPU:" "" 0 [];
                     line "device_fanspeed_" "GPU:" "" 0 []]
            (chart0 "Fan speed for Tesla K80 [0] for Tesla K80 [0]" "%" "Fans"
               "nv.fan" "line")) ∧
  Schema first_run ≠ Schema second_run.
Proof.
  do 6 (split; [vm_compute; reflexivity|]).
  intros H. apply (f_equal (λ s, length s.1)) in H. vm_compute in H.
  discriminate H.
Qed.

(** C5, amended: [check] accumulates into the chart order and the chart
    definitions that the services share.  When a run on [self] returns
    [True], a run on the same machine of a service [t] with the same
    configuration that starts from the schema the first run left returns
    [True] as well, on the same snapshot; the chart order then ends with the
    unit charts twice, and every chart that was there before the first run,
    the two unit charts apart, has the names of the cards and the lines of
    the snapshot appended twice, so that it differs from the chart after
    the first run. *)
Theorem check_accumulates_into_the_schema w self t :
  (check w self).2 = Ok true →
  configuration t = configuration self →
  Schema t = Schema (checked w self) →
  ∃ data name nd nu,
    (check_probe w self).2 = Ok (Some data) ∧
    (check_probe w t).2 = Ok (Some data) ∧
    (check w t).2 = Ok true ∧
    nvmlDeviceGetCount w = Ok nd ∧ nvmlUnitGetCount w = Ok nu ∧
    card_names data nd = Ok name ∧
    order (checked w self) = order self ++ unit_order nu ∧
    order (checked w t) = (order self ++ unit_order nu) ++ unit_order nu ∧
    ∀ c ch, ¬ unit_chart c → definitions self !! c = Some ch →
      definitions (checked w self) !! c
      = Some (chart_after name (schema_lines data nd nu c) ch) ∧
      definitions (checked w t) !! c
      = Some (chart_after name (schema_lines data nd nu c)
                (chart_after name (schema_lines data nd nu c) ch)) ∧
      definitions (checked w t) !! c ≠ definitions (checked w self) !! c.
Proof.
  intros H Hconf Hschema. injection Hschema as Hto Htd.
  apply check_run in H
    as (data & nd & nu & s1 & Hprobe & Hd & Hu & Hnd & Hnu & Hord & Hdef
        & Hbuild & Hagain).
  specialize (Hagain t Hconf).
  apply build_schema_Ok in Hbuild
    as (_ & name & Hname & E1 & D1 & L1 & _ & _ & T1).
  assert (returned (build_schema data (with_schema t s1)).2 = true) as Hret.
  { apply T1; [done..|]. simpl. by rewrite Htd. }
  destruct (build_schema data (with_schema t s1)) as [t' [b|e]] eqn:Hb2;
    [|discriminate Hret].
  pose proof Hb2 as Hb2'.
  apply build_schema_Ok in Hb2'
    as (-> & name' & Hname' & E2 & _ & L2 & _).
  simpl in Hname', E2, L2. rewrite Hname in Hname'.
  apply Ok_inj in Hname' as <-.
  assert (check w t = (t', Ok true)) as Hcheck.
  { unfold check. by rewrite (bindM_run _ _ _ _ _ Hagain). }
  unfold checked in *. rewrite Hcheck. simpl.
  exists data, name, nd, nu. rewrite Hprobe, Hagain. simpl.
  rewrite Hnd in *. rewrite Hnu in *.
  do 6 (split; [done|]). split; [|split].
  - rewrite E1. simpl. by rewrite Hord.
  - rewrite E2. simpl. rewrite Hto, E1. simpl. by rewrite Hord.
  - intros c ch Hc Hch.
    assert (definitions (check w self).1 !! c
            = Some (chart_after name (schema_lines data nd nu c) ch)) as H1.
    { rewrite L1 by done. by rewrite Hdef, Hch. }
    assert (definitions t' !! c
            = Some (chart_after name (schema_lines data nd nu c)
                      (chart_after name (schema_lines data nd nu c) ch)))
      as H2.
    { rewrite L2 by done. by rewrite Htd, H1. }
    split; [done|]. split; [done|]. rewrite H1, H2. intros H.
    apply (inj Some) in H. by apply chart_after_ne in H.
Qed.

Lemma check_accumulates_into_the_schema_witness :
  ∃ data name nd nu,
    (check_probe machine_units (fresh ∅)).2 = Ok (Some data) ∧
    (check_probe machine_units first_run).2 = Ok (Some data) ∧
    (check machine_units first_run).2 = Ok true ∧
    nvmlDeviceGetCount machine_units = Ok nd ∧
    nvmlUnitGetCount machine_units = Ok nu ∧
    card_names data nd = Ok name ∧
    order (checked machine_units (fresh ∅))
    = order (fresh ∅) ++ unit_order nu ∧
    order (checked machine_units first_run)
    = (order (fresh ∅) ++ unit_order nu) ++ unit_order nu ∧
    ∀ c ch, ¬ unit_chart c → definitions (fresh ∅) !! c = Some ch →
      definitions (checked machine_units (fresh ∅)) !! c
      = Some (chart_after name (schema_lines data nd nu c) ch) ∧
      definitions (checked machine_units first_run) !! c
      = Some (chart_after name (schema_lines data nd nu c)
                (chart_after name (schema_lines data nd nu c) ch)) ∧
      definitions (checked machine_units first_run) !! c
      ≠ definitions (checked machine_units (fresh ∅)) !! c.
Proof.
  apply (check_accumulates_into_the_schema machine_units (fresh ∅) first_run).
  - vm_compute. reflexivity.
  - vm_compute. reflexivity.
  - reflexivity.
Defined.

(** C10 fails as stated: with two units that report their power supply, the
    power supply chart holds three lines, those of the second unit. *)
Lemma unit_psu_chart_has_three_lines :
  (check machine_units (fresh ∅)).2 = Ok true ∧
  lines <$> definitions (checked machine_units (fresh ∅)) !! "unit_psu"
  = Some [line "unit_psu_current_" "current (A) (unit " ")" 1 [];
          line "unit_psu_power_" "power (W) (unit " ")" 1 [];
          line "unit_psu_voltage_" "voltage (V) (unit " ")" 1 []] ∧
  lines <$> definitions (checked machine_units (fresh ∅)) !! "unit_fan"
  = Some [line "unit_fan_speed_" "Unit" "" 1 []].
Proof. vm_compute. auto. Qed.

(** C10, amended: when [check] returns [True], having found the snapshot
    [data] and [nu] units, the fan chart of the units is the chart of the
    last unit whose fan speed is not [None], a chart of one line, and the
    power supply chart is the chart of the last unit whose current is not
    [None], a chart of three lines (current, power and voltage); where no
    unit reports, the chart is the one that was there before, if any, with
    the names of the cards appended to its title. *)
Theorem unit_charts_hold_the_last_reporting_unit w self :
  (check w self).2 = Ok true →
  ∃ data name nd nu,
    (check_probe w self).2 = Ok (Some data) ∧
    nvmlDeviceGetCount w = Ok nd ∧ nvmlUnitGetCount w = Ok nu ∧
    card_names data nd = Ok name ∧
    definitions (checked w self) !! "unit_fan"
    = unit_chart_after data "unit_fan_speed_" unit_fan nu
        (retitle name <$> definitions self !! "unit_fan") ∧
    definitions (checked w self) !! "unit_psu"
    = unit_chart_after data "unit_psu_current_" unit_psu nu
        (retitle name <$> definitions self !! "unit_psu") ∧
    ∀ j, lines (unit_fan j) = [line "unit_fan_speed_" "Unit" "" j []] ∧
         lines (unit_psu j)
         = [line "unit_psu_current_" "current (A) (unit " ")" j [];
            line "unit_psu_power_" "power (W) (unit " ")" j [];
            line "unit_psu_voltage_" "voltage (V) (unit " ")" j []].
Proof.
  intros H.
  apply check_run in H
    as (data & nd & nu & s1 & Hprobe & Hd & Hu & Hnd & Hnu & Hord & Hdef
        & Hbuild & _).
  apply build_schema_Ok in Hbuild
    as (_ & name & Hname & _ & _ & _ & Hfan & Hpsu & _).
  exists data, name, nd, nu. rewrite Hprobe. rewrite Hnd, Hnu, Hdef in *.
  do 6 (split; [done|]). done.
Qed.

Lemma unit_charts_hold_the_last_reporting_unit_witness :
  ∃ data name nd nu,
    (check_probe machine_units (fresh ∅)).2 = Ok (Some data) ∧
    nvmlDeviceGetCount machine_units = Ok nd ∧
    nvmlUnitGetCount machine_units = Ok nu ∧
    card_names data nd = Ok name ∧
    definitions (checked machine_units (fresh ∅)) !! "unit_fan"
    = unit_chart_after data "unit_fan_speed_" unit_fan nu
        (retitle name <$> definitions (fresh ∅) !! "unit_fan") ∧
    definitions (checked machine_units (fresh ∅)) !! "unit_psu"
    = unit_chart_after data "unit_psu_current_" unit_psu nu
        (retitle name <$> definitions (fresh ∅) !! "unit_psu") ∧
    ∀ j, lines (unit_fan j) = [line "unit_fan_speed_" "Unit" "" j []] ∧
         lines (unit_psu j)
         = [line "unit_psu_current_" "current (A) (unit " ")" j [];
            line "unit_psu_power_" "power (W) (unit " ")" j [];
            line "unit_psu_voltage_" "voltage (V) (unit " ")" j []].
Proof.
  apply (unit_charts_hold_the_last_reporting_unit machine_units (fresh ∅)).
  vm_compute. reflexivity.
Defined.

(** * Further properties of the collector *)

(** ** The ECC loops *)

Lemma ecc_matrix_returned w h :
  returned (ecc_matrix w h) = forallb returned (ecc_queries w h).
Proof.
  unfold ecc_matrix, ecc_queries. cbn -[setitem].
  repeat (match goal with
          | |- context [nvmlDeviceGetMemoryErrorCounter ?w ?h ?a ?b ?c] =>
              destruct (nvmlDeviceGetMemoryErrorCounter w h a b c);
              cbn -[setitem]; [|reflexivity]
          end).
  reflexivity.
Qed.

Lemma ecc_queries_all w h :
  forallb returned (ecc_queries w h) = true ↔
  ∀ memError eccCounter memoryLocation,
    memError < 2 → eccCounter < 2 → memoryLocation < 5 →
    returned (nvmlDeviceGetMemoryErrorCounter w h memError eccCounter
                memoryLocation) = true.
Proof.
  unfold ecc_queries. cbn. rewrite !andb_true_iff. split.
  - intros H e c l He Hc Hl.
    destruct e as [|[|e]]; [| |lia]; (destruct c as [|[|c]]; [| |lia]);
      (destruct l as [|[|[|[|[|l]]]]]; [| | | | |lia]); tauto.
  - intros H. repeat split; try apply H; lia.
Qed.

(** ** Which calls return *)

Lemma for_each_returned {A} l (body : nat → A → Result A) (ok : nat → bool) :
  (∀ i a, i ∈ l → returned (body i a) = ok i) →
  ∀ a, returned (for_each l body a) = forallb ok l.
Proof.
  induction l as [|i l IH]; intros H a; [done|]. simpl.
  rewrite <- (H i a) by left. destruct (body i a) as [a'|e]; simpl; [|done].
  apply IH. intros j b Hj. apply H. by right.
Qed.

Lemma forallb_range (ok : nat → bool) n :
  forallb ok (range n) = true ↔ ∀ i, i < n → ok i = true.
Proof.
  rewrite forallb_forall. split.
  - intros H i Hi. apply H, list_elem_of_In, elem_of_range, Hi.
  - intros H i Hi. apply H. by apply list_elem_of_In, elem_of_range in Hi.
Qed.

Lemma device_pass_returned w i data :
  returned (device_pass w i data) = device_answers w i.
Proof.
  unfold device_pass, device_answers, getattr, index.
  destruct (nvmlDeviceGetHandleByIndex w i) as [h|]; [|done].
  cbn [mbind Result_bind].
  destruct (nvmlDeviceGetName w h) as [name|]; [|done].
  cbn [mbind Result_bind returned andb].
  destruct (nvmlDeviceGetBrand w h) as [brand|]; [|done].
  cbn [mbind Result_bind].
  destruct (brands !! brand) as [b|] eqn:Hb.
  - apply lookup_lt_Some in Hb. apply Nat.ltb_lt in Hb. rewrite Hb.
    cbn [mbind Result_bind andb].
    destruct (nvmlDeviceGetMemoryInfo w h) as [mem|]; [|done].
    cbn [catch mbind Result_bind returned].
    destruct (ecc_matrix w h) as [e|] eqn:Hecc; [|done]. cbn [catch].
    apply ecc_matrix_Ok in Hecc as (vc & vu & _ & _ & ->).
    by rewrite (pack_ecc_final vc vu (str i) ecc_slots _ (ecc_entry_final vc vu)).
  - apply lookup_ge_None in Hb. apply Nat.ltb_ge in Hb. by rewrite Hb.
Qed.

Lemma unit_pass_returned w i data :
  returned (unit_pass w i data) = returned (nvmlUnitGetHandleByIndex w i).
Proof. unfold unit_pass. by destruct (nvmlUnitGetHandleByIndex w i). Qed.

Lemma primary_returned_iff w self :
  returned (primary w self) = true ↔
  (∀ i, i < deviceCount self → device_answers w i = true) ∧
  (∀ i, i < unitCount self →
        returned (nvmlUnitGetHandleByIndex w i) = true).
Proof.
  unfold primary. rewrite <- !forallb_range.
  rewrite <- (for_each_returned _ (device_pass w) _
                (λ i a _, device_pass_returned w i a) ∅).
  destruct (for_each (range (deviceCount self)) (device_pass w) ∅) as [d|];
    simpl; [|naive_solver].
  rewrite (for_each_returned _ (unit_pass w) _
             (λ i a _, unit_pass_returned w i a) d).
  naive_solver.
Qed.

(** X1: a collection cycle outside legacy mode returns a snapshot exactly
    when, for every device, the handle, the name and the brand are
    answered, the brand is one of the seven of line 262 and the memory query
    answers, and for every unit the handle is answered; in legacy mode
    these are still necessary. *)
Theorem collection_returns_iff w self :
  (returned (_get_data w self).2 = true →
   (∀ i, i < deviceCount self → device_answers w i = true) ∧
   (∀ i, i < unitCount self →
         returned (nvmlUnitGetHandleByIndex w i) = true)) ∧
  (truthy (legacy self) = false →
   (∀ i, i < deviceCount self → device_answers w i = true) →
   (∀ i, i < unitCount self →
         returned (nvmlUnitGetHandleByIndex w i) = true) →
   returned (_get_data w self).2 = true).
Proof.
  split.
  - intros H. apply primary_returned_iff. unfold _get_data in H.
    by destruct (primary w self).
  - intros Hleg Hd Hu. rewrite _get_data_legacy_off by done. simpl.
    by apply primary_returned_iff.
Qed.

(** X2: the ECC retrieval of a device succeeds exactly when all twenty
    counter queries of the loops return. *)
Theorem ecc_retrieval_is_atomic w h :
  returned (ecc_matrix w h) = true ↔
  ∀ memError eccCounter memoryLocation,
    memError < 2 → eccCounter < 2 → memoryLocation < 5 →
    returned (nvmlDeviceGetMemoryErrorCounter w h memError eccCounter
                memoryLocation) = true.
Proof. rewrite ecc_matrix_returned. apply ecc_queries_all. Qed.

(** ** The values of a snapshot *)

(** What the pass over device [i] stores under one of its keys is what the
    pass over the library returns under it. *)
Lemma primary_device_entry w self data i p v :
  primary w self = Ok data → i < deviceCount self →
  p ∈ device_slots ++ ecc_slots.*1 →
  (∀ a a', device_pass w i a = Ok a' → a' !! (p +:+ str i) = v) →
  data !! (p +:+ str i) = v.
Proof.
  intros H Hi Hp Hpass. apply primary_Ok in H as (data1 & H1 & H2).
  assert (p ∈ all_slots) as Hall.
  { unfold all_slots. rewrite (assoc_L (++)). apply elem_of_app. by left. }
  assert (data1 !! (p +:+ str i) = v) as Hd1.
  { eapply (for_each_establish (λ d, d !! _ = v) _ _ i); [| | |exact H1].
    - by apply elem_of_range.
    - exact Hpass.
    - intros j a a' Hj Ha Hj'. erewrite device_pass_frame; [done..|].
      intros Hin. by apply key_in_device_keys in Hin as [? _]. }
  eapply (for_each_inv (λ d, d !! _ = v)); [|exact Hd1|exact H2].
  intros j a a' _ Ha Hj. erewrite unit_pass_frame; [done..|].
  intros Hin. apply key_in_slot_keys in Hin as [Hin _];
    [|done|apply unit_slots_all].
  apply elem_of_app in Hp as [Hp|Hp].
  - by eapply device_not_unit.
  - by eapply ecc_not_unit.
Qed.

(** The same for a unit. *)
Lemma primary_unit_entry w self data i p v :
  primary w self = Ok data → i < unitCount self → p ∈ unit_slots →
  (∀ a a', unit_pass w i a = Ok a' → a' !! (p +:+ str i) = v) →
  data !! (p +:+ str i) = v.
Proof.
  intros H Hi Hp Hpass. apply primary_Ok in H as (data1 & H1 & H2).
  eapply (for_each_establish (λ d, d !! _ = v) _ _ i); [| | |exact H2].
  - by apply elem_of_range.
  - exact Hpass.
  - intros j a a' Hj Ha Hj'. erewrite unit_pass_frame; [done..|].
    intros Hin. apply key_in_slot_keys in Hin as [_ ->];
      [done|by apply unit_slots_all|apply unit_slots_all].
Qed.

Ltac lookup_slot :=
  repeat (rewrite lookup_insert_ne by (apply differ_app; reflexivity));
  apply lookup_insert_eq.

Lemma device_base_entries w h i name mem data :
  let d := device_base w h i name mem data in
  d !! ("device_name_" +:+ str i) = Some (VStr name) ∧
  d !! ("device_temp_" +:+ str i)
  = Some (of_option (catch (nvmlDeviceGetTemperature w h))) ∧
  d !! ("device_mem_total_" +:+ str i) = Some (VInt (mem_total mem)) ∧
  d !! ("device_mem_used_" +:+ str i) = Some (VInt (mem_used mem)) ∧
  d !! ("device_mem_free_" +:+ str i) = Some (VInt (mem_free mem)) ∧
  d !! ("device_util_gpu_" +:+ str i)
  = Some (of_option (util_gpu <$> catch (nvmlDeviceGetUtilizationRates w h))) ∧
  d !! ("device_util_mem_" +:+ str i)
  = Some (of_option (util_memory <$> catch (nvmlDeviceGetUtilizationRates w h))) ∧
  d !! ("device_util_pcie_tx_" +:+ str i)
  = Some (of_option (fst <$> pcie_throughput w h)) ∧
  d !! ("device_util_pcie_rx_" +:+ str i)
  = Some (of_option (snd <$> pcie_throughput w h)) ∧
  d !! ("device_fanspeed_" +:+ str i)
  = Some (of_option (catch (nvmlDeviceGetFanSpeed w h))) ∧
  d !! ("device_power_" +:+ str i)
  = Some (of_option (catch (nvmlDeviceGetPowerUsage w h))).
Proof.
  unfold device_base, pcie_throughput. cbv zeta.
  repeat split; lookup_slot.
Qed.

(** The pass over device [i] leaves the entries of [device_base] under the
    eleven device keys. *)
Lemma device_pass_base w i a a' p :
  device_pass w i a = Ok a' → p ∈ device_slots →
  ∃ h name mem,
    nvmlDeviceGetHandleByIndex w i = Ok h ∧
    nvmlDeviceGetName w h = Ok name ∧
    nvmlDeviceGetMemoryInfo w h = Ok mem ∧
    a' !! (p +:+ str i) = device_base w h i name mem a !! (p +:+ str i).
Proof.
  intros H Hp. apply device_pass_Ok in H as (h & name & mem & Hh & Hn & Hm & H).
  exists h, name, mem. do 3 (split; [done|]).
  destruct (ecc_matrix w h).
  - destruct H as (vc & vu & _ & _ & ->). apply pack_final_frame.
    intros Hin. apply list_elem_of_fmap in Hin as (q & Heq & Hq).
    apply key_eq in Heq as [-> _];
      [|by apply device_slots_all|by apply ecc_slots_all].
    by eapply device_not_ecc.
  - subst a'. apply lookup_insert_ne. intros Heq.
    apply key_eq in Heq as [<- _];
      [|apply ecc_slots_all, ecc_first_ecc|by apply device_slots_all].
    eapply device_not_ecc; [done|apply ecc_first_ecc].
Qed.

(** A key of the snapshot that legacy mode does not recover holds what the
    pass over the library left. *)
Lemma _get_data_entry w self self' data data0 i p :
  _get_data w self = (self', Ok data) → primary w self = Ok data0 →
  p ∈ all_slots → p ∉ legacy_slots →
  data !! (p +:+ str i) = data0 !! (p +:+ str i).
Proof.
  intros H H0 Hp Hnl. apply _get_data_Ok in H as (data0' & H0' & Hfill).
  rewrite H0 in H0'. apply Ok_inj in H0' as <-.
  eapply fills_frame; [done|]. intros (j & _ & Hin).
  by apply key_in_slot_keys in Hin as [Hin _];
    [|done|intros q Hq; by apply device_slots_all, legacy_slots_device].
Qed.

(** A key that legacy mode recovers. *)
Lemma _get_data_recovered w self self' data data0 k v :
  _get_data w self = (self', Ok data) → primary w self = Ok data0 →
  data0 !! k = Some v →
  recovered (truthy (legacy self)) v (data !! k).
Proof.
  unfold _get_data. intros H H0 Hk. rewrite H0 in H.
  destruct (truthy (legacy self)).
  - destruct (legacy_fetch w).
    + injection H as _ H. apply legacy_loop_fills in H.
      destruct (H k) as [->|(_ & Hn & z & ->)]; [by left|right].
      rewrite Hk in Hn. injection Hn as ->. eauto.
    + injection H as _ <-. by left.
  - injection H as _ <-. by left.
Qed.

Lemma device_answers_Ok w i h :
  device_answers w i = true → nvmlDeviceGetHandleByIndex w i = Ok h →
  ∃ name mem, nvmlDeviceGetName w h = Ok name ∧
              nvmlDeviceGetMemoryInfo w h = Ok mem.
Proof.
  unfold device_answers. intros H Hh. rewrite Hh in H.
  destruct (nvmlDeviceGetName w h) as [name|]; [|done].
  destruct (nvmlDeviceGetMemoryInfo w h) as [mem|]; [eauto|].
  by rewrite andb_false_r in H.
Qed.

Lemma primary_answers w self data i h :
  primary w self = Ok data → i < deviceCount self →
  nvmlDeviceGetHandleByIndex w i = Ok h →
  ∃ name mem, nvmlDeviceGetName w h = Ok name ∧
              nvmlDeviceGetMemoryInfo w h = Ok mem.
Proof.
  intros H Hi Hh. eapply device_answers_Ok; [|done].
  apply (proj1 (primary_returned_iff w self)); [|done]. by rewrite H.
Qed.

Lemma primary_device_base w self data i h name mem p :
  primary w self = Ok data → i < deviceCount self →
  nvmlDeviceGetHandleByIndex w i = Ok h →
  nvmlDeviceGetName w h = Ok name → nvmlDeviceGetMemoryInfo w h = Ok mem →
  p ∈ device_slots →
  data !! (p +:+ str i) = device_base w h i name mem ∅ !! (p +:+ str i).
Proof.
  intros H Hi Hh Hn Hm Hp. apply (primary_device_entry w self); [done..| |].
  - apply elem_of_app. by left.
  - intros a a' Ha.
    destruct (device_pass_base _ _ _ _ p Ha Hp)
      as (h' & name' & mem' & Hh' & Hn' & Hm' & ->).
    rewrite Hh in Hh'. apply Ok_inj in Hh' as <-.
    rewrite Hn in Hn'. apply Ok_inj in Hn' as <-.
    rewrite Hm in Hm'. apply Ok_inj in Hm' as <-.
    pose proof (device_base_entries w h i name mem a) as A.
    pose proof (device_base_entries w h i name mem ∅) as B.
    cbv zeta in A, B.
    destruct A as (A1 & A2 & A3 & A4 & A5 & A6 & A7 & A8 & A9 & A10 & A11).
    destruct B as (B1 & B2 & B3 & B4 & B5 & B6 & B7 & B8 & B9 & B10 & B11).
    unfold device_slots in Hp.
    repeat (apply elem_of_cons in Hp as [->|Hp]; [congruence|]).
    by apply elem_of_nil in Hp.
Qed.

Ltac decide_slot :=
  match goal with
  | |- ?P => apply (bool_decide_unpack P); vm_compute; reflexivity
  end.

(** X3: in a snapshot that [_get_data] returns, the entries of a device other
    than the ECC counters hold the answers of their own queries: the name
    and the three memory figures as the library gave them; fan speed and
    power, or [None] where the query failed; the two PCIe throughputs, or
    [None] for both where one of the two queries failed; temperature and
    the two utilizations, or [None] where the query failed, or, in legacy
    mode only and only in place of [None], a number. *)
Theorem device_entries_hold_the_answers w self self' data i h :
  _get_data w self = (self', Ok data) → i < deviceCount self →
  nvmlDeviceGetHandleByIndex w i = Ok h →
  ∃ name mem,
    nvmlDeviceGetName w h = Ok name ∧
    nvmlDeviceGetMemoryInfo w h = Ok mem ∧
    data !! ("device_name_" +:+ str i) = Some (VStr name) ∧
    data !! ("device_mem_total_" +:+ str i) = Some (VInt (mem_total mem)) ∧
    data !! ("device_mem_used_" +:+ str i) = Some (VInt (mem_used mem)) ∧
    data !! ("device_mem_free_" +:+ str i) = Some (VInt (mem_free mem)) ∧
    data !! ("device_fanspeed_" +:+ str i)
    = Some (of_option (catch (nvmlDeviceGetFanSpeed w h))) ∧
    data !! ("device_power_" +:+ str i)
    = Some (of_option (catch (nvmlDeviceGetPowerUsage w h))) ∧
    data !! ("device_util_pcie_tx_" +:+ str i)
    = Some (of_option (fst <$> pcie_throughput w h)) ∧
    data !! ("device_util_pcie_rx_" +:+ str i)
    = Some (of_option (snd <$> pcie_throughput w h)) ∧
    recovered (truthy (legacy self))
      (of_option (catch (nvmlDeviceGetTemperature w h)))
      (data !! ("device_temp_" +:+ str i)) ∧
    recovered (truthy (legacy self))
      (of_option (util_gpu <$> catch (nvmlDeviceGetUtilizationRates w h)))
      (data !! ("device_util_gpu_" +:+ str i)) ∧
    recovered (truthy (legacy self))
      (of_option (util_memory <$> catch (nvmlDeviceGetUtilizationRates w h)))
      (data !! ("device_util_mem_" +:+ str i)).
Proof.
  intros H Hi Hh. pose proof H as H'.
  apply _get_data_Ok in H' as (data0 & H0 & _).
  destruct (primary_answers _ _ _ _ _ H0 Hi Hh) as (name & mem & Hn & Hm).
  exists name, mem. split; [done|]. split; [done|].
  pose proof (device_base_entries w h i name mem ∅) as B. cbv zeta in B.
  destruct B as (B1 & B2 & B3 & B4 & B5 & B6 & B7 & B8 & B9 & B10 & B11).
  assert (∀ p, p ∈ device_slots →
               data0 !! (p +:+ str i)
               = device_base w h i name mem ∅ !! (p +:+ str i)) as Hbase
    by (intros p; by apply (primary_device_base w self)).
  assert (∀ p, p ∈ device_slots → p ∉ legacy_slots →
               data !! (p +:+ str i)
               = device_base w h i name mem ∅ !! (p +:+ str i)) as Hkeep.
  { intros p Hp Hnl. rewrite <- Hbase by done.
    apply (_get_data_entry w self self'); [done..| |done].
    by apply device_slots_all. }
  assert (∀ p v, p ∈ device_slots →
               device_base w h i name mem ∅ !! (p +:+ str i) = Some v →
               recovered (truthy (legacy self)) v (data !! (p +:+ str i)))
    as Hrec.
  { intros p v Hp Hv. apply (_get_data_recovered w self self' data data0);
      [done..|]. by rewrite Hbase. }
  split; [rewrite <- B1; apply Hkeep; decide_slot|].
  split; [rewrite <- B3; apply Hkeep; decide_slot|].
  split.
  { destruct (Hrec "device_mem_used_" _ ltac:(decide_slot) B4)
      as [?|(_ & ? & _)]; done. }
  split; [rewrite <- B5; apply Hkeep; decide_slot|].
  split; [rewrite <- B10; apply Hkeep; decide_slot|].
  split; [rewrite <- B11; apply Hkeep; decide_slot|].
  split; [rewrite <- B8; apply Hkeep; decide_slot|].
  split; [rewrite <- B9; apply Hkeep; decide_slot|].
  split; [apply Hrec; [decide_slot|done]|].
  split; [apply Hrec; [decide_slot|done]|].
  apply Hrec; [decide_slot|done].
Qed.

Lemma device_entries_hold_the_answers_witness :
  snapshot_of (_get_data machine_ok (one_card false))
    !! ("device_fanspeed_" +:+ str 0)
  = Some (of_option (catch (nvmlDeviceGetFanSpeed machine_ok 0))).
Proof.
  assert (returned (_get_data machine_ok (one_card false)).2 = true) as Hret
    by (vm_compute; reflexivity).
  destruct (device_entries_hold_the_answers machine_ok (one_card false) _ _ 0 0
              (_get_data_returned _ _ Hret) (le_n 1) eq_refl)
    as (name & mem & _ & _ & _ & _ & _ & _ & H & _).
  exact H.
Defined.

Lemma unit_pass_entries w i a a' h :
  unit_pass w i a = Ok a' → nvmlUnitGetHandleByIndex w i = Ok h →
  a' !! ("unit_fan_speed_" +:+ str i)
  = Some (of_option (fan_speed <$> catch (nvmlUnitGetFanSpeedInfo w h))) ∧
  a' !! ("unit_fan_state_" +:+ str i)
  = Some (of_option (fan_state <$> catch (nvmlUnitGetFanSpeedInfo w h))) ∧
  a' !! ("unit_psu_current_" +:+ str i)
  = Some (of_option (psu_current <$> catch (nvmlUnitGetPsuInfo w h))) ∧
  a' !! ("unit_psu_power_" +:+ str i)
  = Some (of_option (psu_power <$> catch (nvmlUnitGetPsuInfo w h))) ∧
  a' !! ("unit_psu_state_" +:+ str i)
  = Some (default VNone (psu_state <$> catch (nvmlUnitGetPsuInfo w h))) ∧
  a' !! ("unit_psu_voltage_" +:+ str i)
  = Some (of_option (psu_voltage <$> catch (nvmlUnitGetPsuInfo w h))) ∧
  a' !! ("unit_temp_intake_" +:+ str i)
  = Some (of_option ((λ t, t.1.1) <$> unit_temperatures w h)) ∧
  a' !! ("unit_temp_exhaust_" +:+ str i)
  = Some (of_option ((λ t, t.1.2) <$> unit_temperatures w h)) ∧
  a' !! ("unit_temp_board_" +:+ str i)
  = Some (of_option ((λ t, t.2) <$> unit_temperatures w h)).
Proof.
  unfold unit_pass, unit_temperatures. intros H Hh. rewrite Hh in H.
  cbn [mbind Result_bind] in H. cbv zeta in H. apply Ok_inj in H. subst a'.
  repeat split; lookup_slot.
Qed.

(** X4: in a snapshot that [_get_data] returns, the nine entries of a unit
    hold the answers of their own queries, or [None] where the query
    failed: the two fan entries go with the fan query, the four power supply
    entries with the power supply query, and the three temperatures are
    [None] together as soon as one of the three temperature queries
    fails. *)
Theorem unit_entries_hold_the_answers w self self' data i h :
  _get_data w self = (self', Ok data) → i < unitCount self →
  nvmlUnitGetHandleByIndex w i = Ok h →
  data !! ("unit_fan_speed_" +:+ str i)
  = Some (of_option (fan_speed <$> catch (nvmlUnitGetFanSpeedInfo w h))) ∧
  data !! ("unit_fan_state_" +:+ str i)
  = Some (of_option (fan_state <$> catch (nvmlUnitGetFanSpeedInfo w h))) ∧
  data !! ("unit_psu_current_" +:+ str i)
  = Some (of_option (psu_current <$> catch (nvmlUnitGetPsuInfo w h))) ∧
  data !! ("unit_psu_power_" +:+ str i)
  = Some (of_option (psu_power <$> catch (nvmlUnitGetPsuInfo w h))) ∧
  data !! ("unit_psu_state_" +:+ str i)
  = Some (default VNone (psu_state <$> catch (nvmlUnitGetPsuInfo w h))) ∧
  data !! ("unit_psu_voltage_" +:+ str i)
  = Some (of_option (psu_voltage <$> catch (nvmlUnitGetPsuInfo w h))) ∧
  data !! ("unit_temp_intake_" +:+ str i)
  = Some (of_option ((λ t, t.1.1) <$> unit_temperatures w h)) ∧
  data !! ("unit_temp_exhaust_" +:+ str i)
  = Some (of_option ((λ t, t.1.2) <$> unit_temperatures w h)) ∧
  data !! ("unit_temp_board_" +:+ str i)
  = Some (of_option ((λ t, t.2) <$> unit_temperatures w h)) ∧
  (unit_temperatures w h = None ↔
   ∃ k, k < 3 ∧ returned (nvmlUnitGetTemperature w h k) = false).
Proof.
  intros H Hi Hh. pose proof H as H'.
  apply _get_data_Ok in H' as (data0 & H0 & _).
  assert (∀ p v, p ∈ unit_slots →
            (∀ a a', unit_pass w i a = Ok a' → a' !! (p +:+ str i) = v) →
            data !! (p +:+ str i) = v) as Hentry.
  { intros p v Hp Hv.
    rewrite (_get_data_entry w self self' data data0); [|done..| |].
    - by apply (primary_unit_entry w self).
    - by apply unit_slots_all.
    - intros Hl. apply legacy_slots_device in Hl.
      by eapply device_not_unit. }
  do 9 (split; [apply Hentry; [decide_slot|];
                intros a a' Ha; apply (unit_pass_entries _ _ _ _ _ Ha Hh)|]).
  unfold unit_temperatures. split.
  - intros Hnone.
    destruct (nvmlUnitGetTemperature w h 0) eqn:E0; [|exists 0; split; [lia|by rewrite E0]].
    destruct (nvmlUnitGetTemperature w h 1) eqn:E1; [|exists 1; split; [lia|by rewrite E1]].
    destruct (nvmlUnitGetTemperature w h 2) eqn:E2; [|exists 2; split; [lia|by rewrite E2]].
    done.
  - intros (k & Hk & Hret).
    destruct k as [|[|[|k]]]; [| | |lia];
      destruct (nvmlUnitGetTemperature w h 0);
      destruct (nvmlUnitGetTemperature w h 1);
      destruct (nvmlUnitGetTemperature w h 2); done.
Qed.

Lemma unit_entries_hold_the_answers_witness :
  snapshot_of (_get_data machine_units (set_counts 2 1 (fresh ∅)))
    !! ("unit_psu_power_" +:+ str 1)
  = Some (of_option (psu_power <$> catch (nvmlUnitGetPsuInfo machine_units 1))).
Proof.
  assert (returned (_get_data machine_units (set_counts 2 1 (fresh ∅))).2
          = true) as Hret by (vm_compute; reflexivity).
  destruct (unit_entries_hold_the_answers machine_units
              (set_counts 2 1 (fresh ∅)) _ _ 1 1
              (_get_data_returned _ _ Hret) (le_n 2) eq_refl)
    as (_ & _ & _ & H & _).
  exact H.
Defined.

(** ** The ECC entries of a snapshot *)

Lemma ecc_slots_NoDup : NoDup ecc_slots.*1.
Proof.
  pose proof all_slots_NoDup as H. unfold all_slots in H.
  apply NoDup_app in H as (_ & _ & H). by apply NoDup_app in H as (H & _ & _).
Qed.

(** Twenty insertions under twenty keys: each key holds the value of its own
    slot. *)
Lemma pack_final_lookup vc vu i slots data key x :
  NoDup slots.*1 → slots.*1 ⊆ all_slots → (key, x) ∈ slots →
  pack_final vc vu (str i) slots data !! (key +:+ str i)
  = Some (ecc_value vc vu x.2).
Proof.
  revert data. induction slots as [|s slots IH]; intros data Hnd Hsub Hin.
  { by apply elem_of_nil in Hin. }
  apply NoDup_cons in Hnd as [Hs Hnd].
  apply elem_of_cons in Hin as [<-|Hin]; unfold pack_final; simpl.
  - fold (pack_final vc vu (str i) slots
            (<[key +:+ str i := ecc_value vc vu x.2]> data)).
    rewrite pack_final_frame; [apply lookup_insert_eq|].
    intros Hk. apply list_elem_of_fmap in Hk as (q & Heq & Hq).
    apply key_eq in Heq as [-> _]; [done| |].
    + apply Hsub. by left.
    + apply Hsub. by right.
  - apply IH; [done| |done]. intros q Hq. apply Hsub. by right.
Qed.

Lemma device_pass_ecc w i a a' h key x :
  device_pass w i a = Ok a' → nvmlDeviceGetHandleByIndex w i = Ok h →
  returned (ecc_matrix w h) = true → (key, x) ∈ ecc_slots →
  ∃ vc vu,
    nvmlDeviceGetMemoryErrorCounter w h 0 1 4 = Ok vc ∧
    nvmlDeviceGetMemoryErrorCounter w h 1 1 4 = Ok vu ∧
    a' !! (key +:+ str i) = Some (ecc_value vc vu x.2).
Proof.
  intros H Hh Hecc Hin.
  apply device_pass_Ok in H as (h' & name & mem & Hh' & _ & _ & H).
  rewrite Hh in Hh'. apply Ok_inj in Hh' as <-.
  destruct (ecc_matrix w h); [|done].
  destruct H as (vc & vu & Hc & Hu & ->). exists vc, vu.
  do 2 (split; [done|]).
  apply pack_final_lookup; [apply ecc_slots_NoDup|apply ecc_slots_all|done].
Qed.

(** X5: in a snapshot that [_get_data] returns, all twenty ECC entries of a
    device whose ECC retrieval succeeded hold one pair of counters: the
    corrected and the uncorrected count that the last pass of the loops
    read, the aggregate counters of the texture memory
    (eccCounter 1, memoryLocation 4), whatever location and counter type
    the key names. *)
Theorem ecc_entries_hold_one_pair w self self' data i h :
  _get_data w self = (self', Ok data) → i < deviceCount self →
  nvmlDeviceGetHandleByIndex w i = Ok h →
  returned (ecc_matrix w h) = true →
  ∃ vc vu,
    nvmlDeviceGetMemoryErrorCounter w h 0 1 4 = Ok vc ∧
    nvmlDeviceGetMemoryErrorCounter w h 1 1 4 = Ok vu ∧
    ∀ key loc counter err, (key, (loc, counter, err)) ∈ ecc_slots →
      data !! (key +:+ str i)
      = Some (VInt (if String.eqb err "ERROR_TYPE_CORRECTED"
                    then vc else vu)).
Proof.
  intros H Hi Hh Hecc. pose proof H as H'.
  apply _get_data_Ok in H' as (data0 & H0 & _).
  destruct (ecc_matrix w h) as [e|] eqn:He; [|done].
  destruct (ecc_matrix_Ok _ _ _ He) as (vc & vu & Hc & Hu & _).
  exists vc, vu. do 2 (split; [done|]).
  intros key loc counter err Hin.
  assert (key ∈ ecc_slots.*1) as Hkey.
  { apply list_elem_of_fmap. by exists (key, (loc, counter, err)). }
  rewrite (_get_data_entry w self self' data data0); [|done|done| |].
  - apply (primary_device_entry w self); [done..| |].
    + apply elem_of_app. by right.
    + intros a a' Ha.
      destruct (device_pass_ecc _ _ _ _ _ _ _ Ha Hh
                  ltac:(by rewrite He) Hin)
        as (vc' & vu' & Hc' & Hu' & ->).
      rewrite Hc in Hc'. apply Ok_inj in Hc' as <-.
      rewrite Hu in Hu'. by apply Ok_inj in Hu' as <-.
  - by apply ecc_slots_all.
  - intros Hl. apply legacy_slots_device in Hl. by eapply device_not_ecc.
Qed.

Lemma ecc_entries_hold_one_pair_witness :
  ∃ vc vu,
    nvmlDeviceGetMemoryErrorCounter machine_ok 0 0 1 4 = Ok vc ∧
    nvmlDeviceGetMemoryErrorCounter machine_ok 0 1 1 4 = Ok vu ∧
    ∀ key loc counter err, (key, (loc, counter, err)) ∈ ecc_slots →
      snapshot_of (_get_data machine_ok (one_card false)) !! (key +:+ str 0)
      = Some (VInt (if String.eqb err "ERROR_TYPE_CORRECTED"
                    then vc else vu)).
Proof.
  assert (returned (_get_data machine_ok (one_card false)).2 = true) as Hret
    by (vm_compute; reflexivity).
  assert (returned (ecc_matrix machine_ok 0) = true) as Hecc
    by (vm_compute; reflexivity).
  exact (ecc_entries_hold_one_pair machine_ok (one_card false) _ _ 0 0
           (_get_data_returned _ _ Hret) (le_n 1) eq_refl Hecc).
Defined.

(** ** Legacy mode *)

Lemma legacy_fetch_returned w :
  returned (legacy_fetch w) = negb (fetch_fails w).
Proof.
  unfold legacy_fetch, fetch_fails.
  destruct (Popen_communicate w) as [[output error]|]; [|done]. simpl.
  by destruct (String.length (repr_str w output) <? 800).
Qed.

(** X6: a collection cycle changes nothing of the service but [legacy]; it
    changes [legacy] exactly when legacy mode is on, the pass over the
    library returned and [nvidia-settings] could not be run or
    [repr(str(output))] of what it printed has fewer than 800 characters
    (the test of line 472 is on that text, which is longer than the output
    itself); [legacy] is [False] then and the cycle returns what the pass
    over the library gave.  An exception of the legacy loop leaves legacy
    mode on. *)
Theorem legacy_is_switched_off_iff w self :
  (_get_data w self).1 = set_legacy (legacy (_get_data w self).1) self ∧
  (legacy (_get_data w self).1 ≠ legacy self ↔
   truthy (legacy self) = true ∧ returned (primary w self) = true ∧
   fetch_fails w = true) ∧
  (legacy (_get_data w self).1 ≠ legacy self →
   legacy (_get_data w self).1 = VBool false ∧
   (_get_data w self).2 = primary w self).
Proof.
  pose proof (legacy_fetch_returned w) as Hf. unfold _get_data.
  destruct (primary w self) as [data0|]; simpl.
  - destruct (truthy (legacy self)) eqn:Hl; simpl.
    + destruct (legacy_fetch w); simpl in *.
      * apply (f_equal negb) in Hf. rewrite negb_involutive in Hf.
        simpl in Hf. rewrite <- Hf. by destruct self; naive_solver.
      * apply (f_equal negb) in Hf. rewrite negb_involutive in Hf.
        simpl in Hf. rewrite <- Hf. split; [done|]. split; [|done].
        split; [done|]. intros _ Heq. by rewrite <- Heq in Hl.
    + by destruct self; naive_solver.
  - by destruct self; naive_solver.
Qed.

(** ** What the legacy loop recovers *)

Lemma legacy_field_entry w output i key pattern group data data' :
  legacy_field w output i key pattern group data = Ok data' →
  ∃ v, data !! key = Some v ∧
       if is_None v
       then ∃ s, capture w output i pattern group = Some s ∧
                 data' !! key = Some (recovered_from w s)
       else data' !! key = Some v.
Proof.
  unfold legacy_field, getitem, capture, recovered_from, index. intros H.
  destruct (data !! key) as [v|] eqn:Hv; [|discriminate H].
  exists v. split; [done|]. cbn [mbind Result_bind] in H.
  destruct (is_None v) eqn:HN.
  - destruct (findall w pattern output !! i) as [m|]; [|discriminate H].
    cbn [mbind Result_bind option_bind] in *.
    destruct (m !! group) as [s|]; [|discriminate H].
    cbn [mbind Result_bind] in H. exists s. split; [done|].
    destruct (int w s) as [z|]; apply Ok_inj in H; subst data'.
    + apply lookup_insert_eq.
    + by destruct v.
  - apply Ok_inj in H. by subst data'.
Qed.

Lemma legacy_field_frame w output i key pattern group data data' k :
  legacy_field w output i key pattern group data = Ok data' → k ≠ key →
  data' !! k = data !! k.
Proof.
  intros H Hk. apply legacy_field_fills in H. by eapply fills_frame.
Qed.

Lemma legacy_pass_entry w output i data data' p pattern group :
  legacy_pass w output i data = Ok data' →
  (p, (pattern, group)) ∈ legacy_patterns →
  ∃ v, data !! (p +:+ str i) = Some v ∧
       if is_None v
       then ∃ s, capture w output i pattern group = Some s ∧
                 data' !! (p +:+ str i) = Some (recovered_from w s)
       else data' !! (p +:+ str i) = Some v.
Proof.
  unfold legacy_pass. intros H Hin.
  apply bind_Ok in H as (d1 & H1 & H). apply bind_Ok in H as (d2 & H2 & H).
  apply bind_Ok in H as (d3 & H3 & H4).
  pose proof (legacy_field_frame _ _ _ _ _ _ _ _ (p +:+ str i) H1) as F1.
  pose proof (legacy_field_frame _ _ _ _ _ _ _ _ (p +:+ str i) H2) as F2.
  pose proof (legacy_field_frame _ _ _ _ _ _ _ _ (p +:+ str i) H3) as F3.
  pose proof (legacy_field_frame _ _ _ _ _ _ _ _ (p +:+ str i) H4) as F4.
  unfold legacy_patterns in Hin.
  repeat (apply elem_of_cons in Hin as [Hin|Hin]);
    [..|by apply elem_of_nil in Hin];
    injection Hin as -> -> ->.
  - apply legacy_field_entry in H1 as (v & Hv & H1). exists v.
    split; [done|].
    rewrite F4, F3, F2 by (apply differ_app; reflexivity). exact H1.
  - apply legacy_field_entry in H2 as (v & Hv & H2). exists v.
    rewrite F1 in Hv by (apply differ_app; reflexivity). split; [done|].
    rewrite F4, F3 by (apply differ_app; reflexivity). exact H2.
  - apply legacy_field_entry in H3 as (v & Hv & H3). exists v.
    rewrite F2, F1 in Hv by (apply differ_app; reflexivity). split; [done|].
    rewrite F4 by (apply differ_app; reflexivity). exact H3.
  - apply legacy_field_entry in H4 as (v & Hv & H4). exists v.
    rewrite F3, F2, F1 in Hv by (apply differ_app; reflexivity).
    by split.
Qed.

(** A loop whose passes other than that for [i] keep [Q]: the pass for [i]
    runs on a state that [Q] relates to the first, and leaves one that [Q]
    relates to the last. *)
Lemma for_each_at {A} (Q : A → A → Prop) l (body : nat → A → Result A) i :
  (∀ a, Q a a) → (∀ a b c, Q a b → Q b c → Q a c) →
  (∀ j a a', j ≠ i → body j a = Ok a' → Q a a') →
  NoDup l → i ∈ l →
  ∀ a a', for_each l body a = Ok a' →
  ∃ a1 a2, Q a a1 ∧ body i a1 = Ok a2 ∧ Q a2 a'.
Proof.
  intros Hrefl Htrans Hother. induction l as [|j l IH]; intros Hnd Hi a a' H.
  { by apply elem_of_nil in Hi. }
  apply NoDup_cons in Hnd as [Hj Hnd]. simpl in H.
  apply bind_Ok in H as (aj & Hbody & H).
  destruct (decide (j = i)) as [->|Hne].
  - exists a, aj. split; [done|]. split; [done|].
    eapply (for_each_rel Q); [done|done| |exact H].
    intros k b b' Hk. apply Hother. by intros ->.
  - apply elem_of_cons in Hi as [->|Hi]; [done|].
    destruct (IH Hnd Hi _ _ H) as (a1 & a2 & H1 & H2 & H3).
    exists a1, a2. split; [|done]. eapply Htrans; [|exact H1].
    by eapply Hother.
Qed.

Lemma legacy_pass_other w output i j p data data' :
  p ∈ legacy_slots → j ≠ i → legacy_pass w output j data = Ok data' →
  data' !! (p +:+ str i) = data !! (p +:+ str i).
Proof.
  intros Hp Hne H. apply legacy_pass_fills in H.
  eapply fills_frame; [done|]. intros Hin.
  apply key_in_slot_keys in Hin as [_ ->]; [done| |].
  - by apply device_slots_all, legacy_slots_device.
  - intros q Hq. by apply device_slots_all, legacy_slots_device.
Qed.

Lemma legacy_patterns_slots p x :
  (p, x) ∈ legacy_patterns → p ∈ legacy_slots.
Proof.
  unfold legacy_patterns, legacy_slots. intros Hin.
  repeat (apply elem_of_cons in Hin as [Hin|Hin]);
    [..|by apply elem_of_nil in Hin];
    injection Hin as -> _; set_solver.
Qed.

Lemma legacy_loop_entry w output n data data' i p pattern group :
  for_each (range n) (legacy_pass w output) data = Ok data' → i < n →
  (p, (pattern, group)) ∈ legacy_patterns →
  ∃ v, data !! (p +:+ str i) = Some v ∧
       if is_None v
       then ∃ s, capture w output i pattern group = Some s ∧
                 data' !! (p +:+ str i) = Some (recovered_from w s)
       else data' !! (p +:+ str i) = Some v.
Proof.
  intros H Hi Hin. pose proof (legacy_patterns_slots _ _ Hin) as Hp.
  destruct (for_each_at (λ d d', d' !! (p +:+ str i) = d !! (p +:+ str i))
              (range n) (legacy_pass w output) i) with (a := data) (a' := data')
    as (d1 & d2 & H1 & H2 & H3); try done.
  - intros a b c Hab Hbc. by rewrite Hbc.
  - intros j a a' Hj Ha. by eapply legacy_pass_other.
  - apply NoDup_seq.
  - by apply elem_of_range.
  - destruct (legacy_pass_entry _ _ _ _ _ _ _ _ H2 Hin) as (v & Hv & Hspec).
    exists v. rewrite <- H1. split; [done|]. by rewrite H3.
Qed.

(** X7: in legacy mode with a report of [nvidia-settings] whose
    [repr(str(output))] has 800 characters or more, a cycle that returns
    has, under each of the four keys of the legacy loop, what the pass over
    the library left there when that is not [None]; where it is [None], the
    pattern has a match for the device and the entry holds the number that
    the match reads as, or [None] when the text is not a number. *)
Theorem legacy_recovers_from_the_report w self self' data data0 out err i :
  truthy (legacy self) = true → primary w self = Ok data0 →
  Popen_communicate w = Ok (out, err) →
  800 ≤ String.length (repr_str w out) →
  _get_data w self = (self', Ok data) → i < deviceCount self →
  self' = self ∧
  ∀ p pattern group, (p, (pattern, group)) ∈ legacy_patterns →
    ∃ v, data0 !! (p +:+ str i) = Some v ∧
         if is_None v
         then ∃ s, capture w (repr_str w out) i pattern group = Some s ∧
                   data !! (p +:+ str i) = Some (recovered_from w s)
         else data !! (p +:+ str i) = Some v.
Proof.
  unfold _get_data, legacy_fetch. intros -> -> -> Hlen H Hi.
  apply Nat.ltb_ge in Hlen. simpl in H. rewrite Hlen in H.
  injection H as <- H. split; [done|]. intros p pattern group Hin.
  by eapply legacy_loop_entry.
Qed.

Lemma legacy_recovers_from_the_report_witness :
  ∃ v, default ∅ (catch (primary machine_legacy (one_card true)))
         !! ("device_temp_" +:+ str 0) = Some v ∧
       if is_None v
       then ∃ s, capture machine_legacy (repr_str machine_legacy (xs 800)) 0
                   "GPUCoreTemp.*?(gpu:\d*).*?\s(\d*)" 1 = Some s ∧
                 snapshot_of (_get_data machine_legacy (one_card true))
                   !! ("device_temp_" +:+ str 0)
                 = Some (recovered_from machine_legacy s)
       else snapshot_of (_get_data machine_legacy (one_card true))
              !! ("device_temp_" +:+ str 0) = Some v.
Proof.
  assert (returned (_get_data machine_legacy (one_card true)).2 = true)
    as Hret by (vm_compute; reflexivity).
  assert (returned (primary machine_legacy (one_card true)) = true)
    as Hprim by (vm_compute; reflexivity).
  assert (800 ≤ String.length (repr_str machine_legacy (xs 800))) as Hlen
    by (apply Nat.leb_le; vm_compute; reflexivity).
  exact (proj2 (legacy_recovers_from_the_report machine_legacy (one_card true)
                  _ _ _ (xs 800) EmptyString 0 eq_refl
                  (primary_returned _ _ Hprim) eq_refl Hlen
                  (_get_data_returned _ _ Hret) (le_n 1))
           "device_temp_" "GPUCoreTemp.*?(gpu:\d*).*?\s(\d*)" 1
           (list_elem_of_here _ _)).
Defined.

(** ** When the legacy loop returns *)

Lemma legacy_field_run w output i key pattern group data v :
  data !! key = Some v →
  (v = VNone → is_Some (capture w output i pattern group)) →
  ∃ data', legacy_field w output i key pattern group data = Ok data'.
Proof.
  unfold legacy_field, getitem, capture, index. intros -> Hcap.
  cbn [mbind Result_bind]. destruct v; cbn [is_None]; eauto.
  destruct Hcap as [s Hs]; [done|].
  destruct (findall w pattern output !! i) as [m|]; [|done].
  cbn [mbind Result_bind option_bind] in *. rewrite Hs.
  cbn [mbind Result_bind]. destruct (int w s); eauto.
Qed.

Lemma legacy_pass_run w output i data :
  (∀ p pattern group, (p, (pattern, group)) ∈ legacy_patterns →
     ∃ v, data !! (p +:+ str i) = Some v ∧
          (v = VNone → is_Some (capture w output i pattern group))) →
  ∃ data', legacy_pass w output i data = Ok data'.
Proof.
  intros H. unfold legacy_pass.
  destruct (H "device_temp_" _ _ ltac:(by left)) as (v1 & Hv1 & Hc1).
  destruct (legacy_field_run _ _ _ _ _ _ _ _ Hv1 Hc1) as [d1 H1].
  rewrite H1. cbn [mbind Result_bind].
  destruct (H "device_mem_used_" _ _ ltac:(right; by left))
    as (v2 & Hv2 & Hc2).
  rewrite <- (legacy_field_frame _ _ _ _ _ _ _ _ _ H1) in Hv2
    by (apply differ_app; reflexivity).
  destruct (legacy_field_run _ _ _ _ _ _ _ _ Hv2 Hc2) as [d2 H2].
  rewrite H2. cbn [mbind Result_bind].
  destruct (H "device_util_gpu_" _ _ ltac:(right; right; by left))
    as (v3 & Hv3 & Hc3).
  rewrite <- (legacy_field_frame _ _ _ _ _ _ _ _ _ H1) in Hv3
    by (apply differ_app; reflexivity).
  rewrite <- (legacy_field_frame _ _ _ _ _ _ _ _ _ H2) in Hv3
    by (apply differ_app; reflexivity).
  destruct (legacy_field_run _ _ _ _ _ _ _ _ Hv3 Hc3) as [d3 H3].
  rewrite H3. cbn [mbind Result_bind].
  destruct (H "device_util_mem_" _ _ ltac:(right; right; right; by left))
    as (v4 & Hv4 & Hc4).
  rewrite <- (legacy_field_frame _ _ _ _ _ _ _ _ _ H1) in Hv4
    by (apply differ_app; reflexivity).
  rewrite <- (legacy_field_frame _ _ _ _ _ _ _ _ _ H2) in Hv4
    by (apply differ_app; reflexivity).
  rewrite <- (legacy_field_frame _ _ _ _ _ _ _ _ _ H3) in Hv4
    by (apply differ_app; reflexivity).
  exact (legacy_field_run _ _ _ _ _ _ _ _ Hv4 Hc4).
Qed.

Lemma legacy_loop_run w output l data :
  NoDup l →
  (∀ i p pattern group, i ∈ l → (p, (pattern, group)) ∈ legacy_patterns →
     ∃ v, data !! (p +:+ str i) = Some v ∧
          (v = VNone → is_Some (capture w output i pattern group))) →
  ∃ data', for_each l (legacy_pass w output) data = Ok data'.
Proof.
  revert data. induction l as [|j l IH]; intros data Hnd H; [by eexists|].
  apply NoDup_cons in Hnd as [Hj Hnd]. simpl.
  destruct (legacy_pass_run w output j data) as [d Hd].
  { intros p pattern group Hin. apply H; [by left|done]. }
  rewrite Hd. cbn [mbind Result_bind]. apply IH; [done|].
  intros i p pattern group Hi Hin.
  rewrite (legacy_pass_other w output i j p data d);
    [apply H; [by right|done]|by eapply legacy_patterns_slots| |done].
  by intros ->.
Qed.

(** The pass over the library leaves an entry under every device key. *)
Lemma primary_device_key w self data i p :
  primary w self = Ok data → i < deviceCount self → p ∈ device_slots →
  is_Some (data !! (p +:+ str i)).
Proof.
  intros H Hi Hp. apply elem_of_dom. rewrite (primary_dom _ _ _ H).
  apply elem_of_snapshot_keys. left. exists i. split; [done|].
  unfold device_keys. apply elem_of_union. left.
  apply elem_of_slot_keys. by exists p.
Qed.

(** The legacy loop raises nothing but the [IndexError] of a missing
    match, on a snapshot that has the keys. *)
Lemma legacy_field_raise w output i key pattern group data e :
  is_Some (data !! key) →
  legacy_field w output i key pattern group data = Raise e → e = IndexError.
Proof.
  intros [v Hv]. unfold legacy_field, getitem, index.
  rewrite Hv. cbn [mbind Result_bind]. destruct (is_None v); [|done].
  destruct (findall w pattern output !! i) as [m|];
    cbn [mbind Result_bind]; [|congruence].
  destruct (m !! group) as [s|]; cbn [mbind Result_bind]; [|congruence].
  by destruct (int w s).
Qed.

Lemma legacy_field_is_Some w output i key pattern group data data' k :
  legacy_field w output i key pattern group data = Ok data' →
  is_Some (data !! k) → is_Some (data' !! k).
Proof.
  intros H. apply legacy_field_fills, fills_dom in H.
  rewrite <- !elem_of_dom. by rewrite H.
Qed.

Lemma legacy_pass_raise w output j data e :
  (∀ p, p ∈ legacy_slots → is_Some (data !! (p +:+ str j))) →
  legacy_pass w output j data = Raise e → e = IndexError.
Proof.
  intros Hkeys. unfold legacy_pass.
  pose proof (Hkeys "device_temp_" ltac:(set_solver)) as K1.
  pose proof (Hkeys "device_mem_used_" ltac:(set_solver)) as K2.
  pose proof (Hkeys "device_util_gpu_" ltac:(set_solver)) as K3.
  pose proof (Hkeys "device_util_mem_" ltac:(set_solver)) as K4.
  destruct (legacy_field w output j ("device_temp_" +:+ str j) _ _ data)
    as [d1|e1] eqn:H1; cbn [mbind Result_bind];
    [|intros [= <-]; exact (legacy_field_raise _ _ _ _ _ _ _ _ K1 H1)].
  apply (legacy_field_is_Some _ _ _ _ _ _ _ _ _ H1) in K2, K3, K4.
  destruct (legacy_field w output j ("device_mem_used_" +:+ str j) _ _ d1)
    as [d2|e2] eqn:H2; cbn [mbind Result_bind];
    [|intros [= <-]; exact (legacy_field_raise _ _ _ _ _ _ _ _ K2 H2)].
  apply (legacy_field_is_Some _ _ _ _ _ _ _ _ _ H2) in K3, K4.
  destruct (legacy_field w output j ("device_util_gpu_" +:+ str j) _ _ d2)
    as [d3|e3] eqn:H3; cbn [mbind Result_bind];
    [|intros [= <-]; exact (legacy_field_raise _ _ _ _ _ _ _ _ K3 H3)].
  apply (legacy_field_is_Some _ _ _ _ _ _ _ _ _ H3) in K4.
  intros H4. exact (legacy_field_raise _ _ _ _ _ _ _ _ K4 H4).
Qed.

Lemma legacy_loop_raise w output l data e :
  (∀ i p, i ∈ l → p ∈ legacy_slots → is_Some (data !! (p +:+ str i))) →
  for_each l (legacy_pass w output) data = Raise e → e = IndexError.
Proof.
  revert data. induction l as [|j l IH]; intros data Hkeys H; [done|].
  simpl in H. destruct (legacy_pass w output j data) as [d|e'] eqn:Hj.
  - eapply IH; [|exact H]. intros i p Hi Hp.
    apply legacy_pass_fills, fills_dom in Hj.
    apply elem_of_dom. rewrite Hj. apply elem_of_dom, Hkeys; [by right|done].
  - cbn [mbind Result_bind] in H. injection H as <-.
    eapply legacy_pass_raise; [|exact Hj]. intros p Hp.
    apply Hkeys; [by left|done].
Qed.

(** X8: in legacy mode with a report of [nvidia-settings] whose
    [repr(str(output))] has 800 characters or more, the cycle returns a
    snapshot exactly when the pattern of every entry of the legacy loop
    that the pass over the library left [None] has a match with the group
    for the device; otherwise the [IndexError] of the subscript, which no
    [try] guards, ends the cycle. *)
Theorem legacy_collection_returns_iff w self data0 out err :
  truthy (legacy self) = true → primary w self = Ok data0 →
  Popen_communicate w = Ok (out, err) →
  800 ≤ String.length (repr_str w out) →
  (returned (_get_data w self).2 = true ↔
   ∀ i p pattern group,
     i < deviceCount self → (p, (pattern, group)) ∈ legacy_patterns →
     data0 !! (p +:+ str i) = Some VNone →
     is_Some (capture w (repr_str w out) i pattern group)) ∧
  (returned (_get_data w self).2 = false →
   (_get_data w self).2 = Raise IndexError).
Proof.
  intros Hl H0 Hp Hlen.
  assert (_get_data w self
          = (self, for_each (range (deviceCount self))
                     (legacy_pass w (repr_str w out)) data0)) as ->.
  { unfold _get_data, legacy_fetch. rewrite Hl, H0, Hp.
    apply Nat.ltb_ge in Hlen. simpl. by rewrite Hlen. }
  simpl. split; [split|].
  - intros Hret i p pattern group Hi Hin Hnone.
    destruct (for_each _ _ data0) as [data|] eqn:H; [|done].
    destruct (legacy_loop_entry _ _ _ _ _ _ _ _ _ H Hi Hin)
      as (v & Hv & Hspec).
    rewrite Hnone in Hv. injection Hv as <-. simpl in Hspec.
    destruct Hspec as (s & -> & _). by eexists.
  - intros H.
    destruct (legacy_loop_run w (repr_str w out)
                (range (deviceCount self)) data0) as [data ->];
      [apply NoDup_seq| |done].
    intros i p pattern group Hi Hin. apply elem_of_range in Hi.
    destruct (primary_device_key w self data0 i p H0 Hi) as [v Hv].
    { by eapply legacy_slots_device, legacy_patterns_slots. }
    exists v. split; [done|]. intros ->. by eapply H.
  - intros Hret.
    destruct (for_each _ _ data0) as [data|e] eqn:H; [done|]. f_equal.
    eapply legacy_loop_raise; [|exact H]. intros i p Hi Hin.
    apply elem_of_range in Hi.
    by apply (primary_device_key w self), legacy_slots_device.
Qed.

Lemma legacy_collection_returns_iff_witness :
  (returned (_get_data machine_no_match (one_card true)).2 = true ↔
   ∀ i p pattern group,
     i < deviceCount (one_card true) →
     (p, (pattern, group)) ∈ legacy_patterns →
     default ∅ (catch (primary machine_no_match (one_card true)))
       !! (p +:+ str i) = Some VNone →
     is_Some (capture machine_no_match (repr_str machine_no_match (xs 800))
                i pattern group)) ∧
  (returned (_get_data machine_no_match (one_card true)).2 = false →
   (_get_data machine_no_match (one_card true)).2 = Raise IndexError).
Proof.
  assert (returned (primary machine_no_match (one_card true)) = true)
    as Hprim by (vm_compute; reflexivity).
  assert (800 ≤ String.length (repr_str machine_no_match (xs 800))) as Hlen
    by (apply Nat.leb_le; vm_compute; reflexivity).
  exact (legacy_collection_returns_iff machine_no_match (one_card true) _
           (xs 800) EmptyString eq_refl (primary_returned _ _ Hprim)
           eq_refl Hlen).
Defined.

(** ** [check] runs through *)

Lemma runs_ret C : runs C (mret tt).
Proof. intros s Hs. by exists s. Qed.

Lemma runs_bind C (m1 m2 : M unit) :
  runs C m1 → runs C m2 → runs C (m1 ≫= λ _, m2).
Proof.
  intros H1 H2 s Hs. destruct (H1 s Hs) as (s1 & E1 & Hs1).
  destruct (H2 s1 Hs1) as (s2 & E2 & Hs2). exists s2. split; [|done].
  by rewrite (bindM_run _ _ _ _ _ E1).
Qed.

Lemma runs_append_line C chart l : chart ∈ C → runs C (append_line chart l).
Proof.
  intros Hc s Hs. unfold append_line.
  destruct (definitions s !! chart) as [c|] eqn:E.
  - eexists. split; [done|]. simpl. rewrite dom_insert_L. set_solver.
  - apply not_elem_of_dom in E. set_solver.
Qed.

Lemma runs_append_lines C chart ls :
  chart ∈ C → runs C (append_lines chart ls).
Proof.
  intros Hc. induction ls as [|l ls IH]; [apply runs_ret|].
  simpl. apply runs_bind; [by apply runs_append_line|done].
Qed.

Lemma runs_set_chart C chart c : runs C (set_chart chart c).
Proof.
  intros s Hs. eexists. split; [done|]. simpl. rewrite dom_insert_L.
  set_solver.
Qed.

Lemma runs_order_append C chart : runs C (order_append chart).
Proof. intros s Hs. eexists. by split. Qed.

Lemma runs_if_present C data k body :
  is_Some (data !! k) → runs C body → runs C (if_present data k body).
Proof.
  intros [v Hv] H s Hs. rewrite (if_present_eq _ _ _ _ _ Hv).
  destruct (is_None v); [by exists s|by apply H].
Qed.

Lemma runs_for_eachM C l body :
  (∀ i, i ∈ l → runs C (body i)) → runs C (for_eachM l body).
Proof.
  induction l as [|i l IH]; intros H; [apply runs_ret|].
  simpl. apply runs_bind; [apply H; by left|].
  apply IH. intros j Hj. apply H. by right.
Qed.

Ltac chart_of_module :=
  apply elem_of_dom; vm_compute; eexists; reflexivity.

Lemma check_device_runs data i :
  (∀ p, p ∈ device_slots → is_Some (data !! (p +:+ str i))) →
  is_Some (data !! (ecc_first +:+ str i)) →
  runs (dom CHARTS) (check_device data i).
Proof.
  intros Hkeys Hecc. unfold check_device. cbv zeta.
  repeat (apply runs_bind); apply runs_if_present;
    first [ apply Hkeys; decide_slot
          | exact Hecc
          | apply runs_append_lines; chart_of_module
          | repeat (apply runs_bind); apply runs_append_line;
            chart_of_module ].
Qed.

Lemma check_unit_runs data i :
  (∀ p, p ∈ unit_slots → is_Some (data !! (p +:+ str i))) →
  runs (dom CHARTS) (check_unit data i).
Proof.
  intros Hkeys. unfold check_unit. cbv zeta.
  repeat (apply runs_bind); apply runs_if_present;
    first [ apply Hkeys; decide_slot
          | apply runs_set_chart
          | repeat (apply runs_bind); apply runs_append_line;
            chart_of_module ].
Qed.

Lemma card_names_run data n :
  (∀ i, i < n → is_Some (data !! ("device_name_" +:+ str i))) →
  ∃ name, card_names data n = Ok name.
Proof.
  intros H. unfold card_names.
  assert (∀ l (acc : string), (∀ i, i ∈ l → i < n) →
            ∃ name, for_each l (λ i name,
              v ← getitem data ("device_name_" +:+ str i);
              Ok (if decide (i = 0)
                  then name +:+ str_value v +:+ " [" +:+ str i +:+ "]"
                  else name +:+ " | " +:+ str_value v +:+ " [" +:+ str i
                       +:+ "]")) acc = Ok name) as Hloop.
  { induction l as [|i l IH]; intros acc Hl; [by eexists|].
    cbn [for_each]. destruct (H i) as [v Hv]; [apply Hl; by left|].
    assert (getitem data ("device_name_" +:+ str i) = Ok v) as ->
      by (unfold getitem; by rewrite Hv).
    cbn [mbind Result_bind]. apply IH. intros j Hj. apply Hl. by right. }
  apply Hloop. intros i Hi. by apply elem_of_range.
Qed.

(** The keys that [check] reads are in every snapshot of [_get_data]. *)
Lemma snapshot_device_key w self self' data i p :
  _get_data w self = (self', Ok data) → i < deviceCount self →
  p ∈ device_slots → is_Some (data !! (p +:+ str i)).
Proof.
  intros H Hi Hp. apply _get_data_Ok in H as (data0 & H0 & Hfill).
  apply elem_of_dom. rewrite (fills_dom _ _ _ Hfill). apply elem_of_dom.
  by apply (primary_device_key w self).
Qed.

Lemma snapshot_ecc_first w self self' data i :
  _get_data w self = (self', Ok data) → i < deviceCount self →
  is_Some (data !! (ecc_first +:+ str i)).
Proof.
  intros H Hi. apply _get_data_Ok in H as (data0 & H0 & Hfill).
  apply elem_of_dom. rewrite (fills_dom _ _ _ Hfill).
  rewrite (primary_dom _ _ _ H0).
  apply elem_of_snapshot_keys. left. exists i. split; [done|].
  unfold device_keys. apply elem_of_union. right.
  destruct (ecc_ok w i); [|set_solver].
  apply elem_of_slot_keys. exists ecc_first. split; [|done].
  apply ecc_first_ecc.
Qed.

Lemma snapshot_unit_key w self self' data i p :
  _get_data w self = (self', Ok data) → i < unitCount self →
  p ∈ unit_slots → is_Some (data !! (p +:+ str i)).
Proof.
  intros H Hi Hp. apply _get_data_Ok in H as (data0 & H0 & Hfill).
  apply elem_of_dom. rewrite (fills_dom _ _ _ Hfill).
  rewrite (primary_dom _ _ _ H0).
  apply elem_of_snapshot_keys. right. exists i. split; [done|].
  apply elem_of_slot_keys. by exists p.
Qed.

Lemma build_schema_run data s :
  dom CHARTS ⊆ dom (definitions s) →
  (∀ i p, i < deviceCount s → p ∈ device_slots →
          is_Some (data !! (p +:+ str i))) →
  (∀ i, i < deviceCount s → is_Some (data !! (ecc_first +:+ str i))) →
  (∀ i p, i < unitCount s → p ∈ unit_slots →
          is_Some (data !! (p +:+ str i))) →
  (build_schema data s).2 = Ok true.
Proof.
  intros Hc Hd He Hu. unfold build_schema.
  destruct (card_names_run data (deviceCount s)) as [name Hname].
  { intros i Hi. apply Hd; [done|decide_slot]. }
  rewrite (bindM_run _ _ s s name) by (unfold lift; by rewrite Hname).
  rewrite (bindM_run _ _ s _ tt) by reflexivity.
  destruct (runs_for_eachM (dom CHARTS) (range (deviceCount s))
              (check_device data)) with
    (s := set_definitions (retitle name <$> definitions s) s)
    as (s2 & E2 & Hs2).
  { intros i Hi. apply elem_of_range in Hi.
    apply check_device_runs; [intros p Hp; by apply Hd|by apply He]. }
  { simpl. by rewrite dom_fmap_L. }
  rewrite (bindM_run _ _ _ _ _ E2).
  assert (runs (dom CHARTS)
            (if negb (unitCount s =? 0)
             then (_ ← order_append "unit_fan"; _ ← order_append "unit_psu";
                   for_eachM (range (unitCount s)) (check_unit data))
             else mret tt)) as Hunits.
  { destruct (negb (unitCount s =? 0)); [|apply runs_ret].
    do 2 (apply runs_bind; [apply runs_order_append|]).
    apply runs_for_eachM. intros i Hi. apply elem_of_range in Hi.
    apply check_unit_runs. intros p Hp. by apply Hu. }
  destruct (Hunits s2 Hs2) as (s3 & E3 & _).
  by rewrite (bindM_run _ _ _ _ _ E3).
Qed.

Lemma handshake_Some w u d :
  handshake w = Some (u, d) ↔
  returned (_ ← nvmlInit w; nvmlSystemGetDriverVersion w) = true ∧
  nvmlUnitGetCount w = Ok u ∧ nvmlDeviceGetCount w = Ok d.
Proof.
  unfold handshake. destruct (nvmlInit w) as [[]|]; simpl; [|naive_solver].
  destruct (nvmlSystemGetDriverVersion w); simpl; [|naive_solver].
  destruct (nvmlUnitGetCount w); simpl; [|naive_solver].
  destruct (nvmlDeviceGetCount w); simpl; naive_solver.
Qed.

Lemma check_probe_failed w self :
  handshake w = None →
  (check_probe w self).2 = (_ ← nvmlShutdown w; Ok None) ∧
  order (check_probe w self).1 = order self ∧
  definitions (check_probe w self).1 = definitions self.
Proof.
  unfold handshake, check_probe.
  destruct (nvmlInit w) as [[]|]; simpl; [|done].
  destruct (nvmlSystemGetDriverVersion w); simpl; [|done].
  destruct (nvmlUnitGetCount w); simpl; [|done].
  by destruct (nvmlDeviceGetCount w).
Qed.

(** X9: when the library cannot be initialised, does not tell its driver
    version or one of the two counts, [check] collects nothing and calls
    [nvmlShutdown]: it returns [False] when that call returns, the
    exception of that call escapes otherwise, and the chart order and the
    chart definitions are as before.  [check] returns [False] in no other
    case. *)
Theorem failed_handshake_ends_check w self :
  (handshake w = None →
   (check w self).2 = (_ ← nvmlShutdown w; Ok false) ∧
   Schema (checked w self) = Schema self) ∧
  ((check w self).2 = Ok false ↔
   handshake w = None ∧ returned (nvmlShutdown w) = true).
Proof.
  assert (handshake w = None →
          (check w self).2 = (_ ← nvmlShutdown w; Ok false) ∧
          Schema (checked w self) = Schema self) as Hfail.
  { intros H. destruct (check_probe_failed w self H) as (Hr & Ho & Hd).
    unfold checked, Schema, check. unfold mbind at 1 3 4, M_bind.
    destruct (check_probe w self) as [s1 r]. simpl in *. subst r.
    destruct (nvmlShutdown w); simpl; by rewrite Ho, Hd. }
  split; [done|]. split.
  - intros H. destruct (handshake w) as [[u d]|] eqn:Hh.
    + apply handshake_Some in Hh as (Hi & Hu & Hd). exfalso.
      revert H. unfold check. unfold mbind at 1, M_bind.
      destruct (check_probe w self) as [s1 [[data|]|e]] eqn:Hp; simpl;
        [|intros _|done].
      * intros H. pose proof (surjective_pairing (build_schema data s1)) as E.
        rewrite H in E. by apply build_schema_Ok in E as [? _].
      * unfold check_probe in Hp. revert Hp. cbv zeta.
        destruct (_ ← nvmlInit w; nvmlSystemGetDriverVersion w); [|done].
        rewrite Hu, Hd.
        by destruct (_get_data w _) as [? []].
    + split; [done|]. destruct (Hfail eq_refl) as [Hr _]. rewrite Hr in H.
      by destruct (nvmlShutdown w).
  - intros [Hh Hs]. destruct (Hfail Hh) as [-> _].
    by destruct (nvmlShutdown w) as [[]|].
Qed.

Lemma failed_handshake_ends_check_witness :
  (check machine_down (fresh ∅)).2
  = (_ ← nvmlShutdown machine_down; Ok false) ∧
  Schema (checked machine_down (fresh ∅)) = Schema (fresh ∅).
Proof.
  exact (proj1 (failed_handshake_ends_check machine_down (fresh ∅)) eq_refl).
Defined.

Lemma _get_data_counts w s :
  deviceCount (_get_data w s).1 = deviceCount s ∧
  unitCount (_get_data w s).1 = unitCount s ∧
  definitions (_get_data w s).1 = definitions s.
Proof. by destruct (_get_data_state w s) as [->| ->]. Qed.

Lemma check_probe_raise w self u d s1 e :
  returned (_ ← nvmlInit w; nvmlSystemGetDriverVersion w) = true →
  nvmlUnitGetCount w = Ok u → nvmlDeviceGetCount w = Ok d →
  _get_data w (probed w u d self) = (s1, Raise e) →
  check_probe w self = (s1, Raise e).
Proof.
  unfold check_probe, probed. intros Hinit -> -> H.
  destruct (nvmlInit w ≫= _); [|discriminate]. simpl in *. by rewrite H.
Qed.

(** X10: on a service that holds at least the charts of the module, [check]
    after a handshake that gave the counts raises what the collection
    raises and returns [True] when the collection returns: building the
    schema raises nothing, every key that it reads is in the snapshot and
    every chart that it appends to is there. *)
Theorem check_outcome w self u d :
  dom CHARTS ⊆ dom (definitions self) →
  handshake w = Some (u, d) →
  (check w self).2 = (_ ← (_get_data w (probed w u d self)).2; Ok true).
Proof.
  intros Hc Hh. apply handshake_Some in Hh as (Hi & Hu & Hd).
  destruct (_get_data w (probed w u d self)) as [s1 [data|e]] eqn:Hg; simpl.
  - unfold check. unfold mbind at 1, M_bind.
    rewrite (check_probe_run w self u d s1 data Hi Hu Hd Hg).
    destruct (_get_data_counts w (probed w u d self)) as (Hnd & Hnu & Hdef).
    rewrite Hg in Hnd, Hnu, Hdef. simpl in Hnd, Hnu, Hdef.
    apply build_schema_run.
    + by rewrite Hdef.
    + intros i p Hi' Hp. rewrite Hnd in Hi'.
      by eapply snapshot_device_key.
    + intros i Hi'. rewrite Hnd in Hi'. by eapply snapshot_ecc_first.
    + intros i p Hi' Hp. rewrite Hnu in Hi'. by eapply snapshot_unit_key.
  - unfold check. unfold mbind at 1, M_bind.
    by rewrite (check_probe_raise w self u d s1 e Hi Hu Hd Hg).
Qed.

Lemma check_outcome_witness :
  (check machine_units (fresh ∅)).2
  = (_ ← (_get_data machine_units (probed machine_units 2 1 (fresh ∅))).2;
     Ok true).
Proof.
  exact (check_outcome machine_units (fresh ∅) 2 1
           (reflexivity (dom CHARTS)) eq_refl).
Defined.

(** ** The keys that [check] charts *)

(** A first ECC entry that is not [None] comes with the other nineteen. *)
Lemma snapshot_ecc_keys w self self' data i p :
  _get_data w self = (self', Ok data) → i < deviceCount self →
  present data (ecc_first +:+ str i) = true → p ∈ ecc_slots.*1 →
  is_Some (data !! (p +:+ str i)).
Proof.
  intros H Hi Hpres Hp. pose proof H as H'.
  apply _get_data_Ok in H' as (data0 & H0 & Hfill).
  assert (ecc_ok w i = true) as Hok.
  { destruct (ecc_ok w i) eqn:Hok; [done|].
    pose proof (primary_first_ecc_None _ _ _ _ H0 Hi Hok) as Hnone.
    rewrite <- (_get_data_entry w self self' data data0) in Hnone;
      [|done|done|apply ecc_slots_all, ecc_first_ecc|].
    - unfold present in Hpres. by rewrite Hnone in Hpres.
    - intros Hl. apply legacy_slots_device in Hl.
      eapply device_not_ecc; [done|apply ecc_first_ecc]. }
  apply elem_of_dom. rewrite (fills_dom _ _ _ Hfill).
  rewrite (primary_dom _ _ _ H0).
  apply elem_of_snapshot_keys. left. exists i. split; [done|].
  unfold device_keys. apply elem_of_union. right. rewrite Hok.
  apply elem_of_slot_keys. by exists p.
Qed.

Ltac line_in H :=
  repeat match type of H with
         | _ ∈ (if ?b then _ else _) => destruct b eqn:?
         | _ ∈ _ ++ _ => apply elem_of_app in H as [H|H]
         | _ ∈ [] => by apply elem_of_nil in H
         | _ ∈ _ :: _ => apply elem_of_cons in H as [->|H]
         end.

Lemma ecc_lines_slots kl : kl ∈ ecc_lines → kl.1 ∈ ecc_slots.*1.
Proof.
  intros H. change (ecc_slots.*1) with (ecc_lines.*1).
  by apply list_elem_of_fmap_2.
Qed.

Lemma device_lines_keys data i c l :
  (∀ p, p ∈ device_slots → is_Some (data !! (p +:+ str i))) →
  (present data (ecc_first +:+ str i) = true →
   ∀ p, p ∈ ecc_slots.*1 → is_Some (data !! (p +:+ str i))) →
  l ∈ device_lines data i c →
  ∃ k, line_key l = Some k ∧ is_Some (data !! k).
Proof.
  intros Hd He H. unfold device_lines, guarded, one in H. line_in H;
    try (eexists; split; [reflexivity|]; apply Hd; decide_slot).
  unfold ecc_group in H. apply list_elem_of_fmap in H as (kl & -> & Hkl).
  exists (kl.1 +:+ str i). split; [done|].
  apply He; [done|by apply ecc_lines_slots].
Qed.

Lemma unit_lines_keys data i c l :
  (∀ p, p ∈ unit_slots → is_Some (data !! (p +:+ str i))) →
  l ∈ unit_lines data i c →
  ∃ k, line_key l = Some k ∧ is_Some (data !! k).
Proof.
  intros Hu H. unfold unit_lines, guarded, one in H. line_in H;
    eexists; (split; [reflexivity|]); apply Hu; decide_slot.
Qed.

Lemma elem_of_concat_fmap {A B} (f : A → list B) xs y :
  y ∈ concat (f <$> xs) → ∃ x, x ∈ xs ∧ y ∈ f x.
Proof.
  induction xs as [|x xs IH]; csimpl; intros H.
  { by apply elem_of_nil in H. }
  apply elem_of_app in H as [H|H].
  - exists x. split; [by left|done].
  - destruct (IH H) as (x' & ? & ?). exists x'. split; [by right|done].
Qed.

Lemma last_reporting_Some data key n j :
  last_reporting data key n = Some j →
  j < n ∧ present data (key +:+ str j) = true.
Proof.
  induction n as [|n IH]; [done|]. simpl.
  destruct (present data (key +:+ str n)) eqn:Hp.
  - intros [= <-]. split; [lia|done].
  - intros H. destruct (IH H). split; [lia|done].
Qed.

(** X11: after a [check] that returned [True] on a service whose charts
    had no lines, every line of every chart has, as its key, a key of the
    snapshot that [check] took. *)
Theorem charted_keys_are_in_the_snapshot w self :
  (∀ c ch, definitions self !! c = Some ch → lines ch = []) →
  (check w self).2 = Ok true →
  ∃ data,
    (check_probe w self).2 = Ok (Some data) ∧
    ∀ c ch l, definitions (checked w self) !! c = Some ch → l ∈ lines ch →
      ∃ k, line_key l = Some k ∧ is_Some (data !! k).
Proof.
  intros Hempty H.
  destruct (check_run w self H)
    as (data & nd & nu & s1 & Hprobe & _ & _ & Hnd & Hnu & _ & Hdef & Hb & _).
  exists data. split; [by rewrite Hprobe|].
  destruct (check_probe_Some _ _ _ _ Hprobe) as (u & d & _ & _ & _ & Hg).
  destruct (_get_data_counts w (probed w u d self)) as (Hnd' & Hnu' & _).
  rewrite Hg in Hnd', Hnu'. simpl in Hnd', Hnu'.
  apply build_schema_Ok in Hb
    as (_ & name & _ & _ & _ & Hcharts & Hfan & Hpsu & _).
  rewrite Hdef in Hcharts, Hfan, Hpsu. rewrite Hnd, Hnu in Hcharts.
  rewrite Hnu in Hfan, Hpsu.
  assert (∀ i p, i < nd → p ∈ device_slots →
                 is_Some (data !! (p +:+ str i))) as Kd.
  { intros i p Hi Hp. eapply snapshot_device_key; [exact Hg| |done].
    simpl in *. lia. }
  assert (∀ i p, i < nu → p ∈ unit_slots →
                 is_Some (data !! (p +:+ str i))) as Ku.
  { intros i p Hi Hp. eapply snapshot_unit_key; [exact Hg| |done].
    simpl in *. lia. }
  assert (∀ i p, i < nd → present data (ecc_first +:+ str i) = true →
                 p ∈ ecc_slots.*1 → is_Some (data !! (p +:+ str i))) as Ke.
  { intros i p Hi Hpres Hp. eapply snapshot_ecc_keys; [exact Hg| |done..].
    simpl in *. lia. }
  intros c ch l Hc Hl.
  destruct (decide (c = "unit_fan")) as [->|Hnf];
    [|destruct (decide (c = "unit_psu")) as [->|Hnp]].
  - rewrite Hfan in Hc. unfold unit_chart_after in Hc.
    destruct (last_reporting data "unit_fan_speed_" nu) as [j|] eqn:Hj.
    + apply last_reporting_Some in Hj as [Hj _]. injection Hc as <-.
      simpl in Hl. line_in Hl. eexists. split; [reflexivity|].
      apply Ku; [done|decide_slot].
    + destruct (definitions self !! "unit_fan") as [ch0|] eqn:E; [|done].
      injection Hc as <-. simpl in Hl. rewrite (Hempty _ _ E) in Hl.
      by apply elem_of_nil in Hl.
  - rewrite Hpsu in Hc. unfold unit_chart_after in Hc.
    destruct (last_reporting data "unit_psu_current_" nu) as [j|] eqn:Hj.
    + apply last_reporting_Some in Hj as [Hj _]. injection Hc as <-.
      simpl in Hl. line_in Hl; (eexists; split; [reflexivity|]);
        (apply Ku; [done|decide_slot]).
    + destruct (definitions self !! "unit_psu") as [ch0|] eqn:E; [|done].
      injection Hc as <-. simpl in Hl. rewrite (Hempty _ _ E) in Hl.
      by apply elem_of_nil in Hl.
  - rewrite Hcharts in Hc by (by intros [?|?]).
    destruct (definitions self !! c) as [ch0|] eqn:E; [|done].
    injection Hc as <-. simpl in Hl. rewrite (Hempty _ _ E) in Hl.
    simpl in Hl. unfold schema_lines in Hl.
    apply elem_of_app in Hl as [Hl|Hl];
      apply elem_of_concat_fmap in Hl as (i & Hi & Hl);
      apply elem_of_range in Hi.
    + eapply device_lines_keys; [| |exact Hl].
      * intros p Hp. by apply Kd.
      * intros Hpres p Hp. by apply Ke.
    + eapply unit_lines_keys; [|exact Hl]. intros p Hp. by apply Ku.
Qed.

Lemma fresh_charts_have_no_lines c ch :
  definitions (fresh ∅) !! c = Some ch → lines ch = [].
Proof.
  change (definitions (fresh ∅)) with CHARTS. unfold CHARTS. intros H.
  repeat (apply lookup_insert_Some in H as [[_ <-]|[_ H]]; [done|]).
  done.
Qed.

Lemma charted_keys_are_in_the_snapshot_witness :
  ∃ data,
    (check_probe machine_units (fresh ∅)).2 = Ok (Some data) ∧
    ∀ c ch l,
      definitions (checked machine_units (fresh ∅)) !! c = Some ch →
      l ∈ lines ch → ∃ k, line_key l = Some k ∧ is_Some (data !! k).
Proof.
  assert ((check machine_units (fresh ∅)).2 = Ok true) as Hcheck
    by (vm_compute; reflexivity).
  exact (charted_keys_are_in_the_snapshot machine_units (fresh ∅)
           fresh_charts_have_no_lines Hcheck).
Defined.

(** ** The names in the titles *)

Lemma append_assoc (a b c : string) : (a +:+ b) +:+ c = a +:+ b +:+ c.
Proof.
  induction a as [|x a IH]; [done|].
  change (String x ((a +:+ b) +:+ c) = String x (a +:+ b +:+ c)).
  by rewrite IH.
Qed.

Lemma concat_snoc sep (ls : list string) x :
  ls ≠ [] →
  String.concat sep (ls ++ [x]) = String.concat sep ls +:+ sep +:+ x.
Proof.
  induction ls as [|a [|b ls] IH]; intros Hne; [done|done|].
  change (String.concat sep ((a :: b :: ls) ++ [x]))
    with (a +:+ sep +:+ String.concat sep ((b :: ls) ++ [x])).
  rewrite IH by done.
  change (String.concat sep (a :: b :: ls))
    with (a +:+ sep +:+ String.concat sep (b :: ls)).
  by rewrite !append_assoc.
Qed.

(** X12: where the snapshot has the names of the [n] cards, the name that
    [check] appends to the titles is the list of the cards, each as its name
    and its index in square brackets, separated by [" | "]; it is empty for
    no card. *)
Theorem card_names_join data n :
  (∀ i, i < n → is_Some (data !! ("device_name_" +:+ str i))) →
  card_names data n = Ok (String.concat " | " (card_label data <$> range n)).
Proof.
  unfold card_names. induction n as [|n IH]; intros H; [done|].
  rewrite range_S, for_each_app, IH by (intros i Hi; apply H; lia).
  cbn [mbind Result_bind for_each]. destruct (H n) as [v Hv]; [lia|].
  assert (getitem data ("device_name_" +:+ str n) = Ok v) as ->
    by (unfold getitem; by rewrite Hv).
  cbn [mbind Result_bind]. f_equal. rewrite fmap_app. cbn [fmap list_fmap].
  assert (card_label data n = str_value v +:+ " [" +:+ str n +:+ "]") as Hlab
    by (unfold card_label; by rewrite Hv).
  destruct (decide (n = 0)) as [->|Hn]; [by rewrite Hlab|].
  rewrite concat_snoc, Hlab; [done|].
  destruct n; [done|]. rewrite range_S, fmap_app. by intros [_ [=]]%app_eq_nil.
Qed.

Lemma card_names_join_witness :
  card_names (snapshot_of (_get_data machine_ok (one_card false))) 1
  = Ok (String.concat " | "
          (card_label (snapshot_of (_get_data machine_ok (one_card false)))
           <$> range 1)).
Proof.
  assert (returned (_get_data machine_ok (one_card false)).2 = true) as Hret
    by (vm_compute; reflexivity).
  apply card_names_join. intros i Hi.
  apply (snapshot_device_key machine_ok (one_card false) _ _ i "device_name_"
           (_get_data_returned _ _ Hret) Hi).
  apply (bool_decide_unpack _). vm_compute. reflexivity.
Defined.

(** ** A machine without cards *)

Lemma _get_data_no_cards w s :
  deviceCount s = 0 → unitCount s = 0 → (_get_data w s).2 = Ok ∅.
Proof.
  unfold _get_data, primary. intros -> ->. simpl.
  destruct (truthy (legacy s)); [|done]. by destruct (legacy_fetch w).
Qed.

(** X13: when the library reports neither cards nor units, [check] still
    returns [True]: the snapshot it took is empty, the chart order is as
    before, and every chart is as before but for the [" for "] that its
    title has got appended. *)
Theorem check_without_cards w self :
  handshake w = Some (0, 0) →
  (check w self).2 = Ok true ∧
  (check_probe w self).2 = Ok (Some ∅) ∧
  order (checked w self) = order self ∧
  definitions (checked w self) = retitle "" <$> definitions self.
Proof.
  intros Hh. apply handshake_Some in Hh as (Hi & Hu & Hd).
  pose proof (_get_data_no_cards w (probed w 0 0 self) eq_refl eq_refl) as Hg.
  destruct (_get_data_counts w (probed w 0 0 self)) as (Hnd & Hnu & Hdef).
  assert (order (_get_data w (probed w 0 0 self)).1 = order self) as Hord
    by (by destruct (_get_data_state w (probed w 0 0 self)) as [->| ->]).
  destruct (_get_data w (probed w 0 0 self)) as [s1 r] eqn:E.
  simpl in *. subst r.
  pose proof (check_probe_run w self 0 0 s1 ∅ Hi Hu Hd E) as Hprobe.
  assert (check w self = build_schema ∅ s1) as Hcheck.
  { unfold check. unfold mbind, M_bind. by rewrite Hprobe. }
  unfold checked. rewrite Hcheck, Hprobe.
  unfold build_schema. rewrite Hnd, Hnu. simpl.
  by rewrite Hord, Hdef.
Qed.

Lemma check_without_cards_witness :
  (check machine_empty (fresh ∅)).2 = Ok true ∧
  (check_probe machine_empty (fresh ∅)).2 = Ok (Some ∅) ∧
  order (checked machine_empty (fresh ∅)) = order (fresh ∅) ∧
  definitions (checked machine_empty (fresh ∅))
  = retitle "" <$> definitions (fresh ∅).
Proof. exact (check_without_cards machine_empty (fresh ∅) eq_refl). Defined.

(** ** What the plugin reads of [self] *)

Lemma blind_ret {A} (a : A) : blind (mret a).
Proof. by intros s t H. Qed.

Lemma blind_lift {A} (r : Result A) : blind (lift r).
Proof. by intros s t H. Qed.

Lemma blind_bind {A B} (m : M A) (f : A → M B) :
  blind m → (∀ a, blind (f a)) → blind (m ≫= f).
Proof.
  intros Hm Hf s t H. destruct (Hm s t H) as [Hr Hv].
  unfold mbind, M_bind. destruct (m s) as [s1 r1], (m t) as [t1 r2].
  simpl in *. subst r2. destruct r1 as [a|e]; [|done]. by apply Hf.
Qed.

Lemma blind_append_line chart l : blind (append_line chart l).
Proof.
  intros s t (Hl & Hu & Hd & Ho & Hc). unfold append_line. rewrite Hc.
  destruct (definitions t !! chart); simpl; [|done].
  split; [done|]. by repeat split.
Qed.

Lemma blind_append_lines chart ls : blind (append_lines chart ls).
Proof.
  induction ls as [|l ls IH]; [apply blind_ret|].
  simpl. apply blind_bind; [apply blind_append_line|done].
Qed.

Lemma blind_set_chart chart c : blind (set_chart chart c).
Proof.
  intros s t (Hl & Hu & Hd & Ho & Hc). unfold set_chart. simpl.
  split; [done|]. repeat split; simpl; congruence.
Qed.

Lemma blind_order_append chart : blind (order_append chart).
Proof.
  intros s t (Hl & Hu & Hd & Ho & Hc). unfold order_append. simpl.
  split; [done|]. repeat split; simpl; congruence.
Qed.

Lemma blind_retitle_all name : blind (retitle_all name).
Proof.
  intros s t (Hl & Hu & Hd & Ho & Hc). unfold retitle_all. simpl.
  split; [done|]. repeat split; simpl; congruence.
Qed.

Lemma blind_if_present data k body :
  blind body → blind (if_present data k body).
Proof.
  intros H. unfold if_present. apply blind_bind; [apply blind_lift|].
  intros v. destruct (is_None v); [apply blind_ret|done].
Qed.

Lemma blind_for_eachM l body :
  (∀ i, blind (body i)) → blind (for_eachM l body).
Proof.
  intros H. induction l as [|i l IH]; [apply blind_ret|].
  simpl. by apply blind_bind.
Qed.

Lemma blind_check_device data i : blind (check_device data i).
Proof.
  unfold check_device. cbv zeta.
  repeat (apply blind_bind; [|intros _]); apply blind_if_present;
    first [ apply blind_append_lines
          | repeat (apply blind_bind; [|intros _]); apply blind_append_line ].
Qed.

Lemma blind_check_unit data i : blind (check_unit data i).
Proof.
  unfold check_unit. cbv zeta.
  repeat (apply blind_bind; [|intros _]); apply blind_if_present;
    first [ apply blind_set_chart
          | repeat (apply blind_bind; [|intros _]); apply blind_append_line ].
Qed.

Lemma blind_build_schema data : blind (build_schema data).
Proof.
  intros s t H. pose proof H as (Hl & Hu & Hd & Ho & Hc).
  unfold build_schema. rewrite Hu, Hd.
  revert s t H Hl Hu Hd Ho Hc.
  assert (∀ nd nu, blind
    (name ← lift (card_names data nd);
     _ ← retitle_all name;
     _ ← for_eachM (range nd) (check_device data);
     _ ← (if negb (nu =? 0)
          then (_ ← order_append "unit_fan"; _ ← order_append "unit_psu";
                for_eachM (range nu) (check_unit data))
          else mret tt);
     mret true)) as Hblind.
  { intros nd nu. apply blind_bind; [apply blind_lift|intros name].
    apply blind_bind; [apply blind_retitle_all|intros _].
    apply blind_bind;
      [apply blind_for_eachM; intros i; apply blind_check_device|intros _].
    apply blind_bind; [|intros _; apply blind_ret].
    destruct (negb (nu =? 0)); [|apply blind_ret].
    do 2 (apply blind_bind; [apply blind_order_append|intros _]).
    apply blind_for_eachM. intros i. apply blind_check_unit. }
  intros s t H _ _ _ _ _. by apply Hblind.
Qed.

Lemma blind__get_data w s t :
  same_view s t →
  (_get_data w s).2 = (_get_data w t).2 ∧
  same_view (_get_data w s).1 (_get_data w t).1.
Proof.
  intros H. pose proof H as (Hl & Hu & Hd & Ho & Hc).
  unfold _get_data, primary. rewrite Hl, Hu, Hd.
  destruct (for_each (range (deviceCount t)) (device_pass w) ∅ ≫= _);
    simpl; [|done].
  destruct (truthy (legacy t)); [|done].
  destruct (legacy_fetch w); simpl; [done|]. split; [done|].
  by repeat split.
Qed.

Lemma blind_cycles ws s t :
  same_view s t → same_view (cycles ws s) (cycles ws t).
Proof.
  revert s t. induction ws as [|w ws IH]; intros s t H; [done|].
  simpl. apply IH. by apply blind__get_data.
Qed.

Lemma blind_check_probe w s t :
  configuration s !! "legacy" = configuration t !! "legacy" →
  order s = order t → definitions s = definitions t →
  (check_probe w s).2 = (check_probe w t).2 ∧
  order (check_probe w s).1 = order (check_probe w t).1 ∧
  definitions (check_probe w s).1 = definitions (check_probe w t).1 ∧
  (∀ data, (check_probe w s).2 = Ok (Some data) →
           same_view (check_probe w s).1 (check_probe w t).1).
Proof.
  intros Hconf Ho Hc. unfold check_probe. cbv zeta.
  destruct (_ ← nvmlInit w; nvmlSystemGetDriverVersion w); simpl;
    [|by destruct (nvmlShutdown w) as [[]|]].
  destruct (nvmlUnitGetCount w) as [u|]; simpl;
    [|by destruct (nvmlShutdown w) as [[]|]].
  destruct (nvmlDeviceGetCount w) as [d|]; simpl;
    [|by destruct (nvmlShutdown w) as [[]|]].
  match goal with
  | |- (match _get_data w ?a with _ => _ end).2
       = (match _get_data w ?b with _ => _ end).2 ∧ _ =>
      destruct (blind__get_data w a b) as [Hr Hv];
        [repeat split; simpl; by rewrite ?Hconf|];
        destruct (_get_data w a) as [s1 r1], (_get_data w b) as [t1 r2]
  end.
  simpl in *. subst r2. destruct Hv as (? & ? & ? & ? & ?).
  by destruct r1.
Qed.

(** X14: what [check] returns and the schema it leaves depend on the
    service only through the [legacy] setting of its configuration, the
    chart order and the chart definitions: two services that agree on these
    get the same answer and the same schema, and after [True] the same
    snapshot in every later cycle.  The [nvMemFactor] setting, which
    [check] reads, changes none of them. *)
Theorem check_reads_legacy_and_schema w s t :
  configuration s !! "legacy" = configuration t !! "legacy" →
  Schema s = Schema t →
  (check w s).2 = (check w t).2 ∧
  Schema (checked w s) = Schema (checked w t) ∧
  ((check w s).2 = Ok true →
   ∀ ws w',
     (_get_data w' (cycles ws (checked w s))).2
     = (_get_data w' (cycles ws (checked w t))).2).
Proof.
  intros Hconf [= Ho Hc].
  destruct (blind_check_probe w s t Hconf Ho Hc) as (Hr & Ho' & Hc' & Hv).
  unfold checked, check. unfold mbind, M_bind.
  destruct (check_probe w s) as [s1 r1], (check_probe w t) as [t1 r2].
  simpl in *. subst r2. destruct r1 as [[data|]|e]; simpl.
  - destruct (blind_build_schema data s1 t1 (Hv data eq_refl))
      as (Hr & Hview).
    split; [done|]. split.
    { destruct Hview as (_ & _ & _ & Ho'' & Hc'').
      unfold Schema. by rewrite Ho'', Hc''. }
    intros _ ws w'. by apply blind__get_data, blind_cycles.
  - split; [done|]. split; [|done]. unfold Schema. by rewrite Ho', Hc'.
  - split; [done|]. split; [|done]. unfold Schema. by rewrite Ho', Hc'.
Qed.

Lemma check_reads_legacy_and_schema_witness :
  (check machine_units (fresh ∅)).2
  = (check machine_units (fresh {["nvMemFactor" := VInt 2]})).2 ∧
  Schema (checked machine_units (fresh ∅))
  = Schema (checked machine_units (fresh {["nvMemFactor" := VInt 2]})) ∧
  ((check machine_units (fresh ∅)).2 = Ok true →
   ∀ ws w',
     (_get_data w' (cycles ws (checked machine_units (fresh ∅)))).2
     = (_get_data w'
          (cycles ws
             (checked machine_units (fresh {["nvMemFactor" := VInt 2]})))).2).
Proof.
  assert (configuration (fresh ∅) !! "legacy"
          = configuration (fresh {["nvMemFactor" := VInt 2]}) !! "legacy")
    as Hconf by (vm_compute; reflexivity).
  exact (check_reads_legacy_and_schema machine_units (fresh ∅)
           (fresh {["nvMemFactor" := VInt 2]}) Hconf eq_refl).
Defined.

(** ** The chart order and the unit charts *)

Lemma last_reporting_None data key n :
  last_reporting data key n = None ↔
  ∀ i, i < n → present data (key +:+ str i) = false.
Proof.
  induction n as [|n IH]; simpl; [split; [lia|done]|].
  destruct (present data (key +:+ str n)) eqn:Hp.
  - split; [done|]. intros H. rewrite H in Hp by lia. done.
  - rewrite IH. split.
    + intros H i Hi. destruct (decide (i = n)) as [->|]; [done|].
      apply H. lia.
    + intros H i Hi. apply H. lia.
Qed.

Lemma unit_chart_after_None data key mk n before :
  unit_chart_after data key mk n before = None ↔
  before = None ∧ ∀ i, i < n → present data (key +:+ str i) = false.
Proof.
  unfold unit_chart_after. rewrite <- last_reporting_None.
  destruct (last_reporting data key n); naive_solver.
Qed.

(** X15: a [check] that returns [True] on a machine with units appends
    [unit_fan] and [unit_psu] to the chart order whether or not a unit
    reports; the chart [unit_fan] has no definition afterwards exactly
    when it had none before and the fan speed entry of every unit is
    [None], and likewise [unit_psu] with the current of the power supply.
    The order then names a chart that is not defined. *)
Theorem order_names_the_unit_charts w self :
  (check w self).2 = Ok true →
  ∃ data nu,
    (check_probe w self).2 = Ok (Some data) ∧
    nvmlUnitGetCount w = Ok nu ∧
    order (checked w self)
    = order self ++ (if nu =? 0 then [] else ["unit_fan"; "unit_psu"]) ∧
    (definitions (checked w self) !! "unit_fan" = None ↔
     definitions self !! "unit_fan" = None ∧
     ∀ i, i < nu → present data ("unit_fan_speed_" +:+ str i) = false) ∧
    (definitions (checked w self) !! "unit_psu" = None ↔
     definitions self !! "unit_psu" = None ∧
     ∀ i, i < nu → present data ("unit_psu_current_" +:+ str i) = false).
Proof.
  intros H.
  destruct (check_run w self H)
    as (data & nd & nu & s1 & Hprobe & _ & Hu & Hnd & Hnu & Ho & Hdef & Hb & _).
  exists data, nu. split; [by rewrite Hprobe|]. split; [done|].
  apply build_schema_Ok in Hb
    as (_ & name & _ & Hs & _ & _ & Hfan & Hpsu & _).
  rewrite Hdef, Hnu in Hfan, Hpsu. rewrite Hfan, Hpsu.
  rewrite !unit_chart_after_None, !fmap_None.
  split; [|done]. rewrite Hs. simpl. by rewrite Ho, Hnu.
Qed.

Lemma order_names_the_unit_charts_witness :
  ∃ data nu,
    (check_probe machine_silent_units (fresh ∅)).2 = Ok (Some data) ∧
    nvmlUnitGetCount machine_silent_units = Ok nu ∧
    order (checked machine_silent_units (fresh ∅))
    = order (fresh ∅) ++ (if nu =? 0 then [] else ["unit_fan"; "unit_psu"]) ∧
    (definitions (checked machine_silent_units (fresh ∅)) !! "unit_fan" = None
     ↔ definitions (fresh ∅) !! "unit_fan" = None ∧
       ∀ i, i < nu → present data ("unit_fan_speed_" +:+ str i) = false) ∧
    (definitions (checked machine_silent_units (fresh ∅)) !! "unit_psu" = None
     ↔ definitions (fresh ∅) !! "unit_psu" = None ∧
       ∀ i, i < nu → present data ("unit_psu_current_" +:+ str i) = false).
Proof.
  assert ((check machine_silent_units (fresh ∅)).2 = Ok true) as Hcheck
    by (vm_compute; reflexivity).
  exact (order_names_the_unit_charts machine_silent_units (fresh ∅) Hcheck).
Defined.
